(** * trackcpp: element model, tracker and flat-file I/O

    Shallow embedding of
      - [include/trackcpp/elements.h], [src/elements.cpp]
        (the [Element] class, its comparison and its typed constructors),
      - [include/trackcpp/tracking.h]
        ([track_elementpass], [track_linepass], [track_ringpass]),
      - [src/flat_file.cpp]
        ([write_flat_file], [read_flat_file_trackcpp]),
    followed by the properties of the specification that concern them.

    A C++ [double] is an IEEE-754 binary64 value, here a [spec_float] of the
    Standard Library (the binary64 values are the [spec_float]s valid for
    precision 53 and maximal exponent 1024); comparisons are the IEEE ones,
    so NaN differs from everything, itself included, and the two zeros are
    equal. *)

From Stdlib Require Import ZArith String Ascii List Bool Lia.
From Stdlib Require Import Floats.SpecFloat.
From stdpp Require Import base list strings.

Open Scope string_scope.
Open Scope Z_scope.
Open Scope list_scope.

(** ** Scalars *)

Definition double : Type := spec_float.

(** The double nearest to an integer (exact for the small integers used as
    literals below). *)
Definition double_of_Z (z : Z) : double := binary_normalize 53 1024 z 0 false.

Definition d_zero : double := S754_zero false.
Definition d_one : double := Eval cbv in double_of_Z 1.
Definition DBL_MAX : double := Eval cbv in SFmax_float 53 1024.
Definition d_nan : double := S754_nan.

Definition d_neg (x : double) : double := SFopp x.
Definition d_eq (x y : double) : bool := SFeqb x y.
Definition d_ne (x y : double) : bool := negb (SFeqb x y).
Definition d_lt (x y : double) : bool := SFltb x y.
Definition d_gt (x y : double) : bool := SFltb y x.

(** [std::isfinite]: neither NaN nor an infinity. *)
Definition isfinite (v : double) : bool :=
  match v with
  | S754_zero _ | S754_finite _ _ _ => true
  | S754_infinity _ | S754_nan => false
  end.

(** [double t[6]] and the row-major [double r[36]]. *)
Record vec6 : Type := V6 { c0 : double; c1 : double; c2 : double;
                           c3 : double; c4 : double; c5 : double }.
Record mat66 : Type := M66 { row0 : vec6; row1 : vec6; row2 : vec6;
                             row3 : vec6; row4 : vec6; row5 : vec6 }.

Definition vec6_list (v : vec6) : list double :=
  [c0 v; c1 v; c2 v; c3 v; c4 v; c5 v].
Definition mat66_list (m : mat66) : list double :=
  vec6_list (row0 m) ++ vec6_list (row1 m) ++ vec6_list (row2 m) ++
  vec6_list (row3 m) ++ vec6_list (row4 m) ++ vec6_list (row5 m).

Definition vec6_zero : vec6 := V6 d_zero d_zero d_zero d_zero d_zero d_zero.
Definition mat66_id : mat66 :=
  M66 (V6 d_one d_zero d_zero d_zero d_zero d_zero)
      (V6 d_zero d_one d_zero d_zero d_zero d_zero)
      (V6 d_zero d_zero d_one d_zero d_zero d_zero)
      (V6 d_zero d_zero d_zero d_one d_zero d_zero)
      (V6 d_zero d_zero d_zero d_zero d_one d_zero)
      (V6 d_zero d_zero d_zero d_zero d_zero d_one).

(** ** Enumerations of [auxiliary.h] *)

(** Modelled from the spec: [auxiliary.h] is not among the sources; the
    status values are those of the specification's uniform status
    enumeration. *)
Module Status.
Inductive type : Type :=
| success
| passmethod_not_defined
| passmethod_not_implemented
| particle_lost
| file_not_found
| flat_file_error
| kicktable_out_of_range
| findorbit_not_converged.

Definition eqb (a b : type) : bool :=
  match a, b with
  | success, success
  | passmethod_not_defined, passmethod_not_defined
  | passmethod_not_implemented, passmethod_not_implemented
  | particle_lost, particle_lost
  | file_not_found, file_not_found
  | flat_file_error, flat_file_error
  | kicktable_out_of_range, kicktable_out_of_range
  | findorbit_not_converged, findorbit_not_converged => true
  | _, _ => false
  end.
End Status.

(** The planes [tracking.h] names. *)
Module Plane.
Inductive type : Type := no_plane | x | y.
End Plane.

(** Modelled from the spec: the tags of [PassMethod] and the table [pm_dict]
    of [auxiliary.h], in the order in which the specification lists the
    literal pass-method names and in which [track_elementpass] switches on
    them; [pm_dict[i]] names the pass method of tag [i]. *)
Module PassMethod.
Definition pm_identity_pass : Z := 0.
Definition pm_drift_pass : Z := 1.
Definition pm_str_mpole_symplectic4_pass : Z := 2.
Definition pm_bnd_mpole_symplectic4_pass : Z := 3.
Definition pm_corrector_pass : Z := 4.
Definition pm_cavity_pass : Z := 5.
Definition pm_thinquad_pass : Z := 6.
Definition pm_thinsext_pass : Z := 7.
Definition pm_kicktable_pass : Z := 8.
Definition pm_nr_pms : Z := 9.
End PassMethod.

Definition pm_dict : list string :=
  [ "identity_pass"; "drift_pass"; "str_mpole_symplectic4_pass";
    "bnd_mpole_symplectic4_pass"; "corrector_pass"; "cavity_pass";
    "thinquad_pass"; "thinsext_pass"; "kicktable_pass" ].

(** ** Phase-space coordinates *)

Module Pos.
Record t : Type := mk { rx : double; px : double; ry : double;
                        py : double; de : double; dl : double }.
End Pos.

Definition nan_pos : Pos.t := Pos.mk d_nan d_nan d_nan d_nan d_nan d_nan.

(** ** The element (elements.h)

    The record is parametric in the type [K] of kicktables ([kicktable.h] is
    not among the sources); the pointer [const Kicktable*] is an optional
    kicktable, [None] for [nullptr].  [with_f v e] is [e] after the
    assignment [e.f = v]. *)

Module Element.
Record t (K : Type) : Type := mk {
  fam_name : string;
  pass_method : Z;
  length : double;
  nr_steps : Z;
  hmin : double;
  hmax : double;
  vmin : double;
  vmax : double;
  hkick : double;
  vkick : double;
  angle : double;
  angle_in : double;
  angle_out : double;
  gap : double;
  fint_in : double;
  fint_out : double;
  thin_KL : double;
  thin_SL : double;
  frequency : double;
  voltage : double;
  polynom_a : list double;
  polynom_b : list double;
  kicktable : option K;
  t_in : vec6;
  t_out : vec6;
  r_in : mat66;
  r_out : mat66
}.
Arguments fam_name {K} _.
Arguments pass_method {K} _.
Arguments length {K} _.
Arguments nr_steps {K} _.
Arguments hmin {K} _.
Arguments hmax {K} _.
Arguments vmin {K} _.
Arguments vmax {K} _.
Arguments hkick {K} _.
Arguments vkick {K} _.
Arguments angle {K} _.
Arguments angle_in {K} _.
Arguments angle_out {K} _.
Arguments gap {K} _.
Arguments fint_in {K} _.
Arguments fint_out {K} _.
Arguments thin_KL {K} _.
Arguments thin_SL {K} _.
Arguments frequency {K} _.
Arguments voltage {K} _.
Arguments polynom_a {K} _.
Arguments polynom_b {K} _.
Arguments kicktable {K} _.
Arguments t_in {K} _.
Arguments t_out {K} _.
Arguments r_in {K} _.
Arguments r_out {K} _.
Arguments mk {K} _ _ _ _ _ _ _ _ _ _ _ _ _ _ _ _ _ _ _ _ _ _ _ _ _ _ _.

Definition with_fam_name {K} (v : string) (e : t K) : t K :=
  mk v (pass_method e) (length e) (nr_steps e) (hmin e) (hmax e) (vmin e)
    (vmax e) (hkick e) (vkick e) (angle e) (angle_in e) (angle_out e)
    (gap e) (fint_in e) (fint_out e) (thin_KL e) (thin_SL e) (frequency e)
    (voltage e) (polynom_a e) (polynom_b e) (kicktable e) (t_in e) (t_out e)
    (r_in e) (r_out e).
Definition with_pass_method {K} (v : Z) (e : t K) : t K :=
  mk (fam_name e) v (length e) (nr_steps e) (hmin e) (hmax e) (vmin e)
    (vmax e) (hkick e) (vkick e) (angle e) (angle_in e) (angle_out e)
    (gap e) (fint_in e) (fint_out e) (thin_KL e) (thin_SL e) (frequency e)
    (voltage e) (polynom_a e) (polynom_b e) (kicktable e) (t_in e) (t_out e)
    (r_in e) (r_out e).
Definition with_length {K} (v : double) (e : t K) : t K :=
  mk (fam_name e) (pass_method e) v (nr_steps e) (hmin e) (hmax e) (vmin e)
    (vmax e) (hkick e) (vkick e) (angle e) (angle_in e) (angle_out e)
    (gap e) (fint_in e) (fint_out e) (thin_KL e) (thin_SL e) (frequency e)
    (voltage e) (polynom_a e) (polynom_b e) (kicktable e) (t_in e) (t_out e)
    (r_in e) (r_out e).
Definition with_nr_steps {K} (v : Z) (e : t K) : t K :=
  mk (fam_name e) (pass_method e) (length e) v (hmin e) (hmax e) (vmin e)
    (vmax e) (hkick e) (vkick e) (angle e) (angle_in e) (angle_out e)
    (gap e) (fint_in e) (fint_out e) (thin_KL e) (thin_SL e) (frequency e)
    (voltage e) (polynom_a e) (polynom_b e) (kicktable e) (t_in e) (t_out e)
    (r_in e) (r_out e).
Definition with_hmin {K} (v : double) (e : t K) : t K :=
  mk (fam_name e) (pass_method e) (length e) (nr_steps e) v (hmax e)
    (vmin e) (vmax e) (hkick e) (vkick e) (angle e) (angle_in e)
    (angle_out e) (gap e) (fint_in e) (fint_out e) (thin_KL e) (thin_SL e)
    (frequency e) (voltage e) (polynom_a e) (polynom_b e) (kicktable e)
    (t_in e) (t_out e) (r_in e) (r_out e).
Definition with_hmax {K} (v : double) (e : t K) : t K :=
  mk (fam_name e) (pass_method e) (length e) (nr_steps e) (hmin e) v
    (vmin e) (vmax e) (hkick e) (vkick e) (angle e) (angle_in e)
    (angle_out e) (gap e) (fint_in e) (fint_out e) (thin_KL e) (thin_SL e)
    (frequency e) (voltage e) (polynom_a e) (polynom_b e) (kicktable e)
    (t_in e) (t_out e) (r_in e) (r_out e).
Definition with_vmin {K} (v : double) (e : t K) : t K :=
  mk (fam_name e) (pass_method e) (length e) (nr_steps e) (hmin e) (hmax e)
    v (vmax e) (hkick e) (vkick e) (angle e) (angle_in e) (angle_out e)
    (gap e) (fint_in e) (fint_out e) (thin_KL e) (thin_SL e) (frequency e)
    (voltage e) (polynom_a e) (polynom_b e) (kicktable e) (t_in e) (t_out e)
    (r_in e) (r_out e).
Definition with_vmax {K} (v : double) (e : t K) : t K :=
  mk (fam_name e) (pass_method e) (length e) (nr_steps e) (hmin e) (hmax e)
    (vmin e) v (hkick e) (vkick e) (angle e) (angle_in e) (angle_out e)
    (gap e) (fint_in e) (fint_out e) (thin_KL e) (thin_SL e) (frequency e)
    (voltage e) (polynom_a e) (polynom_b e) (kicktable e) (t_in e) (t_out e)
    (r_in e) (r_out e).
Definition with_hkick {K} (v : double) (e : t K) : t K :=
  mk (fam_name e) (pass_method e) (length e) (nr_steps e) (hmin e) (hmax e)
    (vmin e) (vmax e) v (vkick e) (angle e) (angle_in e) (angle_out e)
    (gap e) (fint_in e) (fint_out e) (thin_KL e) (thin_SL e) (frequency e)
    (voltage e) (polynom_a e) (polynom_b e) (kicktable e) (t_in e) (t_out e)
    (r_in e) (r_out e).
Definition with_vkick {K} (v : double) (e : t K) : t K :=
  mk (fam_name e) (pass_method e) (length e) (nr_steps e) (hmin e) (hmax e)
    (vmin e) (vmax e) (hkick e) v (angle e) (angle_in e) (angle_out e)
    (gap e) (fint_in e) (fint_out e) (thin_KL e) (thin_SL e) (frequency e)
    (voltage e) (polynom_a e) (polynom_b e) (kicktable e) (t_in e) (t_out e)
    (r_in e) (r_out e).
Definition with_angle {K} (v : double) (e : t K) : t K :=
  mk (fam_name e) (pass_method e) (length e) (nr_steps e) (hmin e) (hmax e)
    (vmin e) (vmax e) (hkick e) (vkick e) v (angle_in e) (angle_out e)
    (gap e) (fint_in e) (fint_out e) (thin_KL e) (thin_SL e) (frequency e)
    (voltage e) (polynom_a e) (polynom_b e) (kicktable e) (t_in e) (t_out e)
    (r_in e) (r_out e).
Definition with_angle_in {K} (v : double) (e : t K) : t K :=
  mk (fam_name e) (pass_method e) (length e) (nr_steps e) (hmin e) (hmax e)
    (vmin e) (vmax e) (hkick e) (vkick e) (angle e) v (angle_out e) (gap e)
    (fint_in e) (fint_out e) (thin_KL e) (thin_SL e) (frequency e)
    (voltage e) (polynom_a e) (polynom_b e) (kicktable e) (t_in e) (t_out e)
    (r_in e) (r_out e).
Definition with_angle_out {K} (v : double) (e : t K) : t K :=
  mk (fam_name e) (pass_method e) (length e) (nr_steps e) (hmin e) (hmax e)
    (vmin e) (vmax e) (hkick e) (vkick e) (angle e) (angle_in e) v (gap e)
    (fint_in e) (fint_out e) (thin_KL e) (thin_SL e) (frequency e)
    (voltage e) (polynom_a e) (polynom_b e) (kicktable e) (t_in e) (t_out e)
    (r_in e) (r_out e).
Definition with_gap {K} (v : double) (e : t K) : t K :=
  mk (fam_name e) (pass_method e) (length e) (nr_steps e) (hmin e) (hmax e)
    (vmin e) (vmax e) (hkick e) (vkick e) (angle e) (angle_in e)
    (angle_out e) v (fint_in e) (fint_out e) (thin_KL e) (thin_SL e)
    (frequency e) (voltage e) (polynom_a e) (polynom_b e) (kicktable e)
    (t_in e) (t_out e) (r_in e) (r_out e).
Definition with_fint_in {K} (v : double) (e : t K) : t K :=
  mk (fam_name e) (pass_method e) (length e) (nr_steps e) (hmin e) (hmax e)
    (vmin e) (vmax e) (hkick e) (vkick e) (angle e) (angle_in e)
    (angle_out e) (gap e) v (fint_out e) (thin_KL e) (thin_SL e)
    (frequency e) (voltage e) (polynom_a e) (polynom_b e) (kicktable e)
    (t_in e) (t_out e) (r_in e) (r_out e).
Definition with_fint_out {K} (v : double) (e : t K) : t K :=
  mk (fam_name e) (pass_method e) (length e) (nr_steps e) (hmin e) (hmax e)
    (vmin e) (vmax e) (hkick e) (vkick e) (angle e) (angle_in e)
    (angle_out e) (gap e) (fint_in e) v (thin_KL e) (thin_SL e)
    (frequency e) (voltage e) (polynom_a e) (polynom_b e) (kicktable e)
    (t_in e) (t_out e) (r_in e) (r_out e).
Definition with_frequency {K} (v : double) (e : t K) : t K :=
  mk (fam_name e) (pass_method e) (length e) (nr_steps e) (hmin e) (hmax e)
    (vmin e) (vmax e) (hkick e) (vkick e) (angle e) (angle_in e)
    (angle_out e) (gap e) (fint_in e) (fint_out e) (thin_KL e) (thin_SL e) v
    (voltage e) (polynom_a e) (polynom_b e) (kicktable e) (t_in e) (t_out e)
    (r_in e) (r_out e).
Definition with_voltage {K} (v : double) (e : t K) : t K :=
  mk (fam_name e) (pass_method e) (length e) (nr_steps e) (hmin e) (hmax e)
    (vmin e) (vmax e) (hkick e) (vkick e) (angle e) (angle_in e)
    (angle_out e) (gap e) (fint_in e) (fint_out e) (thin_KL e) (thin_SL e)
    (frequency e) v (polynom_a e) (polynom_b e) (kicktable e) (t_in e)
    (t_out e) (r_in e) (r_out e).
Definition with_polynom_a {K} (v : list double) (e : t K) : t K :=
  mk (fam_name e) (pass_method e) (length e) (nr_steps e) (hmin e) (hmax e)
    (vmin e) (vmax e) (hkick e) (vkick e) (angle e) (angle_in e)
    (angle_out e) (gap e) (fint_in e) (fint_out e) (thin_KL e) (thin_SL e)
    (frequency e) (voltage e) v (polynom_b e) (kicktable e) (t_in e)
    (t_out e) (r_in e) (r_out e).
Definition with_polynom_b {K} (v : list double) (e : t K) : t K :=
  mk (fam_name e) (pass_method e) (length e) (nr_steps e) (hmin e) (hmax e)
    (vmin e) (vmax e) (hkick e) (vkick e) (angle e) (angle_in e)
    (angle_out e) (gap e) (fint_in e) (fint_out e) (thin_KL e) (thin_SL e)
    (frequency e) (voltage e) (polynom_a e) v (kicktable e) (t_in e)
    (t_out e) (r_in e) (r_out e).
Definition with_kicktable {K} (v : option K) (e : t K) : t K :=
  mk (fam_name e) (pass_method e) (length e) (nr_steps e) (hmin e) (hmax e)
    (vmin e) (vmax e) (hkick e) (vkick e) (angle e) (angle_in e)
    (angle_out e) (gap e) (fint_in e) (fint_out e) (thin_KL e) (thin_SL e)
    (frequency e) (voltage e) (polynom_a e) (polynom_b e) v (t_in e)
    (t_out e) (r_in e) (r_out e).
Definition with_t_in {K} (v : vec6) (e : t K) : t K :=
  mk (fam_name e) (pass_method e) (length e) (nr_steps e) (hmin e) (hmax e)
    (vmin e) (vmax e) (hkick e) (vkick e) (angle e) (angle_in e)
    (angle_out e) (gap e) (fint_in e) (fint_out e) (thin_KL e) (thin_SL e)
    (frequency e) (voltage e) (polynom_a e) (polynom_b e) (kicktable e) v
    (t_out e) (r_in e) (r_out e).
Definition with_t_out {K} (v : vec6) (e : t K) : t K :=
  mk (fam_name e) (pass_method e) (length e) (nr_steps e) (hmin e) (hmax e)
    (vmin e) (vmax e) (hkick e) (vkick e) (angle e) (angle_in e)
    (angle_out e) (gap e) (fint_in e) (fint_out e) (thin_KL e) (thin_SL e)
    (frequency e) (voltage e) (polynom_a e) (polynom_b e) (kicktable e)
    (t_in e) v (r_in e) (r_out e).
Definition with_r_in {K} (v : mat66) (e : t K) : t K :=
  mk (fam_name e) (pass_method e) (length e) (nr_steps e) (hmin e) (hmax e)
    (vmin e) (vmax e) (hkick e) (vkick e) (angle e) (angle_in e)
    (angle_out e) (gap e) (fint_in e) (fint_out e) (thin_KL e) (thin_SL e)
    (frequency e) (voltage e) (polynom_a e) (polynom_b e) (kicktable e)
    (t_in e) (t_out e) v (r_out e).
Definition with_r_out {K} (v : mat66) (e : t K) : t K :=
  mk (fam_name e) (pass_method e) (length e) (nr_steps e) (hmin e) (hmax e)
    (vmin e) (vmax e) (hkick e) (vkick e) (angle e) (angle_in e)
    (angle_out e) (gap e) (fint_in e) (fint_out e) (thin_KL e) (thin_SL e)
    (frequency e) (voltage e) (polynom_a e) (polynom_b e) (kicktable e)
    (t_in e) (t_out e) (r_in e) v.
End Element.

Section Elements.
Context {K : Type}.

(** [Kicktable::operator!=] ([kicktable.h] is not among the sources). *)
Variable kicktable_ne : K -> K -> bool.

Definition default_polynom : list double := replicate 3 d_zero.

(** [Element::Element(fam_name_, length_)]: the member initialisers of the
    class, zero translations and identity rotations. *)
Definition Element_new (fam_name_ : string) (length_ : double) : Element.t K :=
  Element.mk fam_name_ PassMethod.pm_drift_pass length_ 1
    (d_neg DBL_MAX) DBL_MAX (d_neg DBL_MAX) DBL_MAX
    d_zero d_zero d_zero d_zero d_zero d_zero d_zero d_zero
    d_zero d_zero d_zero d_zero
    default_polynom default_polynom None
    vec6_zero vec6_zero mat66_id mat66_id.

(** [pm_dict[i] == pass_method_] for the first such [i], searching from
    index [i]; [length pm_dict] stands for "not found", as the loop
    counter of the source does. *)
Fixpoint find_pass_method (dict : list string) (i : nat) (s : string) : nat :=
  match dict with
  | [] => i
  | name :: rest => if String.eqb name s then i else find_pass_method rest (S i) s
  end.

(** [Element::set_pass_method]. *)
Definition Element_set_pass_method (pass_method_ : string) (e : Element.t K)
  : Element.t K :=
  let i := find_pass_method pm_dict 0 pass_method_ in
  if (i <? List.length pm_dict)%nat
  then Element.with_pass_method (Z.of_nat i) e
  else e.

(** [std::vector<double>::operator!=]. *)
Fixpoint vector_eq (a b : list double) : bool :=
  match a, b with
  | [], [] => true
  | x :: a', y :: b' => d_eq x y && vector_eq a' b'
  | _, _ => false
  end.
Definition vector_ne (a b : list double) : bool := negb (vector_eq a b).

(** Some index [i] has [a[i] != b[i]] or [c[i] != d[i]]: the two loops
    over [t_in], [t_out] and over [r_in], [r_out]. *)
Fixpoint arrays_differ (a b c d : list double) : bool :=
  match a, b, c, d with
  | x :: a', y :: b', z :: c', w :: d' =>
      if d_ne x y then true
      else if d_ne z w then true
      else arrays_differ a' b' c' d'
  | _, _, _, _ => false
  end.

(** [Element::operator==].  [same_object] tells whether [this == &o]. *)
Definition Element_operator_eq (same_object : bool) (this o : Element.t K)
  : bool :=
  if same_object then true
  else if negb (String.eqb (Element.fam_name this) (Element.fam_name o)) then false
  else if negb (Element.pass_method this =? Element.pass_method o) then false
  else if d_ne (Element.length this) (Element.length o) then false
  else if d_ne (Element.hmin this) (Element.hmin o) then false
  else if d_ne (Element.hmax this) (Element.hmax o) then false
  else if d_ne (Element.vmin this) (Element.vmin o) then false
  else if d_ne (Element.vmax this) (Element.vmax o) then false
  else if negb (Element.nr_steps this =? Element.nr_steps o) then false
  else if (Element.pass_method this =? PassMethod.pm_drift_pass)
          || (Element.pass_method this =? PassMethod.pm_identity_pass) then true
  else if d_ne (Element.hkick this) (Element.hkick o) then false
  else if d_ne (Element.vkick this) (Element.vkick o) then false
  else if d_ne (Element.angle this) (Element.angle o) then false
  else if d_ne (Element.angle_in this) (Element.angle_in o) then false
  else if d_ne (Element.angle_out this) (Element.angle_out o) then false
  else if d_ne (Element.gap this) (Element.gap o) then false
  else if d_ne (Element.fint_in this) (Element.fint_in o) then false
  else if d_ne (Element.fint_out this) (Element.fint_out o) then false
  else if d_ne (Element.thin_KL this) (Element.thin_KL o) then false
  else if d_ne (Element.thin_SL this) (Element.thin_SL o) then false
  else if d_ne (Element.frequency this) (Element.frequency o) then false
  else if d_ne (Element.voltage this) (Element.voltage o) then false
  else if vector_ne (Element.polynom_a this) (Element.polynom_a o) then false
  else if vector_ne (Element.polynom_b this) (Element.polynom_b o) then false
  else if arrays_differ (vec6_list (Element.t_in this)) (vec6_list (Element.t_in o))
                        (vec6_list (Element.t_out this)) (vec6_list (Element.t_out o))
       then false
  else if arrays_differ (mat66_list (Element.r_in this)) (mat66_list (Element.r_in o))
                        (mat66_list (Element.r_out this)) (mat66_list (Element.r_out o))
       then false
  else match Element.kicktable this, Element.kicktable o with
       | Some _, None => false
       | None, Some _ => false
       | Some k1, Some k2 => if kicktable_ne k1 k2 then false else true
       | None, None => true
       end.

(** *** The initialisers and typed constructors *)

Definition initialize_marker (element : Element.t K) : Element.t K :=
  Element.with_pass_method PassMethod.pm_identity_pass element.

Definition initialize_corrector (element : Element.t K) (hkick vkick : double)
  : Element.t K :=
  Element.with_vkick vkick
    (Element.with_hkick hkick
       (Element.with_pass_method PassMethod.pm_corrector_pass element)).

Definition initialize_drift (element : Element.t K) : Element.t K :=
  Element.with_pass_method PassMethod.pm_drift_pass element.

(** [v[i] = x] on a [std::vector]: undefined outside the vector, [None]
    here. *)
Definition vector_store {A : Type} (v : list A) (i : nat) (x : A)
  : option (list A) :=
  if (i <? List.length v)%nat then Some (<[i := x]> v) else None.

Definition initialize_rbend (element : Element.t K)
    (angle angle_in angle_out gap fint_in fint_out : double)
    (polynom_a polynom_b : list double) (K_ S_ : double) (nr_steps : Z)
  : option (Element.t K) :=
  let element := Element.with_pass_method PassMethod.pm_bnd_mpole_symplectic4_pass element in
  let element := Element.with_angle angle element in
  let element := Element.with_angle_in angle_in element in
  let element := Element.with_angle_out angle_out element in
  let element := Element.with_gap gap element in
  let element := Element.with_fint_in fint_in element in
  let element := Element.with_fint_out fint_out element in
  let element := Element.with_polynom_a polynom_a element in
  let element := Element.with_polynom_b polynom_b element in
  match vector_store (Element.polynom_b element) 1 K_ with
  | None => None
  | Some pb1 =>
      match vector_store pb1 2 S_ with
      | None => None
      | Some pb2 =>
          Some (Element.with_nr_steps nr_steps (Element.with_polynom_b pb2 element))
      end
  end.

Definition initialize_quadrupole (element : Element.t K) (K_ : double) (nr_steps : Z)
  : option (Element.t K) :=
  let element := Element.with_pass_method PassMethod.pm_str_mpole_symplectic4_pass element in
  match vector_store (Element.polynom_b element) 1 K_ with
  | None => None
  | Some pb => Some (Element.with_nr_steps nr_steps (Element.with_polynom_b pb element))
  end.

Definition initialize_sextupole (element : Element.t K) (S_ : double) (nr_steps : Z)
  : option (Element.t K) :=
  let element := Element.with_pass_method PassMethod.pm_str_mpole_symplectic4_pass element in
  match vector_store (Element.polynom_b element) 2 S_ with
  | None => None
  | Some pb => Some (Element.with_nr_steps nr_steps (Element.with_polynom_b pb element))
  end.

Definition initialize_rfcavity (element : Element.t K) (frequency voltage : double)
  : Element.t K :=
  Element.with_voltage voltage
    (Element.with_frequency frequency
       (Element.with_pass_method PassMethod.pm_cavity_pass element)).

Definition Element_marker (fam_name_ : string) : Element.t K :=
  initialize_marker (Element_new fam_name_ d_zero).

Definition Element_drift (fam_name_ : string) (length_ : double) : Element.t K :=
  initialize_drift (Element_new fam_name_ length_).

Definition Element_corrector (fam_name_ : string) (length_ hkick_ vkick_ : double)
  : Element.t K :=
  initialize_corrector (Element_new fam_name_ length_) hkick_ vkick_.

(** [Element::rbend]; the defaults of the declaration are
    [angle_in_ = angle_out_ = gap_ = fint_in_ = fint_out_ = 0],
    [polynom_a_ = polynom_b_ = default_polynom], [K_ = S_ = 0] and
    [nr_steps_ = 20]. *)
Definition Element_rbend (fam_name_ : string) (length_ : double)
    (angle_ angle_in_ angle_out_ gap_ fint_in_ fint_out_ : double)
    (polynom_a_ polynom_b_ : list double) (K_ S_ : double) (nr_steps_ : Z)
  : option (Element.t K) :=
  initialize_rbend (Element_new fam_name_ length_)
    angle_ angle_in_ angle_out_ gap_ fint_in_ fint_out_
    polynom_a_ polynom_b_ K_ S_ nr_steps_.

Definition Element_quadrupole (fam_name_ : string) (length_ K_ : double) (nr_steps_ : Z)
  : option (Element.t K) :=
  initialize_quadrupole (Element_new fam_name_ length_) K_ nr_steps_.

Definition Element_sextupole (fam_name_ : string) (length_ S_ : double) (nr_steps_ : Z)
  : option (Element.t K) :=
  initialize_sextupole (Element_new fam_name_ length_) S_ nr_steps_.

Definition Element_rfcavity (fam_name_ : string) (length_ frequency_ voltage_ : double)
  : Element.t K :=
  initialize_rfcavity (Element_new fam_name_ length_) frequency_ voltage_.

End Elements.

(** ** The accelerator *)

(** Modelled from the spec: [accelerator.h] is not among the sources; the
    fields are those of the specification's Accelerator (the registry of
    kicktables is the sequence of the kicktables loaded so far). *)
Module Accelerator.
Record t (K : Type) : Type := mk {
  lattice : list (Element.t K);
  energy : double;
  harmonic_number : Z;
  cavity_on : bool;
  radiation_on : bool;
  vchamber_on : bool;
  kicktables : list K
}.
Arguments lattice {K} _.
Arguments energy {K} _.
Arguments harmonic_number {K} _.
Arguments cavity_on {K} _.
Arguments radiation_on {K} _.
Arguments vchamber_on {K} _.
Arguments kicktables {K} _.
Arguments mk {K} _ _ _ _ _ _ _.
End Accelerator.

(** ** The tracker (tracking.h) *)

(** The pass methods of [passmethods.h], which is not among the sources: a
    pass method maps the coordinates it receives by reference to a status
    and the coordinates it leaves behind. *)
Definition passmethod (K : Type) : Type :=
  Pos.t -> Element.t K -> Accelerator.t K -> Status.type * Pos.t.

Record passmethods (K : Type) : Type := PassMethods {
  pm_identity_pass : passmethod K;
  pm_drift_pass : passmethod K;
  pm_str_mpole_symplectic4_pass : passmethod K;
  pm_bnd_mpole_symplectic4_pass : passmethod K;
  pm_corrector_pass : passmethod K;
  pm_cavity_pass : passmethod K;
  pm_thinquad_pass : passmethod K;
  pm_thinsext_pass : passmethod K;
  pm_kicktable_pass : passmethod K
}.
Arguments pm_identity_pass {K} _.
Arguments pm_drift_pass {K} _.
Arguments pm_str_mpole_symplectic4_pass {K} _.
Arguments pm_bnd_mpole_symplectic4_pass {K} _.
Arguments pm_corrector_pass {K} _.
Arguments pm_cavity_pass {K} _.
Arguments pm_thinquad_pass {K} _.
Arguments pm_thinsext_pass {K} _.
Arguments pm_kicktable_pass {K} _.

(** What a loop body does: go on to the next iteration, return from the
    function with a status, or leave the defined behaviour of C++ (an access
    outside a vector). *)
Inductive flow (S : Type) : Type :=
| Next (st : S)
| Return (status : Status.type) (st : S)
| Undefined.
Arguments Next {S} _.
Arguments Return {S} _ _.
Arguments Undefined {S}.

(** The objects [track_linepass] receives by reference. *)
Module Line.
Record state : Type := mk {
  orig_pos : Pos.t;
  pos : list Pos.t;
  element_offset : nat;
  lost_plane : Plane.type
}.
End Line.

(** The objects [track_ringpass] receives by reference, and its local
    vector [final_pos]. *)
Module Ring.
Record state : Type := mk {
  orig_pos : Pos.t;
  pos : list Pos.t;
  lost_turn : nat;
  element_offset : nat;
  lost_plane : Plane.type;
  final_pos : list Pos.t
}.
End Ring.

Section Tracking.
Context {K : Type}.
Variable pm : passmethods K.

(** [track_elementpass]: every case returns the status of the pass method
    it calls, whether after the failure test or after [break]. *)
Definition track_elementpass (el : Element.t K) (orig_pos : Pos.t)
    (accelerator : Accelerator.t K) : Status.type * Pos.t :=
  let tag := Element.pass_method el in
  if tag =? PassMethod.pm_identity_pass then pm_identity_pass pm orig_pos el accelerator
  else if tag =? PassMethod.pm_drift_pass then pm_drift_pass pm orig_pos el accelerator
  else if tag =? PassMethod.pm_str_mpole_symplectic4_pass
    then pm_str_mpole_symplectic4_pass pm orig_pos el accelerator
  else if tag =? PassMethod.pm_bnd_mpole_symplectic4_pass
    then pm_bnd_mpole_symplectic4_pass pm orig_pos el accelerator
  else if tag =? PassMethod.pm_corrector_pass then pm_corrector_pass pm orig_pos el accelerator
  else if tag =? PassMethod.pm_cavity_pass then pm_cavity_pass pm orig_pos el accelerator
  else if tag =? PassMethod.pm_thinquad_pass then pm_thinquad_pass pm orig_pos el accelerator
  else if tag =? PassMethod.pm_thinsext_pass then pm_thinsext_pass pm orig_pos el accelerator
  else if tag =? PassMethod.pm_kicktable_pass then pm_kicktable_pass pm orig_pos el accelerator
  else (Status.passmethod_not_defined, orig_pos).

Variable accelerator : Accelerator.t K.
Variable trajectory : bool.

(** The particle-lost tests of [track_linepass]. *)
Definition lost_x (element : Element.t K) (p : Pos.t) : bool :=
  negb (isfinite (Pos.rx p))
  || (Accelerator.vchamber_on accelerator
      && (d_lt (Pos.rx p) (Element.hmin element)
          || d_gt (Pos.rx p) (Element.hmax element))).
Definition lost_y (element : Element.t K) (p : Pos.t) : bool :=
  negb (isfinite (Pos.ry p))
  || (Accelerator.vchamber_on accelerator
      && (d_lt (Pos.ry p) (Element.vmin element)
          || d_gt (Pos.ry p) (Element.vmax element))).

(** Iteration [i] of the tracking loop of [track_linepass]. *)
Definition linepass_body (i : nat) (st : Line.state) : flow Line.state :=
  let line := Accelerator.lattice accelerator in
  let nr_elements := List.length line in
  match line !! Line.element_offset st with
  | None => Undefined
  | Some element =>
      match (if trajectory
             then vector_store (Line.pos st) i (Line.orig_pos st)
             else Some (Line.pos st)) with
      | None => Undefined
      | Some pos1 =>
          let '(status, p) := track_elementpass element (Line.orig_pos st) accelerator in
          if lost_x element p then
            Return (if Status.eqb status Status.success
                    then Status.particle_lost else status)
                   (Line.mk p (pos1 ++ [nan_pos]) (Line.element_offset st) Plane.x)
          else if lost_y element p then
            Return (if Status.eqb status Status.success
                    then Status.particle_lost else status)
                   (Line.mk p (pos1 ++ [nan_pos]) (Line.element_offset st) Plane.y)
          else if negb (Status.eqb status Status.success) then
            Return status
                   (Line.mk p pos1 (Line.element_offset st) (Line.lost_plane st))
          else
            Next (Line.mk p pos1
                    ((Line.element_offset st + 1) mod nr_elements)%nat
                    (Line.lost_plane st))
      end
  end.

(** The iterations [i], [i+1], ..., [i+n-1] of that loop. *)
Fixpoint linepass_loop (n : nat) (i : nat) (st : Line.state) : flow Line.state :=
  match n with
  | O => Next st
  | S n' =>
      match linepass_body i st with
      | Next st' => linepass_loop n' (S i) st'
      | r => r
      end
  end.

(** The state in front of the tracking loop: with [trajectory], [pos] has
    received one NaN-filled record per element. *)
Definition linepass_start (st : Line.state) : Line.state :=
  let nr_elements := List.length (Accelerator.lattice accelerator) in
  Line.mk (Line.orig_pos st)
          (if trajectory
           then Line.pos st ++ replicate nr_elements nan_pos
           else Line.pos st)
          (Line.element_offset st) (Line.lost_plane st).

(** [track_linepass]; [None] when the behaviour is undefined. *)
Definition track_linepass (st : Line.state) : option (Status.type * Line.state) :=
  let nr_elements := List.length (Accelerator.lattice accelerator) in
  match linepass_loop nr_elements 0 (linepass_start st) with
  | Undefined => None
  | Return status st' => Some (status, st')
  | Next st' =>
      Some (Status.success,
            Line.mk (Line.orig_pos st') (Line.pos st' ++ [Line.orig_pos st'])
                    (Line.element_offset st') Plane.no_plane)
  end.

End Tracking.

Section RingTracking.
Context {K : Type}.
Variable pm : passmethods K.
Variable accelerator : Accelerator.t K.
Variable trajectory : bool.

(** One iteration of the loop over the turns of [track_ringpass]. *)
Definition ringpass_body (st : Ring.state) : flow Ring.state :=
  match track_linepass pm accelerator false
          (Line.mk (Ring.orig_pos st) (Ring.final_pos st)
                   (Ring.element_offset st) (Ring.lost_plane st)) with
  | None => Undefined
  | Some (status, ls) =>
      if negb (Status.eqb status Status.success) then
        Return status
          (Ring.mk (Line.orig_pos ls) (Ring.pos st) (Ring.lost_turn st)
                   (Line.element_offset ls) (Line.lost_plane ls) (Line.pos ls))
      else
        Next
          (Ring.mk (Line.orig_pos ls)
                   (if trajectory then Ring.pos st ++ [Line.orig_pos ls] else Ring.pos st)
                   (S (Ring.lost_turn st))
                   (Line.element_offset ls) (Line.lost_plane ls) (Line.pos ls))
  end.

(** [n] further turns. *)
Fixpoint ringpass_loop (n : nat) (st : Ring.state) : flow Ring.state :=
  match n with
  | O => Next st
  | S n' =>
      match ringpass_body st with
      | Next st' => ringpass_loop n' st'
      | r => r
      end
  end.

(** [track_ringpass]: the caller's [lost_turn] is overwritten by the loop
    initialisation, [final_pos] starts empty. *)
Definition track_ringpass (orig_pos : Pos.t) (pos : list Pos.t) (nr_turns : nat)
    (element_offset : nat) (lost_plane : Plane.type)
  : option (Status.type * Ring.state) :=
  match ringpass_loop nr_turns
          (Ring.mk orig_pos pos 0%nat element_offset lost_plane []) with
  | Undefined => None
  | Return status st => Some (status, st)
  | Next st =>
      Some (Status.success,
            Ring.mk (Ring.orig_pos st)
                    (if negb trajectory then Ring.pos st ++ [Ring.orig_pos st]
                     else Ring.pos st)
                    (Ring.lost_turn st) (Ring.element_offset st)
                    (Ring.lost_plane st) (Ring.final_pos st))
  end.

End RingTracking.

(** ** The walk along the line

    The coordinates met along the line when nothing stops the walk: the
    particle starts at [x0] in front of element [offset]; [coordinates k]
    is what it has become after [k] elements. *)

Section Walk.
Context {K : Type}.
Variable pm : passmethods K.
Variable accelerator : Accelerator.t K.
Variable x0 : Pos.t.
Variable offset : nat.

Definition element_at (k : nat) : option (Element.t K) :=
  Accelerator.lattice accelerator
    !! ((offset + k) mod List.length (Accelerator.lattice accelerator))%nat.

Fixpoint coordinates (k : nat) : Pos.t :=
  match k with
  | O => x0
  | S k' =>
      match element_at k' with
      | Some element => snd (track_elementpass pm element (coordinates k') accelerator)
      | None => coordinates k'
      end
  end.

(** The status of the pass method of the [k]-th element of the walk. *)
Definition pass_status (k : nat) : Status.type :=
  match element_at k with
  | Some element => fst (track_elementpass pm element (coordinates k) accelerator)
  | None => Status.success
  end.

(** The loss tests of [track_linepass] behind the [k]-th element. *)
Definition lost_x_at (k : nat) : bool :=
  match element_at k with
  | Some element => lost_x accelerator element (coordinates (S k))
  | None => false
  end.
Definition lost_y_at (k : nat) : bool :=
  match element_at k with
  | Some element => lost_y accelerator element (coordinates (S k))
  | None => false
  end.

(** The [k]-th element is passed without failure and without loss. *)
Definition clean_at (k : nat) : bool :=
  Status.eqb (pass_status k) Status.success
  && negb (lost_x_at k) && negb (lost_y_at k).

(** The state of [track_linepass], called with [trajectory] and an empty
    [pos], in front of iteration [i] of a walk that met no failure and no
    loss so far. *)
Definition walk_state (i : nat) (lp : Plane.type) : Line.state :=
  Line.mk (coordinates i)
          (map coordinates (seq 0 i)
           ++ replicate (List.length (Accelerator.lattice accelerator) - i) nan_pos)
          ((offset + i) mod List.length (Accelerator.lattice accelerator))%nat lp.

End Walk.

(** ** Pass methods for the examples

    Modelled from the spec: [passmethods.h] is not among the sources.  The
    identity pass makes no change and succeeds; the examples need no other
    pass method, and every other one is left unimplemented. *)

Definition identity_pass {K : Type} : passmethod K :=
  fun p _ _ => (Status.success, p).
Definition unimplemented_pass {K : Type} : passmethod K :=
  fun p _ _ => (Status.passmethod_not_implemented, p).
Definition example_passmethods : passmethods unit :=
  PassMethods unit identity_pass unimplemented_pass unimplemented_pass
    unimplemented_pass unimplemented_pass unimplemented_pass
    unimplemented_pass unimplemented_pass unimplemented_pass.

Definition example_accelerator (lattice : list (Element.t unit)) (vchamber_on : bool)
  : Accelerator.t unit :=
  Accelerator.mk lattice (double_of_Z 3000000000) 864 false false vchamber_on [].

(** A particle at horizontal position [rx] and vertical position [ry], the
    other coordinates being zero. *)
Definition example_pos (rx ry : Z) : Pos.t :=
  Pos.mk (double_of_Z rx) d_zero (double_of_Z ry) d_zero d_zero d_zero.

(** A marker of aperture [-1, 1] in both planes. *)
Definition example_marker (name : string) : Element.t unit :=
  Element.with_vmax (double_of_Z 1)
    (Element.with_vmin (double_of_Z (-1))
       (Element.with_hmax (double_of_Z 1)
          (Element.with_hmin (double_of_Z (-1)) (Element_marker name)))).


(** ** Flat files (flat_file.cpp)

    The text of a file is taken after lexing.  A line is the word its first
    extraction [ss >> cmd] yields (empty when the line holds no word),
    followed by the fields the later extractions meet, each typed by what an
    extraction turns it into: a word, or a numeral that converts to a double,
    to an [int] or to an [unsigned int].  A line also tells whether white
    space follows its last field, which decides when the stream reaches its
    end, and whether it is shorter than two characters.  That a double
    written with seventeen significant digits is read back as the same
    double is part of this representation: a finite double is written as,
    and read from, the field [TReal d]. *)

Inductive token : Type :=
| TWord (w : string)
| TReal (d : double)
| TInt (z : Z)
| TUInt (n : Z).

Record line : Type := TextLine {
  cmd : string;
  args : list token;
  tail_ws : bool;
  size_lt_2 : bool
}.

(** An [istringstream] over the fields of a line, with its state bits. *)
Record stream : Type := Stream {
  toks : list token;
  trailing : bool;
  failbit : bool;
  eofbit : bool
}.

Definition is_nil {A : Type} (l : list A) : bool :=
  match l with [] => true | _ => false end.

(** The stream behind [ss >> cmd]. *)
Definition open_stream (ln : line) : stream :=
  if String.eqb (cmd ln) ""
  then Stream (args ln) (tail_ws ln) true true
  else Stream (args ln) (tail_ws ln) false (is_nil (args ln) && negb (tail_ws ln)).

(** The stream after a field has been read: the end of the stream is
    reached when nothing, not even white space, follows the field. *)
Definition advance (ss : stream) (rest : list token) : stream :=
  Stream rest (trailing ss) (failbit ss) (is_nil rest && negb (trailing ss)).

Definition set_fail (ss : stream) : stream :=
  Stream (toks ss) (trailing ss) true (eofbit ss).

(** The sentry of a formatted extraction: it fails on a stream that is not
    good, and on one that holds nothing but white space, which it skips up
    to the end. *)
Definition sentry (ss : stream) : bool * stream :=
  if failbit ss || eofbit ss then (false, set_fail ss)
  else if is_nil (toks ss) then (false, Stream [] (trailing ss) true true)
  else (true, ss).

(** The text of a field read as a word; numerals are never read as words
    in the files considered, and are given the empty text. *)
Definition token_text (t : token) : string :=
  match t with TWord w => w | _ => "" end.

(** [ss >> s] for a string [s] holding [old]. *)
Definition extract_string (ss : stream) (old : string) : string * stream :=
  match sentry ss with
  | (false, ss') => (old, ss')
  | (true, _) =>
      match toks ss with
      | t :: rest => (token_text t, advance ss rest)
      | [] => (old, ss)
      end
  end.

(** [ss >> x] for a double [x] holding [old]; a field that does not convert
    stores zero and sets [failbit]. *)
Definition extract_double (ss : stream) (old : double) : double * stream :=
  match sentry ss with
  | (false, ss') => (old, ss')
  | (true, _) =>
      match toks ss with
      | TReal d :: rest => (d, advance ss rest)
      | _ => (d_zero, set_fail ss)
      end
  end.

Definition INT_MAX : Z := 2147483647.
Definition INT_MIN : Z := -2147483648.
Definition UINT_MAX : Z := 4294967295.

(** [ss >> n] for an [int]; a numeral out of range stores the nearest bound
    and sets [failbit]. *)
Definition extract_int (ss : stream) (old : Z) : Z * stream :=
  match sentry ss with
  | (false, ss') => (old, ss')
  | (true, _) =>
      match toks ss with
      | TInt z :: rest =>
          if z <? INT_MIN then (INT_MIN, set_fail (advance ss rest))
          else if INT_MAX <? z then (INT_MAX, set_fail (advance ss rest))
          else (z, advance ss rest)
      | _ => (0, set_fail ss)
      end
  end.

(** [ss >> n] for an [unsigned int]. *)
Definition extract_uint (ss : stream) (old : Z) : Z * stream :=
  match sentry ss with
  | (false, ss') => (old, ss')
  | (true, _) =>
      match toks ss with
      | TUInt n :: rest =>
          if n <? 0 then (0, set_fail ss)
          else if UINT_MAX <? n then (UINT_MAX, set_fail (advance ss rest))
          else (n, advance ss rest)
      | _ => (0, set_fail ss)
      end
  end.

(** [for (i = 0; i < 6; ++i) ss >> t[i]]. *)
Definition extract_vec6 (ss : stream) (v : vec6) : vec6 * stream :=
  let '(x0, ss) := extract_double ss (c0 v) in
  let '(x1, ss) := extract_double ss (c1 v) in
  let '(x2, ss) := extract_double ss (c2 v) in
  let '(x3, ss) := extract_double ss (c3 v) in
  let '(x4, ss) := extract_double ss (c4 v) in
  let '(x5, ss) := extract_double ss (c5 v) in
  (V6 x0 x1 x2 x3 x4 x5, ss).

Definition with_row0 (v : vec6) (m : mat66) : mat66 :=
  M66 v (row1 m) (row2 m) (row3 m) (row4 m) (row5 m).
Definition with_row1 (v : vec6) (m : mat66) : mat66 :=
  M66 (row0 m) v (row2 m) (row3 m) (row4 m) (row5 m).
Definition with_row2 (v : vec6) (m : mat66) : mat66 :=
  M66 (row0 m) (row1 m) v (row3 m) (row4 m) (row5 m).
Definition with_row3 (v : vec6) (m : mat66) : mat66 :=
  M66 (row0 m) (row1 m) (row2 m) v (row4 m) (row5 m).
Definition with_row4 (v : vec6) (m : mat66) : mat66 :=
  M66 (row0 m) (row1 m) (row2 m) (row3 m) v (row5 m).
Definition with_row5 (v : vec6) (m : mat66) : mat66 :=
  M66 (row0 m) (row1 m) (row2 m) (row3 m) (row4 m) v.

(** [read_boolean_string]. *)
Definition read_boolean_string (ss : stream) : bool :=
  let '(s, _) := extract_string ss "" in
  if String.eqb s "true" then true else false.

(** [get_boolean_string]. *)
Definition get_boolean_string (value : bool) : string :=
  if value then "true" else "false".

(** [synchronize_polynomials]. *)
Definition synchronize_polynomials {K : Type} (e : Element.t K) : Element.t K :=
  let size := if (List.length (Element.polynom_b e) <? List.length (Element.polynom_a e))%nat
              then List.length (Element.polynom_a e)
              else List.length (Element.polynom_b e) in
  Element.with_polynom_b (resize size d_zero (Element.polynom_b e))
    (Element.with_polynom_a (resize size d_zero (Element.polynom_a e)) e).


(** What the loop [while (not ss.eof())] over the pairs [order value] of a
    polynomial line leaves in [order], [multipole] and [size]; [None] when
    the loop does not come to an end.  A pair is kept when both extractions
    succeed before the end of the stream; once an extraction has failed
    without reaching the end, the stream stays as it is and the loop runs
    for ever.  Each turn that goes on has consumed two fields, so the
    [fuel] given by [read_polynom_line] is never used up. *)
Fixpoint read_pairs (fuel : nat) (ss : stream) (order : list Z)
    (multipole : list double) (size : Z)
  : option (list Z * list double * Z) :=
  if eofbit ss then Some (order, multipole, size)
  else
    match fuel with
    | O => None
    | S fuel' =>
        let '(o, ss1) := extract_uint ss 0 in
        let '(m, ss2) := extract_double ss1 d_zero in
        if eofbit ss2 then Some (order, multipole, size)
        else if failbit ss2 then None
        else
          let o1 := (o + 1) mod 4294967296 in
          read_pairs fuel' ss2 (order ++ [o]) (multipole ++ [m])
            (if size <? o1 then o1 else size)
    end.

(** [for (i = 0; i < order.size(); ++i) p[order[i]] = multipole[i]]. *)
Fixpoint store_pairs (p : list double) (order : list Z) (multipole : list double)
  : option (list double) :=
  match order, multipole with
  | o :: order', m :: multipole' =>
      match vector_store p (Z.to_nat o) m with
      | Some p' => store_pairs p' order' multipole'
      | None => None
      end
  | _, _ => Some p
  end.

(** What the reader of a flat file does with a line. *)
Inductive reading (S : Type) : Type :=
| Goes_on (st : S)
| Stops (status : Status.type) (st : S)
| Hangs
| Undefined_behaviour.
Arguments Goes_on {S} _.
Arguments Stops {S} _ _.
Arguments Hangs {S}.
Arguments Undefined_behaviour {S}.

(** The body of a polynomial line, on the polynomial [p] of the element. *)
Definition read_polynom_line (ss : stream) (p : list double)
  : reading (list double) :=
  match read_pairs (S (List.length (toks ss))) ss [] [] 0 with
  | None => Hangs
  | Some (order, multipole, size) =>
      if 0 <? size then
        match store_pairs (resize (Z.to_nat size) d_zero p) order multipole with
        | Some p' => Goes_on p'
        | None => Undefined_behaviour
        end
      else Goes_on p
  end.

(** The objects the loop of [read_flat_file_trackcpp] works on. *)
Module Reader.
Record state (K : Type) : Type := mk {
  accelerator : Accelerator.t K;
  e : Element.t K;
  found_hmin : bool;
  found_vmin : bool
}.
Arguments accelerator {K} _.
Arguments e {K} _.
Arguments found_hmin {K} _.
Arguments found_vmin {K} _.
Arguments mk {K} _ _ _ _.
End Reader.

Definition first_char_is (c : Ascii.ascii) (s : string) : bool :=
  match s with
  | String c' _ => Ascii.eqb c' c
  | EmptyString => false
  end.

Section FlatFileReader.
Context {K : Type}.

(** [add_kicktable] of [kicktable.h], which is not among the sources: from
    the file name, the registry and the pointer of the element it yields a
    status, the registry and the pointer it leaves. *)
Variable add_kicktable :
  string -> list K -> option K -> Status.type * list K * option K.

Definition with_e (f : Element.t K -> Element.t K) (st : Reader.state K)
  : Reader.state K :=
  Reader.mk (Reader.accelerator st) (f (Reader.e st))
            (Reader.found_hmin st) (Reader.found_vmin st).

Definition with_accelerator (f : Accelerator.t K -> Accelerator.t K)
    (st : Reader.state K) : Reader.state K :=
  Reader.mk (f (Reader.accelerator st)) (Reader.e st)
            (Reader.found_hmin st) (Reader.found_vmin st).

Definition with_lattice (l : list (Element.t K)) (a : Accelerator.t K)
  : Accelerator.t K :=
  Accelerator.mk l (Accelerator.energy a) (Accelerator.harmonic_number a)
    (Accelerator.cavity_on a) (Accelerator.radiation_on a)
    (Accelerator.vchamber_on a) (Accelerator.kicktables a).
Definition with_energy (v : double) (a : Accelerator.t K) : Accelerator.t K :=
  Accelerator.mk (Accelerator.lattice a) v (Accelerator.harmonic_number a)
    (Accelerator.cavity_on a) (Accelerator.radiation_on a)
    (Accelerator.vchamber_on a) (Accelerator.kicktables a).
Definition with_harmonic_number (v : Z) (a : Accelerator.t K) : Accelerator.t K :=
  Accelerator.mk (Accelerator.lattice a) (Accelerator.energy a) v
    (Accelerator.cavity_on a) (Accelerator.radiation_on a)
    (Accelerator.vchamber_on a) (Accelerator.kicktables a).
Definition with_cavity_on (v : bool) (a : Accelerator.t K) : Accelerator.t K :=
  Accelerator.mk (Accelerator.lattice a) (Accelerator.energy a)
    (Accelerator.harmonic_number a) v (Accelerator.radiation_on a)
    (Accelerator.vchamber_on a) (Accelerator.kicktables a).
Definition with_radiation_on (v : bool) (a : Accelerator.t K) : Accelerator.t K :=
  Accelerator.mk (Accelerator.lattice a) (Accelerator.energy a)
    (Accelerator.harmonic_number a) (Accelerator.cavity_on a) v
    (Accelerator.vchamber_on a) (Accelerator.kicktables a).
Definition with_vchamber_on (v : bool) (a : Accelerator.t K) : Accelerator.t K :=
  Accelerator.mk (Accelerator.lattice a) (Accelerator.energy a)
    (Accelerator.harmonic_number a) (Accelerator.cavity_on a)
    (Accelerator.radiation_on a) v (Accelerator.kicktables a).
Definition with_kicktables (v : list K) (a : Accelerator.t K) : Accelerator.t K :=
  Accelerator.mk (Accelerator.lattice a) (Accelerator.energy a)
    (Accelerator.harmonic_number a) (Accelerator.cavity_on a)
    (Accelerator.radiation_on a) (Accelerator.vchamber_on a) v.

(** A line [key value] that stores a double in the element. *)
Definition read_double_field (ss : stream)
    (get : Element.t K -> double)
    (set : double -> Element.t K -> Element.t K)
    (st : Reader.state K) : reading (Reader.state K) :=
  Goes_on (with_e (set (fst (extract_double ss (get (Reader.e st))))) st).

(** A line that stores six doubles in a translation vector or in a row of a
    rotation matrix. *)
Definition read_vec6_field (ss : stream)
    (get : Element.t K -> vec6)
    (set : vec6 -> Element.t K -> Element.t K)
    (st : Reader.state K) : reading (Reader.state K) :=
  Goes_on (with_e (set (fst (extract_vec6 ss (get (Reader.e st))))) st).

(** A header line, whose first word begins with [%]. *)
Definition read_header_line (ss : stream) (cmd0 : string) (st : Reader.state K)
  : Reader.state K :=
  let a := Reader.accelerator st in
  let '(cmd, ss) := extract_string ss cmd0 in
  if String.eqb cmd "energy" then
    with_accelerator (with_energy (fst (extract_double ss (Accelerator.energy a)))) st
  else if String.eqb cmd "harmonic_number" then
    with_accelerator
      (with_harmonic_number (fst (extract_int ss (Accelerator.harmonic_number a)))) st
  else if String.eqb cmd "cavity_on" then
    with_accelerator (with_cavity_on (read_boolean_string ss)) st
  else if String.eqb cmd "radiation_on" then
    with_accelerator (with_radiation_on (read_boolean_string ss)) st
  else if String.eqb cmd "vchamber_on" then
    with_accelerator (with_vchamber_on (read_boolean_string ss)) st
  else st.

(** The line [pass_method name]. *)
Definition read_pass_method_line (ss : stream) (st : Reader.state K)
  : reading (Reader.state K) :=
  let '(pass_method, _) := extract_string ss "" in
  let i := find_pass_method pm_dict 0 pass_method in
  if Z.of_nat i <? PassMethod.pm_nr_pms then
    let st := with_e (Element.with_pass_method (Z.of_nat i)) st in
    if String.eqb pass_method "kicktable_pass" then
      let '(status, kicktables, pointer) :=
        add_kicktable (Element.fam_name (Reader.e st) ++ ".txt")%string
          (Accelerator.kicktables (Reader.accelerator st))
          (Element.kicktable (Reader.e st)) in
      let st := with_accelerator (with_kicktables kicktables)
                  (with_e (Element.with_kicktable pointer) st) in
      if negb (Status.eqb status Status.success) then Stops status st
      else Goes_on st
    else Goes_on st
  else Stops Status.passmethod_not_defined st.

(** The body of the loop [while (std::getline(fp, line))]. *)
Definition read_line (st : Reader.state K) (ln : line) : reading (Reader.state K) :=
  let ss := open_stream ln in
  let cmd := cmd ln in
  let e := Reader.e st in
  if first_char_is "#"%char cmd then Goes_on st
  else if first_char_is "%"%char cmd then Goes_on (read_header_line ss cmd st)
  else if String.eqb cmd "fam_name" then
    let st :=
      if negb (String.eqb (Element.fam_name e) "") then
        Reader.mk
          (with_lattice (Accelerator.lattice (Reader.accelerator st) ++ [e])
                        (Reader.accelerator st))
          (Element_new "" d_zero) (Reader.found_hmin st) (Reader.found_vmin st)
      else st in
    Goes_on
      (with_e (Element.with_fam_name
                 (fst (extract_string ss (Element.fam_name (Reader.e st))))) st)
  else if String.eqb cmd "length" then
    read_double_field ss Element.length Element.with_length st
  else if String.eqb cmd "hmin" then
    Goes_on
      (Reader.mk (Reader.accelerator st)
         (Element.with_hmin (fst (extract_double ss (Element.hmin e))) e)
         true (Reader.found_vmin st))
  else if String.eqb cmd "hmax" then
    let e := Element.with_hmax (fst (extract_double ss (Element.hmax e))) e in
    let e := if negb (Reader.found_hmin st)
             then Element.with_hmin (d_neg (Element.hmax e)) e else e in
    Goes_on (Reader.mk (Reader.accelerator st) e false (Reader.found_vmin st))
  else if String.eqb cmd "vmin" then
    Goes_on
      (Reader.mk (Reader.accelerator st)
         (Element.with_vmin (fst (extract_double ss (Element.vmin e))) e)
         (Reader.found_hmin st) true)
  else if String.eqb cmd "vmax" then
    let e := Element.with_vmax (fst (extract_double ss (Element.vmax e))) e in
    let e := if negb (Reader.found_vmin st)
             then Element.with_vmin (d_neg (Element.vmax e)) e else e in
    Goes_on (Reader.mk (Reader.accelerator st) e (Reader.found_hmin st) false)
  else if String.eqb cmd "hkick" then
    read_double_field ss Element.hkick Element.with_hkick st
  else if String.eqb cmd "vkick" then
    read_double_field ss Element.vkick Element.with_vkick st
  else if String.eqb cmd "nr_steps" then
    Goes_on (with_e (Element.with_nr_steps
                       (fst (extract_int ss (Element.nr_steps e)))) st)
  else if String.eqb cmd "angle" then
    read_double_field ss Element.angle Element.with_angle st
  else if String.eqb cmd "gap" then
    read_double_field ss Element.gap Element.with_gap st
  else if String.eqb cmd "fint_in" then
    read_double_field ss Element.fint_in Element.with_fint_in st
  else if String.eqb cmd "fint_out" then
    read_double_field ss Element.fint_out Element.with_fint_out st
  else if String.eqb cmd "voltage" then
    read_double_field ss Element.voltage Element.with_voltage st
  else if String.eqb cmd "frequency" then
    read_double_field ss Element.frequency Element.with_frequency st
  else if String.eqb cmd "angle_in" then
    read_double_field ss Element.angle_in Element.with_angle_in st
  else if String.eqb cmd "angle_out" then
    read_double_field ss Element.angle_out Element.with_angle_out st
  else if String.eqb cmd "t_in" then
    read_vec6_field ss Element.t_in Element.with_t_in st
  else if String.eqb cmd "t_out" then
    read_vec6_field ss Element.t_out Element.with_t_out st
  else if String.eqb cmd "rx|r_in" then
    read_vec6_field ss (fun e => row0 (Element.r_in e))
      (fun v e => Element.with_r_in (with_row0 v (Element.r_in e)) e) st
  else if String.eqb cmd "px|r_in" then
    read_vec6_field ss (fun e => row1 (Element.r_in e))
      (fun v e => Element.with_r_in (with_row1 v (Element.r_in e)) e) st
  else if String.eqb cmd "ry|r_in" then
    read_vec6_field ss (fun e => row2 (Element.r_in e))
      (fun v e => Element.with_r_in (with_row2 v (Element.r_in e)) e) st
  else if String.eqb cmd "py|r_in" then
    read_vec6_field ss (fun e => row3 (Element.r_in e))
      (fun v e => Element.with_r_in (with_row3 v (Element.r_in e)) e) st
  else if String.eqb cmd "de|r_in" then
    read_vec6_field ss (fun e => row4 (Element.r_in e))
      (fun v e => Element.with_r_in (with_row4 v (Element.r_in e)) e) st
  else if String.eqb cmd "dl|r_in" then
    read_vec6_field ss (fun e => row5 (Element.r_in e))
      (fun v e => Element.with_r_in (with_row5 v (Element.r_in e)) e) st
  else if String.eqb cmd "rx|r_out" then
    read_vec6_field ss (fun e => row0 (Element.r_out e))
      (fun v e => Element.with_r_out (with_row0 v (Element.r_out e)) e) st
  else if String.eqb cmd "px|r_out" then
    read_vec6_field ss (fun e => row1 (Element.r_out e))
      (fun v e => Element.with_r_out (with_row1 v (Element.r_out e)) e) st
  else if String.eqb cmd "ry|r_out" then
    read_vec6_field ss (fun e => row2 (Element.r_out e))
      (fun v e => Element.with_r_out (with_row2 v (Element.r_out e)) e) st
  else if String.eqb cmd "py|r_out" then
    read_vec6_field ss (fun e => row3 (Element.r_out e))
      (fun v e => Element.with_r_out (with_row3 v (Element.r_out e)) e) st
  else if String.eqb cmd "de|r_out" then
    read_vec6_field ss (fun e => row4 (Element.r_out e))
      (fun v e => Element.with_r_out (with_row4 v (Element.r_out e)) e) st
  else if String.eqb cmd "dl|r_out" then
    read_vec6_field ss (fun e => row5 (Element.r_out e))
      (fun v e => Element.with_r_out (with_row5 v (Element.r_out e)) e) st
  else if String.eqb cmd "pass_method" then read_pass_method_line ss st
  else if String.eqb cmd "polynom_a" then
    match read_polynom_line ss (Element.polynom_a e) with
    | Goes_on p =>
        Goes_on (with_e (fun e => synchronize_polynomials (Element.with_polynom_a p e)) st)
    | Stops status _ => Stops status st
    | Hangs => Hangs
    | Undefined_behaviour => Undefined_behaviour
    end
  else if String.eqb cmd "polynom_b" then
    match read_polynom_line ss (Element.polynom_b e) with
    | Goes_on p =>
        Goes_on (with_e (fun e => synchronize_polynomials (Element.with_polynom_b p e)) st)
    | Stops status _ => Stops status st
    | Hangs => Hangs
    | Undefined_behaviour => Undefined_behaviour
    end
  else if size_lt_2 ln then Goes_on st
  else Stops Status.flat_file_error st.

(** The loop over the lines of the file. *)
Fixpoint read_lines (lines : list line) (st : Reader.state K)
  : reading (Reader.state K) :=
  match lines with
  | [] => Goes_on st
  | ln :: rest =>
      match read_line st ln with
      | Goes_on st' => read_lines rest st'
      | r => r
      end
  end.

(** The state in front of the first line: the lattice cleared, a fresh
    element, the two flags down. *)
Definition reader_start (accelerator : Accelerator.t K) : Reader.state K :=
  Reader.mk (with_lattice [] accelerator) (Element_new "" d_zero) false false.

(** [read_flat_file_trackcpp]: the file, when it can be opened, is the
    sequence of its lines; the function hands back its status and the
    accelerator it has written to. *)
Definition read_flat_file_trackcpp (file : option (list line))
    (accelerator : Accelerator.t K)
  : reading (Accelerator.t K) :=
  match file with
  | None => Stops Status.file_not_found accelerator
  | Some lines =>
      match read_lines lines (reader_start accelerator) with
      | Goes_on st =>
          let a := Reader.accelerator st in
          let e := Reader.e st in
          Stops Status.success
            (if negb (String.eqb (Element.fam_name e) "")
             then with_lattice (Accelerator.lattice a ++ [e]) a
             else a)
      | Stops status st => Stops status (Reader.accelerator st)
      | Hangs => Hangs
      | Undefined_behaviour => Undefined_behaviour
      end
  end.

(** [read_flat_file]. *)
Definition read_flat_file (file : option (list line)) (accelerator : Accelerator.t K)
  : reading (Accelerator.t K) :=
  read_flat_file_trackcpp file accelerator.

End FlatFileReader.

(** ** The writer of flat files *)

(** White space of the classic locale. *)
Definition is_space (c : ascii) : bool :=
  let n := nat_of_ascii c in
  (n =? 32)%nat || ((9 <=? n)%nat && (n <=? 13)%nat).

(** The words of a text, as successive string extractions meet them. *)
Fixpoint words_from (cur : string) (s : string) : list string :=
  match s with
  | EmptyString => if String.eqb cur "" then [] else [cur]
  | String c s' =>
      if is_space c
      then (if String.eqb cur "" then words_from "" s' else cur :: words_from "" s')
      else words_from (cur ++ String c "")%string s'
  end.
Definition words (s : string) : list string := words_from "" s.

(** Whether a text ends with white space (or is empty behind a padded
    label). *)
Fixpoint ends_with_space (s : string) : bool :=
  match s with
  | EmptyString => true
  | String c EmptyString => is_space c
  | String _ s' => ends_with_space s'
  end.

(** A text without white space. *)
Fixpoint no_space (s : string) : bool :=
  match s with
  | EmptyString => true
  | String c s' => negb (is_space c) && no_space s'
  end.

(** What [fp << x] leaves for a double: a numeral that reads back as [x]
    when [x] is finite, and otherwise a word that no extraction of a double
    converts (the sign the stream puts in front of it plays no role). *)
Definition double_token (x : double) : token :=
  match x with
  | S754_nan => TWord "NAN"
  | S754_infinity false => TWord "INF"
  | S754_infinity true => TWord "-INF"
  | _ => TReal x
  end.

(** [has_t_vector], [has_r_matrix], [has_polynom]. *)
Definition has_t_vector (t : vec6) : bool :=
  existsb (fun x => d_ne x d_zero) (vec6_list t).
Definition has_r_matrix (r : mat66) : bool :=
  existsb (fun xy => d_ne (fst xy) (snd xy))
          (combine (mat66_list r) (mat66_list mat66_id)).
Definition has_polynom (p : list double) : bool :=
  existsb (fun x => d_ne x d_zero) p.

(** [write_6d_vector]: the label and six numbers, each followed by two
    blanks. *)
Definition write_6d_vector (label : string) (t : vec6) : line :=
  TextLine label (map double_token (vec6_list t)) true false.

(** The pairs [i p[i]] that [write_polynom] emits, for the coefficients that
    differ from zero, [i] counting from [k]. *)
Fixpoint polynom_pairs (k : Z) (p : list double) : list (Z * double) :=
  match p with
  | [] => []
  | x :: p' =>
      if d_ne x d_zero then (k, x) :: polynom_pairs (k + 1) p'
      else polynom_pairs (k + 1) p'
  end.

(** [write_polynom]: each number is followed by a blank. *)
Definition write_polynom (label : string) (p : list double) : line :=
  TextLine label
       (flat_map (fun ix => [TUInt (fst ix); double_token (snd ix)])
                 (polynom_pairs 0 p))
       true false.

(** A line [key value] emitted when the value differs from zero. *)
Definition write_nonzero (key : string) (x : double) : list line :=
  if d_ne x d_zero then [TextLine key [double_token x] false false] else [].

Definition write_rows (suffix : string) (r : mat66) : list line :=
  [ write_6d_vector ("rx" ++ suffix)%string (row0 r);
    write_6d_vector ("px" ++ suffix)%string (row1 r);
    write_6d_vector ("ry" ++ suffix)%string (row2 r);
    write_6d_vector ("py" ++ suffix)%string (row3 r);
    write_6d_vector ("de" ++ suffix)%string (row4 r);
    write_6d_vector ("dl" ++ suffix)%string (row5 r) ].

(** [pm_dict[i]] for an [int] index; [None] outside the table. *)
Definition pm_dict_at (i : Z) : option string :=
  if i <? 0 then None else pm_dict !! Z.to_nat i.

(** The lines the loop of [write_flat_file] emits for element number [i];
    [None] when [pm_dict] is read outside its bounds. *)
Definition write_element {K : Type} (i : nat) (e : Element.t K) : option (list line) :=
  match pm_dict_at (Element.pass_method e) with
  | None => None
  | Some name =>
      Some
        ([ TextLine "###" [TInt (Z.of_nat i); TWord "###"] false false;
           TextLine "fam_name" (map TWord (words (Element.fam_name e)))
                (ends_with_space (Element.fam_name e)) false;
           TextLine "length" [double_token (Element.length e)] false false;
           TextLine "pass_method" [TWord name] false false ]
         ++ (if negb (Element.nr_steps e =? 1)
             then [TextLine "nr_steps" [TInt (Element.nr_steps e)] false false] else [])
         ++ (if has_polynom (Element.polynom_a e)
             then [write_polynom "polynom_a" (Element.polynom_a e)] else [])
         ++ (if has_polynom (Element.polynom_b e)
             then [write_polynom "polynom_b" (Element.polynom_b e)] else [])
         ++ write_nonzero "hmin" (Element.hmin e)
         ++ write_nonzero "hmax" (Element.hmax e)
         ++ write_nonzero "vmin" (Element.vmin e)
         ++ write_nonzero "vmax" (Element.vmax e)
         ++ write_nonzero "hkick" (Element.hkick e)
         ++ write_nonzero "vkick" (Element.vkick e)
         ++ write_nonzero "angle" (Element.angle e)
         ++ write_nonzero "gap" (Element.gap e)
         ++ write_nonzero "fint_in" (Element.fint_in e)
         ++ write_nonzero "fint_out" (Element.fint_out e)
         ++ write_nonzero "voltage" (Element.voltage e)
         ++ write_nonzero "frequency" (Element.frequency e)
         ++ write_nonzero "angle_in" (Element.angle_in e)
         ++ write_nonzero "angle_out" (Element.angle_out e)
         ++ (if has_t_vector (Element.t_in e)
             then [write_6d_vector "t_in" (Element.t_in e)] else [])
         ++ (if has_t_vector (Element.t_out e)
             then [write_6d_vector "t_out" (Element.t_out e)] else [])
         ++ (if has_r_matrix (Element.r_in e)
             then write_rows "|r_in" (Element.r_in e) else [])
         ++ (if has_r_matrix (Element.r_out e)
             then write_rows "|r_out" (Element.r_out e) else [])
         ++ [TextLine "" [] false true])
  end.

(** The loop over the lattice, from element number [i] on. *)
Fixpoint write_elements {K : Type} (i : nat) (lattice : list (Element.t K))
  : option (list line) :=
  match lattice with
  | [] => Some []
  | e :: rest =>
      match write_element i e, write_elements (S i) rest with
      | Some l, Some ls => Some (l ++ ls)
      | _, _ => None
      end
  end.

Definition write_header {K : Type} (accelerator : Accelerator.t K) : list line :=
  [ TextLine "%" [TWord "energy"; double_token (Accelerator.energy accelerator); TWord "eV"]
         false false;
    TextLine "%" [TWord "harmonic_number"; TInt (Accelerator.harmonic_number accelerator)]
         false false;
    TextLine "%" [TWord "cavity_on";
              TWord (get_boolean_string (Accelerator.cavity_on accelerator))] false false;
    TextLine "%" [TWord "radiation_on";
              TWord (get_boolean_string (Accelerator.radiation_on accelerator))] false false;
    TextLine "%" [TWord "vchamber_on";
              TWord (get_boolean_string (Accelerator.vchamber_on accelerator))] false false;
    TextLine "" [] false true ].

(** [write_flat_file]: [opened] tells whether the file could be opened; the
    result is the status and the lines written, [None] when the behaviour is
    undefined. *)
Definition write_flat_file {K : Type} (opened : bool) (accelerator : Accelerator.t K)
  : option (Status.type * list line) :=
  if negb opened then Some (Status.file_not_found, [])
  else
    match write_elements 0 (Accelerator.lattice accelerator) with
    | None => None
    | Some ls => Some (Status.success, write_header accelerator ++ ls)
    end.

(** ** Equality of accelerators, as the round trip of flat files needs it

    Modelled from the spec: the same energy, harmonic number and switches,
    and lattices of the same length whose elements are equal, one by one,
    under [Element::operator==] (on distinct objects). *)

Section AcceleratorEquality.
Context {K : Type}.
Variable kicktable_ne : K -> K -> bool.

Fixpoint lattice_eq (l1 l2 : list (Element.t K)) : bool :=
  match l1, l2 with
  | [], [] => true
  | e1 :: l1', e2 :: l2' =>
      Element_operator_eq kicktable_ne false e1 e2 && lattice_eq l1' l2'
  | _, _ => false
  end.

Definition accelerator_eq (a b : Accelerator.t K) : bool :=
  d_eq (Accelerator.energy a) (Accelerator.energy b)
  && (Accelerator.harmonic_number a =? Accelerator.harmonic_number b)
  && Bool.eqb (Accelerator.cavity_on a) (Accelerator.cavity_on b)
  && Bool.eqb (Accelerator.radiation_on a) (Accelerator.radiation_on b)
  && Bool.eqb (Accelerator.vchamber_on a) (Accelerator.vchamber_on b)
  && lattice_eq (Accelerator.lattice a) (Accelerator.lattice b).

End AcceleratorEquality.

(** ** What a flat file keeps of an accelerator *)

(** A coefficient as it comes back from a file: itself when it differs from
    zero, and otherwise the zero the reader starts from. *)
Definition read_back (x : double) : double :=
  if d_ne x d_zero then x else d_zero.

(** The number of coefficients up to the last one that differs from zero. *)
Fixpoint polynom_order (p : list double) : nat :=
  match p with
  | [] => O
  | x :: p' =>
      match polynom_order p' with
      | O => if d_ne x d_zero then 1%nat else O
      | S n => S (S n)
      end
  end.

(** The common length the reader gives to the two polynomials. *)
Definition polynom_length (a b : list double) : nat :=
  Nat.max 3 (Nat.max (polynom_order a) (polynom_order b)).

(** The element the reader rebuilds from the lines that [write_element]
    emits for an element [e] that a flat file keeps ([storable] below). *)
Definition element_read_back {K : Type} (e : Element.t K) : Element.t K :=
  Element.mk (Element.fam_name e) (Element.pass_method e) (Element.length e)
    (Element.nr_steps e)
    (Element.hmin e) (Element.hmax e) (Element.vmin e) (Element.vmax e)
    (read_back (Element.hkick e)) (read_back (Element.vkick e))
    (read_back (Element.angle e)) (read_back (Element.angle_in e))
    (read_back (Element.angle_out e)) (read_back (Element.gap e))
    (read_back (Element.fint_in e)) (read_back (Element.fint_out e))
    d_zero d_zero
    (read_back (Element.frequency e)) (read_back (Element.voltage e))
    (resize (polynom_length (Element.polynom_a e) (Element.polynom_b e)) d_zero
            (map read_back (Element.polynom_a e)))
    (resize (polynom_length (Element.polynom_a e) (Element.polynom_b e)) d_zero
            (map read_back (Element.polynom_b e)))
    None
    (if has_t_vector (Element.t_in e) then Element.t_in e else vec6_zero)
    (if has_t_vector (Element.t_out e) then Element.t_out e else vec6_zero)
    (if has_r_matrix (Element.r_in e) then Element.r_in e else mat66_id)
    (if has_r_matrix (Element.r_out e) then Element.r_out e else mat66_id).

(** A family name that is one word. *)
Definition word_name (s : string) : bool :=
  negb (String.eqb s "") && no_space s.

Definition in_int_range (z : Z) : bool := (INT_MIN <=? z) && (z <=? INT_MAX).

Definition finite_vec6 (v : vec6) : bool := forallb isfinite (vec6_list v).
Definition finite_mat66 (m : mat66) : bool := forallb isfinite (mat66_list m).

Definition is_drift_or_identity {K : Type} (e : Element.t K) : bool :=
  (Element.pass_method e =? PassMethod.pm_drift_pass)
  || (Element.pass_method e =? PassMethod.pm_identity_pass).

(** The elements a flat file keeps: the family name is one word; the pass
    method is one of the table, the kicktable pass apart; every number is
    finite and fits its C++ type; no aperture bound is zero; and, unless the
    element has the drift pass or the identity pass, it has no thin
    strength, no kicktable, and two polynomials of the length the reader
    gives them. *)
Definition storable {K : Type} (e : Element.t K) : bool :=
  word_name (Element.fam_name e)
  && (0 <=? Element.pass_method e)
  && (Element.pass_method e <? PassMethod.pm_kicktable_pass)
  && in_int_range (Element.nr_steps e)
  && isfinite (Element.length e)
  && isfinite (Element.hmin e) && d_ne (Element.hmin e) d_zero
  && isfinite (Element.hmax e) && d_ne (Element.hmax e) d_zero
  && isfinite (Element.vmin e) && d_ne (Element.vmin e) d_zero
  && isfinite (Element.vmax e) && d_ne (Element.vmax e) d_zero
  && isfinite (Element.hkick e) && isfinite (Element.vkick e)
  && isfinite (Element.angle e) && isfinite (Element.angle_in e)
  && isfinite (Element.angle_out e) && isfinite (Element.gap e)
  && isfinite (Element.fint_in e) && isfinite (Element.fint_out e)
  && isfinite (Element.frequency e) && isfinite (Element.voltage e)
  && forallb isfinite (Element.polynom_a e)
  && forallb isfinite (Element.polynom_b e)
  && (Z.of_nat (List.length (Element.polynom_a e)) <=? INT_MAX)
  && (Z.of_nat (List.length (Element.polynom_b e)) <=? INT_MAX)
  && finite_vec6 (Element.t_in e) && finite_vec6 (Element.t_out e)
  && finite_mat66 (Element.r_in e) && finite_mat66 (Element.r_out e)
  && (is_drift_or_identity e
      || (d_eq (Element.thin_KL e) d_zero
          && d_eq (Element.thin_SL e) d_zero
          && match Element.kicktable e with None => true | Some _ => false end
          && (List.length (Element.polynom_a e)
              =? polynom_length (Element.polynom_a e) (Element.polynom_b e))%nat
          && (List.length (Element.polynom_b e)
              =? polynom_length (Element.polynom_a e) (Element.polynom_b e))%nat)).

(** The accelerators a flat file keeps. *)
Definition storable_accelerator {K : Type} (a : Accelerator.t K) : bool :=
  isfinite (Accelerator.energy a)
  && in_int_range (Accelerator.harmonic_number a)
  && forallb storable (Accelerator.lattice a).

(** The two fields of a pair [order value] on a polynomial line, and the
    size the reader keeps while it meets the pairs. *)
Definition pair_tokens (ix : Z * double) : list token :=
  [TUInt (fst ix); double_token (snd ix)].

Definition grow_size (size : Z) (ix : Z * double) : Z :=
  if size <? (fst ix + 1) mod 4294967296 then (fst ix + 1) mod 4294967296 else size.

(** The accelerator once the element under construction is committed, as
    the reader does at a line [fam_name] and at the end of the file: an
    element without a name is not committed. *)
Definition committed {K : Type} (st : Reader.state K) : Accelerator.t K :=
  if negb (String.eqb (Element.fam_name (Reader.e st)) "")
  then with_lattice (Accelerator.lattice (Reader.accelerator st) ++ [Reader.e st])
                    (Reader.accelerator st)
  else Reader.accelerator st.

(** Two doubles that [!=] does not tell apart. *)
Definition same_double (x y : double) : Prop := d_ne x y = false.





(** ** Files for the examples *)

(** A kicktable loader that finds no file. *)
Definition no_kicktable
  : string -> list unit -> option unit -> Status.type * list unit * option unit :=
  fun _ kicktables pointer => (Status.file_not_found, kicktables, pointer).

(** Two elements: the first gives [hmin] alone, the second [hmax] alone. *)
Definition example_hmin_hmax_file : list line :=
  [ TextLine "fam_name" [TWord "A"] false false;
    TextLine "hmin" [TReal (double_of_Z (-1))] false false;
    TextLine "fam_name" [TWord "B"] false false;
    TextLine "hmax" [TReal (double_of_Z 2)] false false ].

(** A quadrupole with a corrector strength, a misalignment and a rotation,
    and an accelerator that a flat file keeps. *)
Definition example_quadrupole : Element.t unit :=
  Element.with_r_in
    (M66 (V6 d_zero d_one d_zero d_zero d_zero d_zero)
         (V6 d_one d_zero d_zero d_zero d_zero d_zero)
         (V6 d_zero d_zero d_one d_zero d_zero d_zero)
         (V6 d_zero d_zero d_zero d_one d_zero d_zero)
         (V6 d_zero d_zero d_zero d_zero d_one d_zero)
         (V6 d_zero d_zero d_zero d_zero d_zero d_one))
    (Element.with_t_in (V6 d_one d_zero d_zero d_zero d_zero d_zero)
       (Element.with_hkick (double_of_Z 3)
          (Element.with_polynom_b [d_zero; double_of_Z 2; d_zero]
             (Element.with_nr_steps 10
                (Element.with_pass_method PassMethod.pm_str_mpole_symplectic4_pass
                   (Element_new "qf" d_one)))))).

Definition example_ring : Accelerator.t unit :=
  example_accelerator [example_marker "start"; example_quadrupole;
                       Element_drift "d1" (double_of_Z 2)] true.


(** ** The walk around the ring

    [track_ringpass] walks the line once per turn, each turn from the
    coordinates and the offset the turn before has left: after [t] clean
    turns of a lattice of [N] elements the particle is at
    [coordinates (t * N)]. *)

Section Turns.
Context {K : Type}.
Variable pm : passmethods K.
Variable accelerator : Accelerator.t K.
Variable x0 : Pos.t.
Variable offset : nat.

(** The coordinates at the end of each of the first [n] turns. *)
Definition turn_records (n : nat) : list Pos.t :=
  map (fun t => coordinates pm accelerator x0 offset
                  (S t * List.length (Accelerator.lattice accelerator)))
      (seq 0 n).

(** The status with which [track_linepass] returns behind the [k]-th
    element of the walk, when that element is not passed cleanly. *)
Definition walk_verdict (k : nat) : Status.type :=
  if lost_x_at pm accelerator x0 offset k || lost_y_at pm accelerator x0 offset k
  then (if Status.eqb (pass_status pm accelerator x0 offset k) Status.success
        then Status.particle_lost
        else pass_status pm accelerator x0 offset k)
  else pass_status pm accelerator x0 offset k.

(** The plane it reports there, [lp] being the plane reported before. *)
Definition walk_plane (k : nat) (lp : Plane.type) : Plane.type :=
  if lost_x_at pm accelerator x0 offset k then Plane.x
  else if lost_y_at pm accelerator x0 offset k then Plane.y
  else lp.

End Turns.

(** ** Further functions of elements.cpp *)

(** [Element::get_pass_method]: [pm_dict[pass_method]], read outside the
    table when the tag is not one of the table. *)
Definition Element_get_pass_method {K : Type} (e : Element.t K) : option string :=
  pm_dict_at (Element.pass_method e).




(** ** Further definitions for flat files *)

(** The keys under which [read_flat_file_trackcpp] reads a parameter of an
    element, in the order in which it compares them with the first word of
    a line. *)
Definition element_keys : list string :=
  [ "fam_name"; "length"; "hmin"; "hmax"; "vmin"; "vmax"; "hkick"; "vkick";
    "nr_steps"; "angle"; "gap"; "fint_in"; "fint_out"; "voltage"; "frequency";
    "angle_in"; "angle_out"; "t_in"; "t_out";
    "rx|r_in"; "px|r_in"; "ry|r_in"; "py|r_in"; "de|r_in"; "dl|r_in";
    "rx|r_out"; "px|r_out"; "ry|r_out"; "py|r_out"; "de|r_out"; "dl|r_out";
    "pass_method"; "polynom_a"; "polynom_b" ].

(** A first word that is neither a comment, nor a header, nor a key. *)
Definition unknown_key (cmd : string) : bool :=
  negb (first_char_is "#"%char cmd) && negb (first_char_is "%"%char cmd)
  && negb (existsb (String.eqb cmd) element_keys).

(** A line the reader passes over without a look at its fields: a comment,
    or a line of fewer than two characters that begins with no key. *)
Definition passed_over (ln : line) : bool :=
  first_char_is "#"%char (cmd ln) || (unknown_key (cmd ln) && size_lt_2 ln).


(** ** The other typed constructors of elements.cpp *)

Section MoreElements.
Context {K : Type}.

(** [Element::bpm], [Element::hcorrector] and [Element::vcorrector]. *)
Definition Element_bpm (fam_name_ : string) : Element.t K :=
  initialize_marker (Element_new fam_name_ d_zero).

Definition Element_hcorrector (fam_name_ : string) (length_ hkick_ : double)
  : Element.t K :=
  initialize_corrector (Element_new fam_name_ length_) hkick_ d_zero.

Definition Element_vcorrector (fam_name_ : string) (length_ vkick_ : double)
  : Element.t K :=
  initialize_corrector (Element_new fam_name_ length_) d_zero vkick_.

(** An element as a typed constructor returns it, from a name of one word,
    finite numbers and a number of steps that an [int] holds; the bending
    magnet with the default polynomials of its declaration. *)
Inductive constructed : Element.t K -> Prop :=
| constructed_marker (name : string) :
    word_name name = true -> constructed (Element_marker name)
| constructed_bpm (name : string) :
    word_name name = true -> constructed (Element_bpm name)
| constructed_drift (name : string) (length_ : double) :
    word_name name = true -> isfinite length_ = true ->
    constructed (Element_drift name length_)
| constructed_hcorrector (name : string) (length_ hkick_ : double) :
    word_name name = true -> isfinite length_ = true -> isfinite hkick_ = true ->
    constructed (Element_hcorrector name length_ hkick_)
| constructed_vcorrector (name : string) (length_ vkick_ : double) :
    word_name name = true -> isfinite length_ = true -> isfinite vkick_ = true ->
    constructed (Element_vcorrector name length_ vkick_)
| constructed_corrector (name : string) (length_ hkick_ vkick_ : double) :
    word_name name = true -> isfinite length_ = true ->
    isfinite hkick_ = true -> isfinite vkick_ = true ->
    constructed (Element_corrector name length_ hkick_ vkick_)
| constructed_quadrupole (name : string) (length_ K_ : double) (nr_steps_ : Z)
    (e : Element.t K) :
    word_name name = true -> isfinite length_ = true -> isfinite K_ = true ->
    in_int_range nr_steps_ = true ->
    Element_quadrupole name length_ K_ nr_steps_ = Some e -> constructed e
| constructed_sextupole (name : string) (length_ S_ : double) (nr_steps_ : Z)
    (e : Element.t K) :
    word_name name = true -> isfinite length_ = true -> isfinite S_ = true ->
    in_int_range nr_steps_ = true ->
    Element_sextupole name length_ S_ nr_steps_ = Some e -> constructed e
| constructed_rbend (name : string)
    (length_ angle_ angle_in_ angle_out_ gap_ fint_in_ fint_out_ K_ S_ : double)
    (nr_steps_ : Z) (e : Element.t K) :
    word_name name = true -> isfinite length_ = true -> isfinite angle_ = true ->
    isfinite angle_in_ = true -> isfinite angle_out_ = true -> isfinite gap_ = true ->
    isfinite fint_in_ = true -> isfinite fint_out_ = true ->
    isfinite K_ = true -> isfinite S_ = true -> in_int_range nr_steps_ = true ->
    Element_rbend name length_ angle_ angle_in_ angle_out_ gap_ fint_in_ fint_out_
      default_polynom default_polynom K_ S_ nr_steps_ = Some e ->
    constructed e
| constructed_rfcavity (name : string) (length_ frequency_ voltage_ : double) :
    word_name name = true -> isfinite length_ = true ->
    isfinite frequency_ = true -> isfinite voltage_ = true ->
    constructed (Element_rfcavity name length_ frequency_ voltage_).

End MoreElements.

(** A lattice of three constructed elements. *)
Definition example_constructed_ring : Accelerator.t unit :=
  example_accelerator
    [Element_bpm "bpm"; Element_hcorrector "ch" d_one (double_of_Z 2);
     Element_rfcavity "cav" d_zero (double_of_Z 500000000) (double_of_Z 3000000)] false.


(** ** The polynomials of a Tracy flat file

    [read_polynomials], the helper of [read_flat_file_tracy], extracts from
    the stream of the file itself; the stream is modelled as the stream of
    the fields of a line is. *)


(** The local [order], the stream and the two polynomials of the element,
    as the loop of [read_polynomials] changes them. *)
Module Monomials.
Record state : Type := mk {
  order : option Z;
  fp : stream;
  polynom_a : list double;
  polynom_b : list double
}.
End Monomials.





(** * Properties of the tracker *)

Lemma Status_eqb_eq (a b : Status.type) : Status.eqb a b = true <-> a = b.
Proof. split; [destruct a, b; simpl; congruence | intros ->; destruct b; reflexivity]. Qed.

Lemma Status_eqb_neq (a b : Status.type) : Status.eqb a b = false <-> a <> b.
Proof.
  rewrite <- Status_eqb_eq. destruct (Status.eqb a b); split; congruence.
Qed.

Section LinePass.
Context {K : Type}.
Variable pm : passmethods K.
Variable accelerator : Accelerator.t K.
Variable trajectory : bool.

Lemma linepass_loop_return (n i : nat) (st st' : Line.state) (s : Status.type) :
  linepass_body pm accelerator trajectory i st = Return s st' ->
  linepass_loop pm accelerator trajectory (S n) i st = Return s st'.
Proof. intros H. simpl. rewrite H. reflexivity. Qed.

Lemma linepass_loop_next (n i : nat) (st st' : Line.state) :
  linepass_body pm accelerator trajectory i st = Next st' ->
  linepass_loop pm accelerator trajectory (S n) i st
  = linepass_loop pm accelerator trajectory n (S i) st'.
Proof. intros H. simpl. rewrite H. reflexivity. Qed.

(** The body, once the element is found and the entrance is stored. *)
Lemma linepass_body_eq (i : nat) (st : Line.state) (element : Element.t K)
    (pos1 : list Pos.t) (status : Status.type) (p : Pos.t) :
  Accelerator.lattice accelerator !! Line.element_offset st = Some element ->
  (if trajectory then vector_store (Line.pos st) i (Line.orig_pos st)
   else Some (Line.pos st)) = Some pos1 ->
  track_elementpass pm element (Line.orig_pos st) accelerator = (status, p) ->
  linepass_body pm accelerator trajectory i st =
    if lost_x accelerator element p then
      Return (if Status.eqb status Status.success then Status.particle_lost else status)
             (Line.mk p (pos1 ++ [nan_pos]) (Line.element_offset st) Plane.x)
    else if lost_y accelerator element p then
      Return (if Status.eqb status Status.success then Status.particle_lost else status)
             (Line.mk p (pos1 ++ [nan_pos]) (Line.element_offset st) Plane.y)
    else if negb (Status.eqb status Status.success) then
      Return status (Line.mk p pos1 (Line.element_offset st) (Line.lost_plane st))
    else
      Next (Line.mk p pos1
              ((Line.element_offset st + 1)
                 mod List.length (Accelerator.lattice accelerator))%nat
              (Line.lost_plane st)).
Proof.
  intros Hel Hpos Hpass. unfold linepass_body.
  rewrite Hel, Hpos, Hpass. reflexivity.
Qed.

Lemma linepass_loop_app (n m i : nat) (st : Line.state) :
  linepass_loop pm accelerator trajectory (n + m) i st =
    match linepass_loop pm accelerator trajectory n i st with
    | Next st' => linepass_loop pm accelerator trajectory m (i + n) st'
    | r => r
    end.
Proof.
  revert i st. induction n as [|n IH]; intros i st; simpl.
  - rewrite Nat.add_0_r. reflexivity.
  - destruct (linepass_body pm accelerator trajectory i st); try reflexivity.
    rewrite IH. replace (S i + n)%nat with (i + S n)%nat by lia. reflexivity.
Qed.

(** The state in which [track_linepass] enters its tracking loop. *)
Lemma track_linepass_return (st st_i st' : Line.state) (i : nat) (s : Status.type) :
  (i < List.length (Accelerator.lattice accelerator))%nat ->
  linepass_loop pm accelerator trajectory i 0 (linepass_start accelerator trajectory st)
  = Next st_i ->
  linepass_body pm accelerator trajectory i st_i = Return s st' ->
  track_linepass pm accelerator trajectory st = Some (s, st').
Proof.
  intros Hi Hloop Hbody. unfold track_linepass. fold (linepass_start accelerator trajectory st).
  replace (List.length (Accelerator.lattice accelerator))
    with (i + S (List.length (Accelerator.lattice accelerator) - S i))%nat at 1 by lia.
  rewrite linepass_loop_app, Hloop.
  rewrite (linepass_loop_return _ _ _ _ _ Hbody). reflexivity.
Qed.

End LinePass.

(** C1 (amended).  With the vacuum chamber on, at every iteration [i] that
    the loop of [track_linepass] reaches: if, behind the pass method of the
    element, [rx] is not finite or lies below [hmin] or above [hmax],
    [track_linepass] appends a NaN-filled coordinate, sets [lost_plane] to
    the horizontal plane and returns [particle_lost] when the pass method
    succeeded, and the status of the pass method otherwise; if [rx] passes
    its test and [ry] fails the same test against [vmin] and [vmax], it does
    the same with the vertical plane.  The horizontal test comes first,
    whatever [ry] is. *)
Theorem linepass_aperture_loss {K : Type} (pm : passmethods K)
    (accelerator : Accelerator.t K) (trajectory : bool) (i : nat)
    (st st_i : Line.state) (element : Element.t K) (pos1 : list Pos.t)
    (status : Status.type) (p : Pos.t) :
  Accelerator.vchamber_on accelerator = true ->
  (i < List.length (Accelerator.lattice accelerator))%nat ->
  linepass_loop pm accelerator trajectory i 0 (linepass_start accelerator trajectory st)
  = Next st_i ->
  Accelerator.lattice accelerator !! Line.element_offset st_i = Some element ->
  (if trajectory then vector_store (Line.pos st_i) i (Line.orig_pos st_i)
   else Some (Line.pos st_i)) = Some pos1 ->
  track_elementpass pm element (Line.orig_pos st_i) accelerator = (status, p) ->
  let verdict :=
    if Status.eqb status Status.success then Status.particle_lost else status in
  let out_x := isfinite (Pos.rx p) = false
               \/ d_lt (Pos.rx p) (Element.hmin element) = true
               \/ d_gt (Pos.rx p) (Element.hmax element) = true in
  let out_y := isfinite (Pos.ry p) = false
               \/ d_lt (Pos.ry p) (Element.vmin element) = true
               \/ d_gt (Pos.ry p) (Element.vmax element) = true in
  (out_x ->
   track_linepass pm accelerator trajectory st
   = Some (verdict,
           Line.mk p (pos1 ++ [nan_pos]) (Line.element_offset st_i) Plane.x))
  /\ (~ out_x -> out_y ->
      track_linepass pm accelerator trajectory st
      = Some (verdict,
              Line.mk p (pos1 ++ [nan_pos]) (Line.element_offset st_i) Plane.y)).
Proof.
  intros Hv Hi Hloop Hel Hpos Hpass verdict out_x out_y.
  assert (Hx : lost_x accelerator element p = true <-> out_x).
  { unfold lost_x, out_x. rewrite Hv. simpl.
    destruct (isfinite (Pos.rx p)), (d_lt (Pos.rx p) (Element.hmin element)),
      (d_gt (Pos.rx p) (Element.hmax element)); simpl; intuition congruence. }
  assert (Hy : lost_y accelerator element p = true <-> out_y).
  { unfold lost_y, out_y. rewrite Hv. simpl.
    destruct (isfinite (Pos.ry p)), (d_lt (Pos.ry p) (Element.vmin element)),
      (d_gt (Pos.ry p) (Element.vmax element)); simpl; intuition congruence. }
  pose proof (linepass_body_eq pm accelerator trajectory i st_i element pos1 status p
                Hel Hpos Hpass) as Hbody.
  split.
  - intros Hout. apply (track_linepass_return pm accelerator trajectory st st_i _ i _ Hi Hloop).
    apply Hx in Hout. rewrite Hout in Hbody. exact Hbody.
  - intros Hin Hout. apply (track_linepass_return pm accelerator trajectory st st_i _ i _ Hi Hloop).
    destruct (lost_x accelerator element p) eqn:Ex.
    + exfalso. apply Hin, Hx. reflexivity.
    + apply Hy in Hout. rewrite Hout in Hbody. exact Hbody.
Qed.

Lemma linepass_aperture_loss_witness :
  track_linepass example_passmethods
    (example_accelerator [example_marker "a"; example_marker "b"] true) false
    (Line.mk (example_pos 0 2) [] 0%nat Plane.no_plane)
  = Some (Status.particle_lost,
          Line.mk (example_pos 0 2) [nan_pos] 0%nat Plane.y).
Proof.
  destruct (linepass_aperture_loss example_passmethods
              (example_accelerator [example_marker "a"; example_marker "b"] true)
              false 0
              (Line.mk (example_pos 0 2) [] 0%nat Plane.no_plane)
              (Line.mk (example_pos 0 2) [] 0%nat Plane.no_plane)
              (example_marker "a") [] Status.success (example_pos 0 2)
              eq_refl ltac:(simpl; lia) eq_refl eq_refl eq_refl eq_refl) as [_ Hy].
  apply Hy.
  - intros [H | [H | H]]; discriminate H.
  - right. right. reflexivity.
Defined.

(** C1 as stated fails: an element whose tag [track_elementpass] does not
    know fails its pass and leaves the particle outside the horizontal
    aperture; [track_linepass] appends the NaN-filled record and reports the
    horizontal plane, but it returns [passmethod_not_defined], not
    [particle_lost]. *)
Lemma linepass_aperture_loss_counterexample :
  Accelerator.vchamber_on
    (example_accelerator [Element.with_pass_method 99 (example_marker "m")] true) = true
  /\ track_elementpass example_passmethods
       (Element.with_pass_method 99 (example_marker "m")) (example_pos 2 0)
       (example_accelerator [Element.with_pass_method 99 (example_marker "m")] true)
     = (Status.passmethod_not_defined, example_pos 2 0)
  /\ d_gt (Pos.rx (example_pos 2 0))
          (Element.hmax (Element.with_pass_method 99 (example_marker "m"))) = true
  /\ track_linepass example_passmethods
       (example_accelerator [Element.with_pass_method 99 (example_marker "m")] true)
       false (Line.mk (example_pos 2 0) [] 0%nat Plane.no_plane)
     = Some (Status.passmethod_not_defined,
             Line.mk (example_pos 2 0) [nan_pos] 0%nat Plane.x)
  /\ Status.passmethod_not_defined <> Status.particle_lost.
Proof. repeat split. discriminate. Qed.

(** ** The recorded trajectory *)

Section Trajectory.
Context {K : Type}.
Variable pm : passmethods K.
Variable accelerator : Accelerator.t K.
Variable x0 : Pos.t.
Variable offset : nat.

Local Abbreviation N := (List.length (Accelerator.lattice accelerator)).
Local Abbreviation coords := (coordinates pm accelerator x0 offset).
Local Abbreviation wstate := (walk_state pm accelerator x0 offset).

Lemma element_at_Some (i : nat) :
  (i < N)%nat -> exists element, element_at accelerator offset i = Some element.
Proof.
  intros Hi. unfold element_at.
  apply lookup_lt_is_Some_2. apply Nat.mod_upper_bound. lia.
Qed.

Lemma walk_state_store (i : nat) :
  (i < N)%nat ->
  vector_store (map coords (seq 0 i) ++ replicate (N - i) nan_pos) i (coords i)
  = Some (map coords (seq 0 (S i)) ++ replicate (N - S i) nan_pos).
Proof.
  intros Hi. unfold vector_store.
  assert (Hlen : List.length (map coords (seq 0 i)) = i)
    by (rewrite length_map, length_seq; reflexivity).
  rewrite length_app, Hlen, length_replicate.
  replace (i <? i + (N - i))%nat with true by (symmetry; apply Nat.ltb_lt; lia).
  f_equal.
  replace (N - i)%nat with (S (N - S i)) by lia.
  rewrite insert_app_r_alt by lia.
  rewrite Hlen, Nat.sub_diag.
  rewrite seq_S, map_app, <- app_assoc. reflexivity.
Qed.

(** Iteration [i] on the state of the walk. *)
Lemma linepass_body_walk (i : nat) (lp : Plane.type) (element : Element.t K) :
  (i < N)%nat ->
  element_at accelerator offset i = Some element ->
  linepass_body pm accelerator true i (wstate i lp) =
    let status := pass_status pm accelerator x0 offset i in
    let verdict :=
      if Status.eqb status Status.success then Status.particle_lost else status in
    let pos1 := map coords (seq 0 (S i)) ++ replicate (N - S i) nan_pos in
    if lost_x_at pm accelerator x0 offset i then
      Return verdict
        (Line.mk (coords (S i)) (pos1 ++ [nan_pos]) ((offset + i) mod N)%nat Plane.x)
    else if lost_y_at pm accelerator x0 offset i then
      Return verdict
        (Line.mk (coords (S i)) (pos1 ++ [nan_pos]) ((offset + i) mod N)%nat Plane.y)
    else if negb (Status.eqb status Status.success) then
      Return status (Line.mk (coords (S i)) pos1 ((offset + i) mod N)%nat lp)
    else Next (wstate (S i) lp).
Proof.
  intros Hi Hel.
  rewrite (linepass_body_eq pm accelerator true i (wstate i lp) element
             (map coords (seq 0 (S i)) ++ replicate (N - S i) nan_pos)
             (pass_status pm accelerator x0 offset i) (coords (S i))).
  - unfold lost_x_at, lost_y_at. rewrite Hel. simpl.
    unfold walk_state.
    replace (((offset + i) mod N + 1) mod N)%nat with ((offset + S i) mod N)%nat.
    + reflexivity.
    + rewrite Nat.Div0.add_mod_idemp_l. f_equal. lia.
  - exact Hel.
  - simpl. apply walk_state_store. exact Hi.
  - simpl. unfold pass_status. simpl. rewrite Hel.
    destruct (track_elementpass pm element (coordinates pm accelerator x0 offset i)
                accelerator); reflexivity.
Qed.

Lemma clean_at_true (k : nat) :
  clean_at pm accelerator x0 offset k = true ->
  pass_status pm accelerator x0 offset k = Status.success
  /\ lost_x_at pm accelerator x0 offset k = false
  /\ lost_y_at pm accelerator x0 offset k = false.
Proof.
  unfold clean_at. rewrite !andb_true_iff, !negb_true_iff, Status_eqb_eq. tauto.
Qed.

(** A stretch of [n] elements without failure and without loss. *)
Lemma linepass_loop_walk (n i : nat) (lp : Plane.type) :
  (i + n <= N)%nat ->
  (forall k, (i <= k < i + n)%nat -> clean_at pm accelerator x0 offset k = true) ->
  linepass_loop pm accelerator true n i (wstate i lp)
  = Next (wstate (i + n) lp).
Proof.
  revert i. induction n as [|n IH]; intros i Hle Hclean.
  - simpl. rewrite Nat.add_0_r. reflexivity.
  - destruct (element_at_Some i) as [element Hel]; [lia|].
    destruct (clean_at_true i) as (Hs & Hx & Hy); [apply Hclean; lia|].
    rewrite (linepass_loop_next pm accelerator true n i _ (wstate (S i) lp)).
    + rewrite IH; [f_equal; f_equal; lia | lia | intros k Hk; apply Hclean; lia].
    + rewrite (linepass_body_walk i lp element) by (lia || assumption).
      simpl. rewrite Hx, Hy, Hs. reflexivity.
Qed.

Lemma walk_state_0 (lp : Plane.type) :
  (offset < N \/ N = 0)%nat ->
  wstate 0 lp = Line.mk x0 ([] ++ replicate N nan_pos) offset lp.
Proof.
  intros Hoff. unfold walk_state. simpl.
  rewrite Nat.sub_0_r, Nat.add_0_r. f_equal.
  destruct Hoff as [Hlt | H0].
  - apply Nat.mod_small. exact Hlt.
  - rewrite H0. reflexivity.
Qed.

Lemma walk_state_N (lp : Plane.type) :
  (offset < N \/ N = 0)%nat ->
  wstate N lp = Line.mk (coords N) (map coords (seq 0 N)) offset lp.
Proof.
  intros Hoff. unfold walk_state.
  rewrite Nat.sub_diag, app_nil_r. f_equal.
  destruct Hoff as [Hlt | H0].
  - replace (offset + N)%nat with (offset + 1 * N)%nat by lia.
    rewrite Nat.Div0.mod_add. apply Nat.mod_small. exact Hlt.
  - rewrite H0. simpl. lia.
Qed.

(** A walk without failure and without loss. *)
Lemma track_linepass_clean (lp : Plane.type) :
  (offset < N \/ N = 0)%nat ->
  (forall k, (k < N)%nat -> clean_at pm accelerator x0 offset k = true) ->
  track_linepass pm accelerator true (Line.mk x0 [] offset lp)
  = Some (Status.success,
          Line.mk (coords N) (map coords (seq 0 (S N))) offset Plane.no_plane).
Proof.
  intros Hoff Hclean. unfold track_linepass, linepass_start.
  cbn [Line.pos Line.orig_pos Line.element_offset Line.lost_plane].
  rewrite <- (walk_state_0 lp Hoff).
  rewrite (linepass_loop_walk N 0 lp) by (simpl; first [lia | intros k Hk; apply Hclean; lia]).
  simpl Nat.add. rewrite (walk_state_N lp Hoff).
  rewrite seq_S, map_app. reflexivity.
Qed.

(** A walk that is clean up to element [i], behind which a loss test fires. *)
Lemma track_linepass_lost (lp : Plane.type) (i : nat) :
  (offset < N \/ N = 0)%nat ->
  (i < N)%nat ->
  (forall k, (k < i)%nat -> clean_at pm accelerator x0 offset k = true) ->
  lost_x_at pm accelerator x0 offset i || lost_y_at pm accelerator x0 offset i = true ->
  track_linepass pm accelerator true (Line.mk x0 [] offset lp)
  = Some (if Status.eqb (pass_status pm accelerator x0 offset i) Status.success
          then Status.particle_lost else pass_status pm accelerator x0 offset i,
          Line.mk (coords (S i))
                  (map coords (seq 0 (S i)) ++ replicate (N - i) nan_pos)
                  ((offset + i) mod N)%nat
                  (if lost_x_at pm accelerator x0 offset i then Plane.x else Plane.y)).
Proof.
  intros Hoff Hi Hclean Hlost. unfold track_linepass, linepass_start.
  cbn [Line.pos Line.orig_pos Line.element_offset Line.lost_plane].
  rewrite <- (walk_state_0 lp Hoff).
  replace N with (i + S (N - S i))%nat at 1 by lia.
  rewrite (linepass_loop_app pm accelerator true).
  rewrite (linepass_loop_walk i 0 lp) by (simpl; first [lia | intros k Hk; apply Hclean; lia]).
  simpl Nat.add.
  destruct (element_at_Some i Hi) as [element Hel].
  assert (Hpos : map coords (seq 0 (S i)) ++ replicate (N - i) nan_pos
                 = (map coords (seq 0 (S i)) ++ replicate (N - S i) nan_pos) ++ [nan_pos]).
  { replace (N - i)%nat with (S (N - S i)) by lia.
    rewrite replicate_S_end, app_assoc. reflexivity. }
  rewrite Hpos.
  rewrite (linepass_loop_return pm accelerator true (N - S i) i (wstate i lp)
             (Line.mk (coords (S i))
                ((map coords (seq 0 (S i)) ++ replicate (N - S i) nan_pos) ++ [nan_pos])
                ((offset + i) mod N)%nat
                (if lost_x_at pm accelerator x0 offset i then Plane.x else Plane.y))
             (if Status.eqb (pass_status pm accelerator x0 offset i) Status.success
              then Status.particle_lost else pass_status pm accelerator x0 offset i)).
  - reflexivity.
  - rewrite (linepass_body_walk i lp element Hi Hel). simpl.
    destruct (lost_x_at pm accelerator x0 offset i); [reflexivity|].
    simpl in Hlost. rewrite Hlost. reflexivity.
Qed.

End Trajectory.

(** C2 (amended).  Called with [trajectory] and an empty [pos], on a lattice
    of [N] elements and from an offset inside it, [track_linepass] stores at
    index [k] the coordinates in front of the [k]-th element it traverses.
    Without failure and without loss it returns [success] and a sequence of
    [N + 1] records, the [N] entrances and the coordinates behind the last
    element.  When the walk is clean up to element [i] and a loss test fires
    behind element [i], the sequence holds the entrances of elements [0] to
    [i] followed by [N - i] NaN-filled records: its length is [N + 1]
    again, and its last record is NaN-filled. *)
Theorem linepass_trajectory {K : Type} (pm : passmethods K)
    (accelerator : Accelerator.t K) (x0 : Pos.t) (offset : nat) (lp : Plane.type) :
  let N := List.length (Accelerator.lattice accelerator) in
  let coords := coordinates pm accelerator x0 offset in
  (offset < N \/ N = 0)%nat ->
  ((forall k, (k < N)%nat -> clean_at pm accelerator x0 offset k = true) ->
   exists st,
     track_linepass pm accelerator true (Line.mk x0 [] offset lp)
     = Some (Status.success, st)
     /\ Line.pos st = map coords (seq 0 (S N))
     /\ List.length (Line.pos st) = S N)
  /\ (forall i, (i < N)%nat ->
      (forall k, (k < i)%nat -> clean_at pm accelerator x0 offset k = true) ->
      lost_x_at pm accelerator x0 offset i || lost_y_at pm accelerator x0 offset i = true ->
      exists status st,
        track_linepass pm accelerator true (Line.mk x0 [] offset lp) = Some (status, st)
        /\ Line.pos st = map coords (seq 0 (S i)) ++ replicate (N - i) nan_pos
        /\ List.length (Line.pos st) = S N
        /\ last (Line.pos st) = Some nan_pos).
Proof.
  intros N coords Hoff. split.
  - intros Hclean. eexists. split; [apply track_linepass_clean; assumption|].
    cbn [Line.pos]. split; [reflexivity|]. rewrite length_map, length_seq. reflexivity.
  - intros i Hi Hclean Hlost. eexists _, _.
    split; [apply track_linepass_lost; eassumption|].
    cbn [Line.pos]. split; [reflexivity|]. split.
    + rewrite length_app, length_map, length_seq, length_replicate. fold N. lia.
    + fold N. replace (N - i)%nat with (S (N - S i)) by lia.
      rewrite replicate_S_end, app_assoc. apply last_snoc.
Qed.

Lemma linepass_trajectory_witness :
  (exists st,
     track_linepass example_passmethods
       (example_accelerator [example_marker "a"; example_marker "b"] true) true
       (Line.mk (example_pos 0 0) [] 1%nat Plane.no_plane) = Some (Status.success, st)
     /\ List.length (Line.pos st) = 3%nat)
  /\ (exists status st,
        track_linepass example_passmethods
          (example_accelerator [example_marker "a"; example_marker "b"] true) true
          (Line.mk (example_pos 2 0) [] 0%nat Plane.no_plane) = Some (status, st)
        /\ List.length (Line.pos st) = 3%nat
        /\ last (Line.pos st) = Some nan_pos).
Proof.
  split.
  - destruct (linepass_trajectory example_passmethods
                (example_accelerator [example_marker "a"; example_marker "b"] true)
                (example_pos 0 0) 1%nat Plane.no_plane) as [Hclean _].
    + left. simpl. lia.
    + destruct Hclean as (st & Hrun & _ & Hlen).
      * intros k Hk. simpl in Hk.
        destruct k as [|[|k]]; [reflexivity | reflexivity | lia].
      * exists st. auto.
  - destruct (linepass_trajectory example_passmethods
                (example_accelerator [example_marker "a"; example_marker "b"] true)
                (example_pos 2 0) 0%nat Plane.no_plane) as [_ Hlost].
    + left. simpl. lia.
    + destruct (Hlost 0%nat) as (status & st & Hrun & _ & Hlen & Hlast).
      * simpl. lia.
      * intros k Hk. lia.
      * reflexivity.
      * exists status, st. auto.
Defined.

(** C2 as stated fails: on two markers, a particle outside the aperture is
    lost behind element [0], and the recorded sequence has three records,
    not at most one. *)
Lemma linepass_trajectory_counterexample :
  track_linepass example_passmethods
    (example_accelerator [example_marker "a"; example_marker "b"] true) true
    (Line.mk (example_pos 2 0) [] 0%nat Plane.no_plane)
  = Some (Status.particle_lost,
          Line.mk (example_pos 2 0) [example_pos 2 0; nan_pos; nan_pos]
                  0%nat Plane.x)
  /\ ~ (List.length [example_pos 2 0; nan_pos; nan_pos] <= 0 + 1)%nat.
Proof. split; [reflexivity | simpl; lia]. Qed.


(** ** The caller's records *)

Section CallerRecords.
Context {K : Type}.
Variable pm : passmethods K.
Variable accelerator : Accelerator.t K.

Local Abbreviation N := (List.length (Accelerator.lattice accelerator)).

(** From iteration [1] on, the loop with [trajectory] leaves index [0] of
    [pos] alone, and it stays inside the vectors. *)
Lemma linepass_loop_keeps_index_0 (n i : nat) (st : Line.state) :
  (1 <= i)%nat ->
  (Line.element_offset st < N)%nat ->
  (i + n <= List.length (Line.pos st))%nat ->
  match linepass_loop pm accelerator true n i st with
  | Next st' | Return _ st' => Line.pos st' !! 0%nat = Line.pos st !! 0%nat
  | Undefined => False
  end.
Proof.
  revert i st. induction n as [|n IH]; intros i st Hi Hoff Hlen; [reflexivity|].
  destruct (lookup_lt_is_Some_2 _ _ Hoff) as [element Hel].
  assert (Hstore : vector_store (Line.pos st) i (Line.orig_pos st)
                   = Some (<[i := Line.orig_pos st]> (Line.pos st))).
  { unfold vector_store.
    replace (i <? List.length (Line.pos st))%nat with true
      by (symmetry; apply Nat.ltb_lt; lia).
    reflexivity. }
  assert (H0 : <[i := Line.orig_pos st]> (Line.pos st) !! 0%nat = Line.pos st !! 0%nat)
    by (apply list_lookup_insert_ne; lia).
  assert (H1 : forall q, (<[i := Line.orig_pos st]> (Line.pos st) ++ [q]) !! 0%nat
                         = Line.pos st !! 0%nat).
  { intros q. rewrite lookup_app_l by (rewrite length_insert; lia). exact H0. }
  destruct (track_elementpass pm element (Line.orig_pos st) accelerator)
    as [status p] eqn:Hpass.
  simpl. rewrite (linepass_body_eq pm accelerator true i st element _ status p Hel Hstore Hpass).
  destruct (lost_x accelerator element p); [apply H1|].
  destruct (lost_y accelerator element p); [apply H1|].
  destruct (negb (Status.eqb status Status.success)); [exact H0|].
  specialize (IH (S i)
    (Line.mk p (<[i := Line.orig_pos st]> (Line.pos st))
             ((Line.element_offset st + 1) mod N)%nat (Line.lost_plane st))).
  cbn [Line.pos Line.element_offset] in IH.
  rewrite length_insert in IH.
  assert (HN : (N <> 0)%nat) by lia.
  specialize (IH ltac:(lia) ltac:(apply Nat.mod_upper_bound; exact HN) ltac:(lia)).
  destruct (linepass_loop pm accelerator true n (S i) _); try exact IH;
    rewrite IH; exact H0.
Qed.

(** Without [trajectory] the loop only ever appends one NaN-filled record. *)
Lemma linepass_loop_appends (n i : nat) (st : Line.state) :
  match linepass_loop pm accelerator false n i st with
  | Next st' => Line.pos st' = Line.pos st
  | Return _ st' =>
      Line.pos st' = Line.pos st \/ Line.pos st' = Line.pos st ++ [nan_pos]
  | Undefined => True
  end.
Proof.
  revert i st. induction n as [|n IH]; intros i st; [reflexivity|].
  simpl. unfold linepass_body.
  destruct (Accelerator.lattice accelerator !! Line.element_offset st)
    as [element|]; [|exact I].
  destruct (track_elementpass pm element (Line.orig_pos st) accelerator)
    as [status p].
  destruct (lost_x accelerator element p); [right; reflexivity|].
  destruct (lost_y accelerator element p); [right; reflexivity|].
  destruct (negb (Status.eqb status Status.success)); [left; reflexivity|].
  exact (IH (S i)
           (Line.mk p (Line.pos st) ((Line.element_offset st + 1) mod N)%nat
                    (Line.lost_plane st))).
Qed.

End CallerRecords.

(** C3, what the code does instead.  Called with [trajectory] on a vector
    [pos] that already holds records, on a lattice that is not empty and
    from an offset inside it, [track_linepass] returns, and index [0] of
    [pos] then holds the coordinates the particle had on entry: the first
    record of the caller is overwritten, the code writing the entrance of
    iteration [i] to [pos[i]] and not behind the records already there. *)
Theorem linepass_overwrites_first_record {K : Type} (pm : passmethods K)
    (accelerator : Accelerator.t K) (x0 p0 : Pos.t) (rest : list Pos.t)
    (offset : nat) (lp : Plane.type) :
  (offset < List.length (Accelerator.lattice accelerator))%nat ->
  exists status st,
    track_linepass pm accelerator true (Line.mk x0 (p0 :: rest) offset lp)
    = Some (status, st)
    /\ Line.pos st !! 0%nat = Some x0.
Proof.
  intros Hoff. unfold track_linepass, linepass_start.
  cbn [Line.pos Line.orig_pos Line.element_offset Line.lost_plane].
  destruct (List.length (Accelerator.lattice accelerator)) as [|n] eqn:HN; [lia|].
  destruct (lookup_lt_is_Some_2 (Accelerator.lattice accelerator) offset) as [element Hel];
    [lia|].
  set (pos0 := (p0 :: rest) ++ replicate (S n) nan_pos).
  destruct (track_elementpass pm element x0 accelerator) as [status p] eqn:Hpass.
  simpl linepass_loop.
  rewrite (linepass_body_eq pm accelerator true 0 (Line.mk x0 pos0 offset lp) element
             (<[0%nat := x0]> pos0) status p Hel eq_refl Hpass).
  destruct (lost_x accelerator element p); [eexists _, _; split; reflexivity|].
  destruct (lost_y accelerator element p); [eexists _, _; split; reflexivity|].
  destruct (negb (Status.eqb status Status.success)); [eexists _, _; split; reflexivity|].
  cbn [Line.element_offset Line.lost_plane].
  pose proof (linepass_loop_keeps_index_0 pm accelerator n 1
                (Line.mk p (<[0%nat := x0]> pos0)
                   ((offset + 1) mod List.length (Accelerator.lattice accelerator))%nat lp))
    as Hkeep.
  cbn [Line.pos Line.element_offset] in Hkeep.
  specialize (Hkeep ltac:(lia)
                ltac:(apply Nat.mod_upper_bound; lia)
                ltac:(unfold pos0; rewrite length_insert, length_app, length_replicate;
                      simpl; lia)).
  destruct (linepass_loop pm accelerator true n 1 _) as [st'|s st'|];
    [| |contradiction].
  - eexists _, _. split; [reflexivity|].
    cbn [Line.pos]. rewrite lookup_app_l.
    + rewrite Hkeep. reflexivity.
    + apply lookup_lt_is_Some_1. rewrite Hkeep. eexists. reflexivity.
  - eexists _, _. split; [reflexivity|]. rewrite Hkeep. reflexivity.
Qed.

Lemma linepass_overwrites_first_record_witness :
  exists status st,
    track_linepass example_passmethods (example_accelerator [example_marker "m"] false)
      true (Line.mk (example_pos 0 0) [example_pos 5 5] 0%nat Plane.no_plane)
    = Some (status, st)
    /\ Line.pos st !! 0%nat = Some (example_pos 0 0).
Proof.
  apply (linepass_overwrites_first_record example_passmethods
           (example_accelerator [example_marker "m"] false)
           (example_pos 0 0) (example_pos 5 5) [] 0%nat Plane.no_plane).
  simpl. lia.
Defined.

(** The same at a concrete input: the record the caller had stored is gone
    when [track_linepass] returns. *)
Example linepass_overwrites_example :
  track_linepass example_passmethods (example_accelerator [example_marker "m"] false)
    true (Line.mk (example_pos 0 0) [example_pos 5 5] 0%nat Plane.no_plane)
  = Some (Status.success,
          Line.mk (example_pos 0 0) [example_pos 0 0; nan_pos; example_pos 0 0]
                  0%nat Plane.no_plane).
Proof. reflexivity. Qed.

(** Without [trajectory] the records of the caller stay where they are, and
    at most one record is appended behind them. *)
Lemma track_linepass_appends {K : Type} (pm : passmethods K)
    (accelerator : Accelerator.t K) (st st' : Line.state) (status : Status.type) :
  track_linepass pm accelerator false st = Some (status, st') ->
  exists q, Line.pos st' = Line.pos st ++ q /\ (List.length q <= 1)%nat.
Proof.
  unfold track_linepass, linepass_start.
  pose proof (linepass_loop_appends pm accelerator
                (List.length (Accelerator.lattice accelerator)) 0
                (Line.mk (Line.orig_pos st) (Line.pos st) (Line.element_offset st)
                         (Line.lost_plane st))) as H.
  destruct (linepass_loop pm accelerator false _ 0 _) as [s1|s s1|];
    intros Heq; inversion Heq; subst; cbn [Line.pos] in *.
  - exists [Line.orig_pos s1]. rewrite H. split; [reflexivity | simpl; lia].
  - destruct H as [H | H]; rewrite H.
    + exists []. rewrite app_nil_r. split; [reflexivity | simpl; lia].
    + exists [nan_pos]. split; [reflexivity | simpl; lia].
Qed.

(** ** Failures of pass methods *)

Section RingPass.
Context {K : Type}.
Variable pm : passmethods K.
Variable accelerator : Accelerator.t K.
Variable trajectory : bool.

Lemma ringpass_loop_app (n m : nat) (st : Ring.state) :
  ringpass_loop pm accelerator trajectory (n + m) st =
    match ringpass_loop pm accelerator trajectory n st with
    | Next st' => ringpass_loop pm accelerator trajectory m st'
    | r => r
    end.
Proof.
  revert st. induction n as [|n IH]; intros st; simpl; [reflexivity|].
  destruct (ringpass_body pm accelerator trajectory st); try reflexivity.
  apply IH.
Qed.


Lemma ringpass_body_failure (st : Ring.state) (status : Status.type) (ls : Line.state) :
  track_linepass pm accelerator false
    (Line.mk (Ring.orig_pos st) (Ring.final_pos st) (Ring.element_offset st)
             (Ring.lost_plane st)) = Some (status, ls) ->
  status <> Status.success ->
  ringpass_body pm accelerator trajectory st
  = Return status
      (Ring.mk (Line.orig_pos ls) (Ring.pos st) (Ring.lost_turn st)
               (Line.element_offset ls) (Line.lost_plane ls) (Line.pos ls)).
Proof.
  intros Hline Hfail. unfold ringpass_body. rewrite Hline.
  apply Status_eqb_neq in Hfail. rewrite Hfail. reflexivity.
Qed.

End RingPass.





(** ** Zero turns *)

(** C5 (amended).  With [nr_turns = 0], [track_ringpass] returns [success],
    leaves the coordinates, the offset and [lost_plane] as they were and
    sets [lost_turn = 0]; without [trajectory] it appends the coordinates
    to [pos], with [trajectory] it leaves [pos] as it was. *)
Theorem ringpass_zero_turns {K : Type} (pm : passmethods K)
    (accelerator : Accelerator.t K) (trajectory : bool) (x : Pos.t)
    (pos : list Pos.t) (offset : nat) (lp : Plane.type) :
  track_ringpass pm accelerator trajectory x pos 0 offset lp
  = Some (Status.success,
          Ring.mk x (if trajectory then pos else pos ++ [x]) 0%nat offset lp []).
Proof. destruct trajectory; reflexivity. Qed.

(** C5 as stated fails: with [trajectory] and an empty [pos], zero turns
    leave [pos] empty instead of producing the one record [x]. *)
Lemma ringpass_zero_turns_counterexample :
  track_ringpass example_passmethods (example_accelerator [example_marker "m"] true)
    true (example_pos 0 0) [] 0 0 Plane.no_plane
  = Some (Status.success,
          Ring.mk (example_pos 0 0) [] 0%nat 0%nat Plane.no_plane [])
  /\ ([] : list Pos.t) <> [example_pos 0 0].
Proof. split; [reflexivity | discriminate]. Qed.

(** * Properties of the element *)

(** ** Comparison of doubles *)

Lemma d_ne_negb (x y : double) : d_ne x y = negb (d_eq x y).
Proof. reflexivity. Qed.

(** A double that is not NaN equals itself. *)
Lemma d_eq_refl (x : double) : x <> S754_nan -> d_eq x x = true.
Proof.
  destruct x as [s|s| |s m e]; intros Hn; try reflexivity.
  - destruct s; reflexivity.
  - congruence.
  - unfold d_eq, SFeqb, SFcompare.
    rewrite Z.compare_refl, Pos.compare_cont_refl. destruct s; reflexivity.
Qed.

Lemma isfinite_not_nan (x : double) : isfinite x = true -> x <> S754_nan.
Proof. destruct x; simpl; congruence. Qed.

Lemma d_eq_refl_finite (x : double) : isfinite x = true -> d_eq x x = true.
Proof. intros H. apply d_eq_refl, isfinite_not_nan, H. Qed.

(** ** The comparison of elements *)

(** C6 (amended).  On two distinct elements of which the first has the drift
    pass or the identity pass, [Element::operator==] holds exactly when the
    two have the same family name, the same pass method, the same number of
    steps, and equal length and aperture bounds (as doubles compare): the
    remaining fields play no role. *)
Theorem Element_eq_drift_or_identity {K : Type} (kicktable_ne : K -> K -> bool)
    (this o : Element.t K) :
  Element.pass_method this = PassMethod.pm_drift_pass
  \/ Element.pass_method this = PassMethod.pm_identity_pass ->
  Element_operator_eq kicktable_ne false this o
  = String.eqb (Element.fam_name this) (Element.fam_name o)
    && (Element.pass_method this =? Element.pass_method o)
    && d_eq (Element.length this) (Element.length o)
    && d_eq (Element.hmin this) (Element.hmin o)
    && d_eq (Element.hmax this) (Element.hmax o)
    && d_eq (Element.vmin this) (Element.vmin o)
    && d_eq (Element.vmax this) (Element.vmax o)
    && (Element.nr_steps this =? Element.nr_steps o).
Proof.
  intros Hpm. unfold Element_operator_eq. rewrite !d_ne_negb.
  assert (Hshort : (Element.pass_method this =? PassMethod.pm_drift_pass)
                   || (Element.pass_method this =? PassMethod.pm_identity_pass) = true).
  { destruct Hpm as [-> | ->]; reflexivity. }
  rewrite Hshort.
  destruct (String.eqb _ _), (Element.pass_method this =? Element.pass_method o),
    (d_eq (Element.length this) _), (d_eq (Element.hmin this) _),
    (d_eq (Element.hmax this) _), (d_eq (Element.vmin this) _),
    (d_eq (Element.vmax this) _), (Element.nr_steps this =? Element.nr_steps o);
    reflexivity.
Qed.

Lemma Element_eq_drift_or_identity_witness :
  Element_operator_eq (fun _ _ : unit => false) false
    (Element.with_hkick d_one (Element_drift "d" d_one)) (Element_drift "d" d_one)
  = true.
Proof.
  rewrite (Element_eq_drift_or_identity (fun _ _ : unit => false)
             (Element.with_hkick d_one (Element_drift "d" d_one))
             (Element_drift "d" d_one) (or_introl eq_refl)).
  reflexivity.
Defined.

(** C6 as stated fails: two drifts of the same length and aperture that
    differ in their family name are not equal. *)
Lemma Element_eq_drift_or_identity_counterexample :
  let a : Element.t unit := Element_drift "a" d_one in
  let b : Element.t unit := Element_drift "b" d_one in
  Element.pass_method a = PassMethod.pm_drift_pass
  /\ Element.pass_method b = PassMethod.pm_drift_pass
  /\ Element.length a = Element.length b
  /\ Element.hmin a = Element.hmin b /\ Element.hmax a = Element.hmax b
  /\ Element.vmin a = Element.vmin b /\ Element.vmax a = Element.vmax b
  /\ Element_operator_eq (fun _ _ => false) false a b = false.
Proof. repeat split. Qed.

(** ** Setting the pass method by name *)

Lemma find_pass_method_absent (dict : list string) (i : nat) (s : string) :
  ~ In s dict -> find_pass_method dict i s = (i + List.length dict)%nat.
Proof.
  revert i. induction dict as [|name rest IH]; intros i Hnot; simpl.
  - lia.
  - destruct (String.eqb_spec name s) as [-> | Hne].
    + exfalso. apply Hnot. left. reflexivity.
    + rewrite IH; [lia|]. intros Hin. apply Hnot. right. exact Hin.
Qed.

Lemma Element_set_pass_method_unknown {K : Type} (e : Element.t K) (s : string) :
  ~ In s pm_dict -> Element_set_pass_method s e = e.
Proof.
  intros Hnot. unfold Element_set_pass_method.
  rewrite (find_pass_method_absent pm_dict 0 s Hnot). reflexivity.
Qed.

(** ** The bending magnet *)

Lemma vector_store_Some {A : Type} (v : list A) (i : nat) (x : A) :
  (i < List.length v)%nat -> vector_store v i x = Some (<[i := x]> v).
Proof.
  intros H. unfold vector_store.
  replace (i <? List.length v)%nat with true by (symmetry; apply Nat.ltb_lt; exact H).
  reflexivity.
Qed.


(** * Properties of the reader of flat files *)

Section Reader.
Context {K : Type}.
Variable add_kicktable :
  string -> list K -> option K -> Status.type * list K * option K.

Lemma read_lines_app (l1 l2 : list line) (st : Reader.state K) :
  read_lines add_kicktable (l1 ++ l2) st =
    match read_lines add_kicktable l1 st with
    | Goes_on st' => read_lines add_kicktable l2 st'
    | r => r
    end.
Proof.
  revert st. induction l1 as [|ln l1 IH]; intros st; simpl; [reflexivity|].
  destruct (read_line add_kicktable st ln); try reflexivity. apply IH.
Qed.

(** ** The two polynomials keep one length, of at least three *)












End Reader.




(** ** The symmetric aperture *)

(** The flags [found_hmin] and [found_vmin] outlive the element: the line
    [fam_name] leaves them as they are. *)
Lemma read_line_fam_name_keeps_flags {K : Type}
    (add_kicktable : string -> list K -> option K -> Status.type * list K * option K)
    (st : Reader.state K) (ln : line) :
  cmd ln = "fam_name" ->
  exists st',
    read_line add_kicktable st ln = Goes_on st'
    /\ Reader.found_hmin st' = Reader.found_hmin st
    /\ Reader.found_vmin st' = Reader.found_vmin st.
Proof.
  intros Hcmd. unfold read_line. rewrite Hcmd. simpl.
  eexists. split; [reflexivity|].
  destruct (negb _); split; reflexivity.
Qed.

(** The line [hmax x]: [hmin] becomes [-x] when the flag is down and stays
    what it was when the flag is up. *)
Lemma read_line_hmax {K : Type}
    (add_kicktable : string -> list K -> option K -> Status.type * list K * option K)
    (st : Reader.state K) (x : double) (rest : list token) (ws short : bool) :
  exists st',
    read_line add_kicktable st (TextLine "hmax" (TReal x :: rest) ws short) = Goes_on st'
    /\ Element.hmax (Reader.e st') = x
    /\ Element.hmin (Reader.e st')
       = (if Reader.found_hmin st then Element.hmin (Reader.e st) else d_neg x)
    /\ Reader.found_hmin st' = false.
Proof.
  unfold read_line. simpl. eexists. split; [reflexivity|].
  destruct (Reader.found_hmin st); repeat split.
Qed.

(** C8, at the failing input.  The first element of the file gives [hmin]
    alone, the second [hmax = 2] alone: the second element comes out with
    the default [hmin = -DBL_MAX], not with [hmin = -2]. *)
Theorem read_hmax_after_foreign_hmin :
  read_flat_file no_kicktable (Some example_hmin_hmax_file) (example_accelerator [] false)
  = Stops Status.success
      (with_lattice
         [Element.with_hmin (double_of_Z (-1)) (Element_new "A" d_zero);
          Element.with_hmax (double_of_Z 2) (Element_new "B" d_zero)]
         (example_accelerator [] false))
  /\ Element.hmin (Element.with_hmax (double_of_Z 2) (Element_new (K := unit) "B" d_zero))
     = d_neg DBL_MAX
  /\ d_eq (d_neg DBL_MAX) (d_neg (double_of_Z 2)) = false.
Proof. repeat split. Qed.

(** ** Unknown pass methods *)

(** C10.  [Element::set_pass_method] leaves the element as it is when the
    name is not in [pm_dict], and it has no other outcome; the reader of
    flat files stops with [passmethod_not_defined] at a line [pass_method]
    whose name is not in [pm_dict]. *)
Theorem unknown_pass_method {K : Type}
    (add_kicktable : string -> list K -> option K -> Status.type * list K * option K)
    (s : string) :
  ~ In s pm_dict ->
  (forall e : Element.t K,
     Element_set_pass_method s e = e
     /\ Element.pass_method (Element_set_pass_method s e) = Element.pass_method e)
  /\ (forall accelerator before ln after st rest,
        read_lines add_kicktable before (reader_start accelerator) = Goes_on st ->
        cmd ln = "pass_method" ->
        args ln = TWord s :: rest ->
        read_flat_file add_kicktable (Some (before ++ ln :: after)) accelerator
        = Stops Status.passmethod_not_defined (Reader.accelerator st)).
Proof.
  intros Hnot. split.
  - intros e. rewrite (Element_set_pass_method_unknown e s Hnot). split; reflexivity.
  - intros accelerator before ln after st rest Hbefore Hcmd Hargs.
    unfold read_flat_file, read_flat_file_trackcpp.
    rewrite read_lines_app, Hbefore. simpl.
    assert (Hline : read_line add_kicktable st ln
                    = Stops Status.passmethod_not_defined st).
    { unfold read_line. rewrite Hcmd. cbn [first_char_is String.eqb Ascii.eqb Bool.eqb].
      unfold read_pass_method_line.
      assert (Hword : extract_string (open_stream ln) ""
                      = (s, advance (open_stream ln) rest)).
      { unfold open_stream. rewrite Hcmd, Hargs. reflexivity. }
      rewrite Hword, (find_pass_method_absent pm_dict 0 s Hnot). reflexivity. }
    rewrite Hline. reflexivity.
Qed.

Lemma unknown_pass_method_witness :
  Element_set_pass_method "quadrupole_pass" (Element_marker (K := unit) "m")
  = Element_marker "m"
  /\ read_flat_file no_kicktable
       (Some ([TextLine "fam_name" [TWord "q"] false false]
              ++ TextLine "pass_method" [TWord "quadrupole_pass"] false false :: []))
       (example_accelerator [] false)
     = Stops Status.passmethod_not_defined
         (with_lattice [] (example_accelerator [] false)).
Proof.
  destruct (unknown_pass_method no_kicktable "quadrupole_pass") as [Hset Hread].
  - simpl. intuition discriminate.
  - split.
    + apply Hset.
    + apply (Hread (example_accelerator [] false)
               [TextLine "fam_name" [TWord "q"] false false]
               (TextLine "pass_method" [TWord "quadrupole_pass"] false false) []
               (with_e (Element.with_fam_name "q")
                  (reader_start (example_accelerator [] false)))
               []); reflexivity.
Defined.

(** * The round trip through a flat file *)

Lemma double_token_finite (x : double) : isfinite x = true -> double_token x = TReal x.
Proof. destruct x; simpl; congruence. Qed.

Lemma with_e_id {K : Type} (st : Reader.state K) (f : Element.t K -> Element.t K) :
  f (Reader.e st) = Reader.e st -> with_e f st = st.
Proof. intros H. unfold with_e. rewrite H. destruct st; reflexivity. Qed.

(** ** Polynomial lines *)

Lemma has_polynom_order (p : list double) :
  has_polynom p = negb (polynom_order p =? 0)%nat.
Proof.
  induction p as [|x p IH]; [reflexivity|].
  unfold has_polynom in *. simpl. rewrite IH.
  destruct (polynom_order p); destruct (d_ne x d_zero); reflexivity.
Qed.

Lemma polynom_order_le (p : list double) : (polynom_order p <= List.length p)%nat.
Proof.
  induction p as [|x p IH]; simpl; [lia|].
  destruct (polynom_order p); [destruct (d_ne x d_zero)|]; lia.
Qed.

Lemma polynom_pairs_order_0 (k : Z) (p : list double) :
  polynom_order p = 0%nat -> polynom_pairs k p = [].
Proof.
  revert k. induction p as [|x p IH]; intros k; simpl; [reflexivity|].
  destruct (polynom_order p) eqn:Ho; [|discriminate].
  destruct (d_ne x d_zero); [discriminate|]. intros _. apply IH. reflexivity.
Qed.

Lemma read_back_order_0 (p : list double) :
  polynom_order p = 0%nat -> map read_back p = replicate (List.length p) d_zero.
Proof.
  induction p as [|x p IH]; simpl; [reflexivity|].
  destruct (polynom_order p) eqn:Ho; [|discriminate].
  unfold read_back at 1. destruct (d_ne x d_zero); [discriminate|].
  intros _. rewrite IH by reflexivity. reflexivity.
Qed.

(** The coefficients behind the order of a polynomial read back as zeros. *)
Lemma resize_read_back_grow (p : list double) (n m : nat) :
  (polynom_order p <= n)%nat -> (n <= m)%nat ->
  resize m d_zero (resize n d_zero (map read_back p)) = resize m d_zero (map read_back p).
Proof.
  revert n m. induction p as [|x p IH]; intros n m Hn Hm.
  - simpl. rewrite !resize_nil. apply resize_replicate.
  - simpl map. destruct n as [|n].
    + assert (Ho : polynom_order (x :: p) = 0%nat) by lia.
      change (read_back x :: map read_back p) with (map read_back (x :: p)).
      rewrite (read_back_order_0 (x :: p) Ho).
      rewrite resize_0, resize_nil, resize_replicate. reflexivity.
    + destruct m as [|m]; [lia|]. simpl. f_equal. apply IH; [|lia].
      simpl in Hn. destruct (polynom_order p); [|lia]. lia.
Qed.

Lemma read_pairs_written (pairs : list (Z * double)) :
  forall (fuel : nat) (order : list Z) (multipole : list double) (size : Z),
    (List.length pairs < fuel)%nat ->
    Forall (fun ix => 0 <= fst ix <= UINT_MAX /\ isfinite (snd ix) = true) pairs ->
    read_pairs fuel (Stream (flat_map pair_tokens pairs) true false false)
      order multipole size
    = Some (order ++ map fst pairs, multipole ++ map snd pairs,
            fold_left grow_size pairs size).
Proof.
  induction pairs as [|[i x] pairs IH]; intros fuel order multipole size Hfuel Hall.
  - destruct fuel as [|fuel]; [simpl in Hfuel; lia|].
    simpl. rewrite !app_nil_r. reflexivity.
  - destruct fuel as [|fuel]; [simpl in Hfuel; lia|].
    inversion Hall as [|? ? [[Hi0 Hi1] Hx] Hrest]; subst. simpl in Hi0, Hi1, Hx.
    cbn [flat_map pair_tokens fst snd app read_pairs eofbit].
    rewrite (double_token_finite x Hx).
    unfold extract_uint, extract_double, sentry, advance. cbn.
    replace (i <? 0) with false by (symmetry; apply Z.ltb_ge; lia).
    replace (UINT_MAX <? i) with false by (symmetry; apply Z.ltb_ge; lia).
    cbn. rewrite andb_false_r.
    rewrite IH by (simpl in Hfuel; first [lia | assumption]).
    rewrite <- !app_assoc. reflexivity.
Qed.

Lemma polynom_pairs_range (p : list double) (k : Z) :
  0 <= k -> k + Z.of_nat (List.length p) <= UINT_MAX ->
  forallb isfinite p = true ->
  Forall (fun ix => 0 <= fst ix <= UINT_MAX /\ isfinite (snd ix) = true)
         (polynom_pairs k p).
Proof.
  revert k. induction p as [|x p IH]; intros k Hk Hlen Hfin; simpl; [constructor|].
  simpl in Hfin, Hlen. apply andb_true_iff in Hfin as [Hx Hp].
  destruct (d_ne x d_zero).
  - constructor; [simpl; split; [lia | exact Hx]|]. apply IH; [lia | lia | exact Hp].
  - apply IH; [lia | lia | exact Hp].
Qed.

Lemma polynom_pairs_size (p : list double) (k size : Z) :
  0 <= k -> k + Z.of_nat (List.length p) <= UINT_MAX ->
  fold_left grow_size (polynom_pairs k p) size
  = if (polynom_order p =? 0)%nat then size
    else Z.max size (k + Z.of_nat (polynom_order p)).
Proof.
  revert k size. induction p as [|x p IH]; intros k size Hk Hlen; [reflexivity|].
  simpl in Hlen. simpl polynom_pairs. simpl polynom_order.
  destruct (d_ne x d_zero).
  - simpl fold_left. rewrite IH by lia.
    unfold grow_size. simpl fst.
    rewrite Z.mod_small by (unfold UINT_MAX in Hlen; lia).
    destruct (polynom_order p) as [|n]; simpl Nat.eqb; cbv iota;
      destruct (Z.ltb_spec size (k + 1)); lia.
  - rewrite IH by lia.
    destruct (polynom_order p) as [|n]; simpl Nat.eqb; cbv iota; [reflexivity|]. lia.
Qed.

Lemma length_pair_tokens (pairs : list (Z * double)) :
  List.length (flat_map pair_tokens pairs) = (2 * List.length pairs)%nat.
Proof. induction pairs as [|ix pairs IH]; simpl; lia. Qed.

Lemma store_pairs_written (p : list double) :
  forall (k : Z) (done : list double) (m : nat),
    0 <= k -> Z.to_nat k = List.length done ->
    (polynom_order p <= m)%nat ->
    store_pairs (done ++ replicate m d_zero)
      (map fst (polynom_pairs k p)) (map snd (polynom_pairs k p))
    = Some (done ++ resize m d_zero (map read_back p)).
Proof.
  induction p as [|x p IH]; intros k done m Hk Hdone Hm.
  - simpl. rewrite resize_nil. reflexivity.
  - destruct m as [|m].
    + assert (Ho : polynom_order (x :: p) = 0%nat) by lia.
      rewrite (polynom_pairs_order_0 k (x :: p) Ho). reflexivity.
    + assert (Hm' : (polynom_order p <= m)%nat).
      { simpl in Hm. destruct (polynom_order p); lia. }
      simpl polynom_pairs. simpl map at 3. unfold read_back at 1.
      destruct (d_ne x d_zero).
      * cbn [map fst snd store_pairs].
        rewrite vector_store_Some
          by (rewrite length_app; simpl; rewrite length_replicate; lia).
        rewrite Hdone, insert_app_r_alt, Nat.sub_diag by lia.
        change (<[0%nat:=x]> (replicate (S m) d_zero)) with (x :: replicate m d_zero).
        replace (done ++ x :: replicate m d_zero)
          with ((done ++ [x]) ++ replicate m d_zero)
          by (rewrite <- app_assoc; reflexivity).
        rewrite (IH (k + 1) (done ++ [x]) m)
          by (first [lia | rewrite length_app; simpl; lia | exact Hm']).
        rewrite <- app_assoc. reflexivity.
      * simpl resize.
        replace (done ++ replicate (S m) d_zero)
          with ((done ++ [d_zero]) ++ replicate m d_zero)
          by (rewrite <- app_assoc; reflexivity).
        rewrite (IH (k + 1) (done ++ [d_zero]) m)
          by (first [lia | rewrite length_app; simpl; lia | exact Hm']).
        rewrite <- app_assoc. reflexivity.
Qed.

(** A polynomial line of the writer, read onto a polynomial of zeros. *)
Lemma read_polynom_line_written (label : string) (p : list double) (n : nat) :
  String.eqb label "" = false ->
  forallb isfinite p = true ->
  Z.of_nat (List.length p) <= INT_MAX ->
  has_polynom p = true ->
  read_polynom_line (open_stream (write_polynom label p)) (replicate n d_zero)
  = Goes_on (resize (polynom_order p) d_zero (map read_back p)).
Proof.
  intros Hlabel Hfin Hlen Hhas.
  unfold open_stream, write_polynom. cbn [cmd args tail_ws]. rewrite Hlabel.
  rewrite andb_false_r. unfold read_polynom_line. cbn [toks].
  fold pair_tokens.
  change (fun ix : Z * double => [TUInt (fst ix); double_token (snd ix)])
    with pair_tokens.
  rewrite read_pairs_written.
  - rewrite polynom_pairs_size by (unfold INT_MAX, UINT_MAX in *; lia).
    rewrite has_polynom_order in Hhas. apply negb_true_iff in Hhas. rewrite Hhas.
    apply Nat.eqb_neq in Hhas.
    replace (Z.max 0 (0 + Z.of_nat (polynom_order p))) with (Z.of_nat (polynom_order p))
      by lia.
    replace (0 <? Z.of_nat (polynom_order p)) with true
      by (symmetry; apply Z.ltb_lt; lia).
    rewrite Nat2Z.id, resize_replicate. simpl app.
    pose proof (store_pairs_written p 0 [] (polynom_order p)
                  ltac:(lia) eq_refl ltac:(lia)) as Hstore.
    simpl app in Hstore. rewrite Hstore. reflexivity.
  - rewrite length_pair_tokens. lia.
  - apply polynom_pairs_range; [lia | unfold INT_MAX, UINT_MAX in *; lia | exact Hfin].
Qed.

Section Lines.
Context {K : Type}.
Variable add_kicktable :
  string -> list K -> option K -> Status.type * list K * option K.

(** *** Words *)

Lemma append_snoc (cur : string) (c : ascii) (s : string) :
  ((cur ++ String c "") ++ s)%string = (cur ++ String c s)%string.
Proof.
  induction cur as [|c' cur IH]; [reflexivity|].
  change (String c' ((cur ++ String c "") ++ s)%string
          = String c' (cur ++ String c s)%string).
  rewrite IH. reflexivity.
Qed.

Lemma append_empty_r (s : string) : (s ++ "")%string = s.
Proof.
  induction s as [|c s IH]; [reflexivity|].
  change (String c (s ++ "")%string = String c s). rewrite IH. reflexivity.
Qed.

Lemma words_from_word (s cur : string) :
  no_space s = true ->
  String.eqb (cur ++ s) "" = false ->
  words_from cur s = [(cur ++ s)%string].
Proof.
  revert cur. induction s as [|c s IH]; intros cur Hs Hne.
  - simpl. rewrite append_empty_r in *. rewrite Hne. reflexivity.
  - simpl in Hs. apply andb_true_iff in Hs as [Hc Hs].
    apply negb_true_iff in Hc. simpl. rewrite Hc.
    rewrite IH; rewrite ?append_snoc; auto.
Qed.

Lemma words_word (name : string) : word_name name = true -> words name = [name].
Proof.
  unfold word_name. intros H. apply andb_true_iff in H as [Hne Hs].
  apply negb_true_iff in Hne. apply (words_from_word name "" Hs Hne).
Qed.

(** *** The lines of the writer, one by one *)

Lemma read_line_fam_name (st : Reader.state K) (name : string) (ws : bool) :
  word_name name = true ->
  String.eqb (Element.fam_name (Reader.e st)) "" = false
  \/ Reader.e st = Element_new "" d_zero ->
  read_line add_kicktable st (TextLine "fam_name" (map TWord (words name)) ws false)
  = Goes_on (Reader.mk (committed st) (Element.with_fam_name name (Element_new "" d_zero))
                       (Reader.found_hmin st) (Reader.found_vmin st)).
Proof.
  intros Hname Hst. rewrite (words_word name Hname).
  unfold read_line, committed. cbn [cmd first_char_is String.eqb Ascii.eqb Bool.eqb].
  destruct Hst as [Hnamed | Hfresh].
  - rewrite Hnamed. reflexivity.
  - destruct st as [a e fh fv]. simpl in Hfresh. subst e. reflexivity.
Qed.

Lemma read_line_length (st : Reader.state K) (x : double) :
  isfinite x = true ->
  read_line add_kicktable st (TextLine "length" [double_token x] false false)
  = Goes_on (with_e (Element.with_length x) st).
Proof. intros Hx. rewrite (double_token_finite x Hx). reflexivity. Qed.

Lemma read_line_pass_method (st : Reader.state K) (tag : Z) (name : string) :
  0 <= tag < PassMethod.pm_kicktable_pass ->
  pm_dict_at tag = Some name ->
  read_line add_kicktable st (TextLine "pass_method" [TWord name] false false)
  = Goes_on (with_e (Element.with_pass_method tag) st).
Proof.
  intros Htag Hname. unfold PassMethod.pm_kicktable_pass in Htag.
  assert (Hcases : tag = 0 \/ tag = 1 \/ tag = 2 \/ tag = 3 \/ tag = 4 \/ tag = 5
                   \/ tag = 6 \/ tag = 7) by lia.
  repeat (destruct Hcases as [-> | Hcases]);
    try subst tag; injection Hname as <-; reflexivity.
Qed.

Lemma with_nr_steps_id (e : Element.t K) :
  Element.with_nr_steps (Element.nr_steps e) e = e.
Proof. destruct e; reflexivity. Qed.

Lemma read_nr_steps (st : Reader.state K) (z : Z) (rest : list line) :
  in_int_range z = true ->
  Element.nr_steps (Reader.e st) = 1 ->
  read_lines add_kicktable
    ((if negb (z =? 1) then [TextLine "nr_steps" [TInt z] false false] else []) ++ rest) st
  = read_lines add_kicktable rest (with_e (Element.with_nr_steps z) st).
Proof.
  intros Hz H1. unfold in_int_range in Hz. apply andb_true_iff in Hz as [Hlo Hhi].
  destruct (Z.eqb_spec z 1) as [-> | Hne]; simpl.
  - rewrite <- H1, with_e_id; [reflexivity | apply with_nr_steps_id].
  - unfold read_line. cbn [cmd first_char_is String.eqb Ascii.eqb Bool.eqb].
    unfold extract_int, open_stream. cbn.
    replace (z <? INT_MIN) with false by (symmetry; apply Z.ltb_ge; lia).
    replace (INT_MAX <? z) with false by (symmetry; apply Z.ltb_ge; lia).
    reflexivity.
Qed.

Lemma read_aperture_h (st : Reader.state K) (a b : double) (rest : list line) :
  isfinite a = true -> isfinite b = true ->
  d_ne a d_zero = true -> d_ne b d_zero = true ->
  Reader.found_hmin st = false ->
  read_lines add_kicktable (write_nonzero "hmin" a ++ write_nonzero "hmax" b ++ rest) st
  = read_lines add_kicktable rest
      (with_e (fun e => Element.with_hmax b (Element.with_hmin a e)) st).
Proof.
  intros Ha Hb Hna Hnb Hflag. unfold write_nonzero. rewrite Hna, Hnb.
  rewrite (double_token_finite a Ha), (double_token_finite b Hb).
  destruct st as [acc e fh fv]. simpl in Hflag. subst fh. reflexivity.
Qed.

Lemma read_aperture_v (st : Reader.state K) (a b : double) (rest : list line) :
  isfinite a = true -> isfinite b = true ->
  d_ne a d_zero = true -> d_ne b d_zero = true ->
  Reader.found_vmin st = false ->
  read_lines add_kicktable (write_nonzero "vmin" a ++ write_nonzero "vmax" b ++ rest) st
  = read_lines add_kicktable rest
      (with_e (fun e => Element.with_vmax b (Element.with_vmin a e)) st).
Proof.
  intros Ha Hb Hna Hnb Hflag. unfold write_nonzero. rewrite Hna, Hnb.
  rewrite (double_token_finite a Ha), (double_token_finite b Hb).
  destruct st as [acc e fh fv]. simpl in Hflag. subst fv. reflexivity.
Qed.

Lemma read_nonzero_hkick (st : Reader.state K) (x : double) (rest : list line) :
  isfinite x = true ->
  Element.hkick (Reader.e st) = d_zero ->
  read_lines add_kicktable (write_nonzero "hkick" x ++ rest) st
  = read_lines add_kicktable rest (with_e (Element.with_hkick (read_back x)) st).
Proof.
  intros Hx H0. unfold write_nonzero, read_back. destruct (d_ne x d_zero).
  - rewrite (double_token_finite x Hx). reflexivity.
  - simpl. rewrite <- H0, with_e_id; [reflexivity | destruct (Reader.e st); reflexivity].
Qed.

Lemma read_nonzero_vkick (st : Reader.state K) (x : double) (rest : list line) :
  isfinite x = true ->
  Element.vkick (Reader.e st) = d_zero ->
  read_lines add_kicktable (write_nonzero "vkick" x ++ rest) st
  = read_lines add_kicktable rest (with_e (Element.with_vkick (read_back x)) st).
Proof.
  intros Hx H0. unfold write_nonzero, read_back. destruct (d_ne x d_zero).
  - rewrite (double_token_finite x Hx). reflexivity.
  - simpl. rewrite <- H0, with_e_id; [reflexivity | destruct (Reader.e st); reflexivity].
Qed.

Lemma read_nonzero_angle (st : Reader.state K) (x : double) (rest : list line) :
  isfinite x = true ->
  Element.angle (Reader.e st) = d_zero ->
  read_lines add_kicktable (write_nonzero "angle" x ++ rest) st
  = read_lines add_kicktable rest (with_e (Element.with_angle (read_back x)) st).
Proof.
  intros Hx H0. unfold write_nonzero, read_back. destruct (d_ne x d_zero).
  - rewrite (double_token_finite x Hx). reflexivity.
  - simpl. rewrite <- H0, with_e_id; [reflexivity | destruct (Reader.e st); reflexivity].
Qed.

Lemma read_nonzero_gap (st : Reader.state K) (x : double) (rest : list line) :
  isfinite x = true ->
  Element.gap (Reader.e st) = d_zero ->
  read_lines add_kicktable (write_nonzero "gap" x ++ rest) st
  = read_lines add_kicktable rest (with_e (Element.with_gap (read_back x)) st).
Proof.
  intros Hx H0. unfold write_nonzero, read_back. destruct (d_ne x d_zero).
  - rewrite (double_token_finite x Hx). reflexivity.
  - simpl. rewrite <- H0, with_e_id; [reflexivity | destruct (Reader.e st); reflexivity].
Qed.

Lemma read_nonzero_fint_in (st : Reader.state K) (x : double) (rest : list line) :
  isfinite x = true ->
  Element.fint_in (Reader.e st) = d_zero ->
  read_lines add_kicktable (write_nonzero "fint_in" x ++ rest) st
  = read_lines add_kicktable rest (with_e (Element.with_fint_in (read_back x)) st).
Proof.
  intros Hx H0. unfold write_nonzero, read_back. destruct (d_ne x d_zero).
  - rewrite (double_token_finite x Hx). reflexivity.
  - simpl. rewrite <- H0, with_e_id; [reflexivity | destruct (Reader.e st); reflexivity].
Qed.

Lemma read_nonzero_fint_out (st : Reader.state K) (x : double) (rest : list line) :
  isfinite x = true ->
  Element.fint_out (Reader.e st) = d_zero ->
  read_lines add_kicktable (write_nonzero "fint_out" x ++ rest) st
  = read_lines add_kicktable rest (with_e (Element.with_fint_out (read_back x)) st).
Proof.
  intros Hx H0. unfold write_nonzero, read_back. destruct (d_ne x d_zero).
  - rewrite (double_token_finite x Hx). reflexivity.
  - simpl. rewrite <- H0, with_e_id; [reflexivity | destruct (Reader.e st); reflexivity].
Qed.

Lemma read_nonzero_voltage (st : Reader.state K) (x : double) (rest : list line) :
  isfinite x = true ->
  Element.voltage (Reader.e st) = d_zero ->
  read_lines add_kicktable (write_nonzero "voltage" x ++ rest) st
  = read_lines add_kicktable rest (with_e (Element.with_voltage (read_back x)) st).
Proof.
  intros Hx H0. unfold write_nonzero, read_back. destruct (d_ne x d_zero).
  - rewrite (double_token_finite x Hx). reflexivity.
  - simpl. rewrite <- H0, with_e_id; [reflexivity | destruct (Reader.e st); reflexivity].
Qed.

Lemma read_nonzero_frequency (st : Reader.state K) (x : double) (rest : list line) :
  isfinite x = true ->
  Element.frequency (Reader.e st) = d_zero ->
  read_lines add_kicktable (write_nonzero "frequency" x ++ rest) st
  = read_lines add_kicktable rest (with_e (Element.with_frequency (read_back x)) st).
Proof.
  intros Hx H0. unfold write_nonzero, read_back. destruct (d_ne x d_zero).
  - rewrite (double_token_finite x Hx). reflexivity.
  - simpl. rewrite <- H0, with_e_id; [reflexivity | destruct (Reader.e st); reflexivity].
Qed.

Lemma read_nonzero_angle_in (st : Reader.state K) (x : double) (rest : list line) :
  isfinite x = true ->
  Element.angle_in (Reader.e st) = d_zero ->
  read_lines add_kicktable (write_nonzero "angle_in" x ++ rest) st
  = read_lines add_kicktable rest (with_e (Element.with_angle_in (read_back x)) st).
Proof.
  intros Hx H0. unfold write_nonzero, read_back. destruct (d_ne x d_zero).
  - rewrite (double_token_finite x Hx). reflexivity.
  - simpl. rewrite <- H0, with_e_id; [reflexivity | destruct (Reader.e st); reflexivity].
Qed.

Lemma read_nonzero_angle_out (st : Reader.state K) (x : double) (rest : list line) :
  isfinite x = true ->
  Element.angle_out (Reader.e st) = d_zero ->
  read_lines add_kicktable (write_nonzero "angle_out" x ++ rest) st
  = read_lines add_kicktable rest (with_e (Element.with_angle_out (read_back x)) st).
Proof.
  intros Hx H0. unfold write_nonzero, read_back. destruct (d_ne x d_zero).
  - rewrite (double_token_finite x Hx). reflexivity.
  - simpl. rewrite <- H0, with_e_id; [reflexivity | destruct (Reader.e st); reflexivity].
Qed.

(** *** Vectors and matrices *)

Lemma finite_vec6_tokens (t : vec6) :
  finite_vec6 t = true -> map double_token (vec6_list t) = map TReal (vec6_list t).
Proof.
  intros H. unfold finite_vec6 in H. rewrite forallb_forall in H.
  apply map_ext_in. intros x Hx. apply double_token_finite, H, Hx.
Qed.

Lemma with_t_in_id (e : Element.t K) : Element.with_t_in (Element.t_in e) e = e.
Proof. destruct e; reflexivity. Qed.
Lemma with_t_out_id (e : Element.t K) : Element.with_t_out (Element.t_out e) e = e.
Proof. destruct e; reflexivity. Qed.
Lemma with_r_in_id (e : Element.t K) : Element.with_r_in (Element.r_in e) e = e.
Proof. destruct e; reflexivity. Qed.
Lemma with_r_out_id (e : Element.t K) : Element.with_r_out (Element.r_out e) e = e.
Proof. destruct e; reflexivity. Qed.

Lemma read_t_in (st : Reader.state K) (t : vec6) (rest : list line) :
  finite_vec6 t = true ->
  Element.t_in (Reader.e st) = vec6_zero ->
  read_lines add_kicktable
    ((if has_t_vector t then [write_6d_vector "t_in" t] else []) ++ rest) st
  = read_lines add_kicktable rest
      (with_e (Element.with_t_in (if has_t_vector t then t else vec6_zero)) st).
Proof.
  intros Ht H0. destruct (has_t_vector t).
  - unfold write_6d_vector. rewrite (finite_vec6_tokens t Ht).
    destruct t. reflexivity.
  - simpl. rewrite <- H0, with_e_id; [reflexivity | apply with_t_in_id].
Qed.

Lemma read_t_out (st : Reader.state K) (t : vec6) (rest : list line) :
  finite_vec6 t = true ->
  Element.t_out (Reader.e st) = vec6_zero ->
  read_lines add_kicktable
    ((if has_t_vector t then [write_6d_vector "t_out" t] else []) ++ rest) st
  = read_lines add_kicktable rest
      (with_e (Element.with_t_out (if has_t_vector t then t else vec6_zero)) st).
Proof.
  intros Ht H0. destruct (has_t_vector t).
  - unfold write_6d_vector. rewrite (finite_vec6_tokens t Ht).
    destruct t. reflexivity.
  - simpl. rewrite <- H0, with_e_id; [reflexivity | apply with_t_out_id].
Qed.

Lemma finite_mat66_rows (r : mat66) :
  finite_mat66 r = true ->
  finite_vec6 (row0 r) = true /\ finite_vec6 (row1 r) = true
  /\ finite_vec6 (row2 r) = true /\ finite_vec6 (row3 r) = true
  /\ finite_vec6 (row4 r) = true /\ finite_vec6 (row5 r) = true.
Proof.
  unfold finite_mat66, mat66_list, finite_vec6.
  rewrite !forallb_app, !andb_true_iff. tauto.
Qed.

Lemma read_r_in (st : Reader.state K) (r : mat66) (rest : list line) :
  finite_mat66 r = true ->
  Element.r_in (Reader.e st) = mat66_id ->
  read_lines add_kicktable
    ((if has_r_matrix r then write_rows "|r_in" r else []) ++ rest) st
  = read_lines add_kicktable rest
      (with_e (Element.with_r_in (if has_r_matrix r then r else mat66_id)) st).
Proof.
  intros Hr H0. destruct (has_r_matrix r).
  - destruct (finite_mat66_rows r Hr) as (H1 & H2 & H3 & H4 & H5 & H6).
    unfold write_rows, write_6d_vector.
    rewrite !finite_vec6_tokens by assumption.
    destruct r as [[] [] [] [] [] []]. reflexivity.
  - simpl. rewrite <- H0, with_e_id; [reflexivity | apply with_r_in_id].
Qed.

Lemma read_r_out (st : Reader.state K) (r : mat66) (rest : list line) :
  finite_mat66 r = true ->
  Element.r_out (Reader.e st) = mat66_id ->
  read_lines add_kicktable
    ((if has_r_matrix r then write_rows "|r_out" r else []) ++ rest) st
  = read_lines add_kicktable rest
      (with_e (Element.with_r_out (if has_r_matrix r then r else mat66_id)) st).
Proof.
  intros Hr H0. destruct (has_r_matrix r).
  - destruct (finite_mat66_rows r Hr) as (H1 & H2 & H3 & H4 & H5 & H6).
    unfold write_rows, write_6d_vector.
    rewrite !finite_vec6_tokens by assumption.
    destruct r as [[] [] [] [] [] []]. reflexivity.
  - simpl. rewrite <- H0, with_e_id; [reflexivity | apply with_r_out_id].
Qed.

(** *** The two polynomials *)

Lemma with_polynoms_id (e : Element.t K) :
  Element.with_polynom_b (Element.polynom_b e)
    (Element.with_polynom_a (Element.polynom_a e) e) = e.
Proof. destruct e; reflexivity. Qed.

Lemma read_line_polynom_a (st : Reader.state K) (p : list double) :
  read_line add_kicktable st (write_polynom "polynom_a" p)
  = match read_polynom_line (open_stream (write_polynom "polynom_a" p))
            (Element.polynom_a (Reader.e st)) with
    | Goes_on q =>
        Goes_on (with_e (fun e => synchronize_polynomials (Element.with_polynom_a q e)) st)
    | Stops status _ => Stops status st
    | Hangs => Hangs
    | Undefined_behaviour => Undefined_behaviour
    end.
Proof. reflexivity. Qed.

Lemma read_line_polynom_b (st : Reader.state K) (p : list double) :
  read_line add_kicktable st (write_polynom "polynom_b" p)
  = match read_polynom_line (open_stream (write_polynom "polynom_b" p))
            (Element.polynom_b (Reader.e st)) with
    | Goes_on q =>
        Goes_on (with_e (fun e => synchronize_polynomials (Element.with_polynom_b q e)) st)
    | Stops status _ => Stops status st
    | Hangs => Hangs
    | Undefined_behaviour => Undefined_behaviour
    end.
Proof. reflexivity. Qed.

Lemma with_e_ext (st : Reader.state K) (f g : Element.t K -> Element.t K) :
  f (Reader.e st) = g (Reader.e st) -> with_e f st = with_e g st.
Proof. intros H. unfold with_e. rewrite H. reflexivity. Qed.

Lemma read_polynom_a_group (st : Reader.state K) (a : list double) (rest : list line) :
  forallb isfinite a = true ->
  Z.of_nat (List.length a) <= INT_MAX ->
  Element.polynom_a (Reader.e st) = replicate 3 d_zero ->
  Element.polynom_b (Reader.e st) = replicate 3 d_zero ->
  read_lines add_kicktable
    ((if has_polynom a then [write_polynom "polynom_a" a] else []) ++ rest) st
  = read_lines add_kicktable rest
      (with_e (fun e =>
                 Element.with_polynom_b (replicate (Nat.max 3 (polynom_order a)) d_zero)
                   (Element.with_polynom_a
                      (resize (Nat.max 3 (polynom_order a)) d_zero (map read_back a)) e))
              st).
Proof.
  intros Hfin Hlen Ha Hb. destruct (has_polynom a) eqn:Hhas.
  - simpl app. cbn [read_lines]. rewrite read_line_polynom_a, Ha.
    rewrite (read_polynom_line_written "polynom_a" a 3 eq_refl Hfin Hlen Hhas).
    f_equal. apply with_e_ext.
    destruct (Reader.e st). cbn [Element.polynom_a Element.polynom_b] in Ha, Hb. subst.
    unfold synchronize_polynomials.
    cbn -[resize replicate Nat.max polynom_order Nat.ltb List.length read_back].
    rewrite length_resize, length_replicate.
    assert (Hsize : (if (3 <? polynom_order a)%nat then polynom_order a else 3%nat)
                    = Nat.max 3 (polynom_order a)).
    { destruct (Nat.ltb_spec 3 (polynom_order a)); lia. }
    rewrite Hsize, resize_replicate.
    rewrite resize_read_back_grow by lia. reflexivity.
  - simpl app. rewrite has_polynom_order in Hhas. apply negb_false_iff in Hhas.
    apply Nat.eqb_eq in Hhas. rewrite Hhas. simpl Nat.max.
    rewrite (read_back_order_0 a Hhas), resize_replicate.
    rewrite with_e_id; [reflexivity|].
    rewrite <- Hb at 1. rewrite <- Ha. apply with_polynoms_id.
Qed.

Lemma read_polynom_b_group (st : Reader.state K) (a b : list double) (rest : list line) :
  forallb isfinite b = true ->
  Z.of_nat (List.length b) <= INT_MAX ->
  Element.polynom_a (Reader.e st)
  = resize (Nat.max 3 (polynom_order a)) d_zero (map read_back a) ->
  Element.polynom_b (Reader.e st) = replicate (Nat.max 3 (polynom_order a)) d_zero ->
  read_lines add_kicktable
    ((if has_polynom b then [write_polynom "polynom_b" b] else []) ++ rest) st
  = read_lines add_kicktable rest
      (with_e (fun e =>
                 Element.with_polynom_b
                   (resize (polynom_length a b) d_zero (map read_back b))
                   (Element.with_polynom_a
                      (resize (polynom_length a b) d_zero (map read_back a)) e))
              st).
Proof.
  intros Hfin Hlen Ha Hb. unfold polynom_length. destruct (has_polynom b) eqn:Hhas.
  - simpl app. cbn [read_lines]. rewrite read_line_polynom_b, Hb.
    rewrite (read_polynom_line_written "polynom_b" b _ eq_refl Hfin Hlen Hhas).
    f_equal. apply with_e_ext.
    destruct (Reader.e st). cbn [Element.polynom_a Element.polynom_b] in Ha, Hb. subst.
    unfold synchronize_polynomials.
    cbn -[resize replicate Nat.max polynom_order Nat.ltb List.length read_back].
    rewrite !length_resize.
    assert (Hsize : (if (polynom_order b <? Nat.max 3 (polynom_order a))%nat
                     then Nat.max 3 (polynom_order a) else polynom_order b)
                    = Nat.max 3 (Nat.max (polynom_order a) (polynom_order b))).
    { destruct (Nat.ltb_spec (polynom_order b) (Nat.max 3 (polynom_order a))); lia. }
    rewrite Hsize.
    rewrite !resize_read_back_grow by lia. reflexivity.
  - simpl app. rewrite has_polynom_order in Hhas. apply negb_false_iff in Hhas.
    apply Nat.eqb_eq in Hhas. rewrite Hhas. rewrite Nat.max_0_r.
    rewrite (read_back_order_0 b Hhas), resize_replicate.
    rewrite with_e_id; [reflexivity|].
    rewrite <- Hb, <- Ha. apply with_polynoms_id.
Qed.

End Lines.

(** ** One element *)

Section OneElement.
Context {K : Type}.
Variable add_kicktable :
  string -> list K -> option K -> Status.type * list K * option K.

Lemma read_lines_cons (st st' : Reader.state K) (ln : line) (rest : list line) :
  read_line add_kicktable st ln = Goes_on st' ->
  read_lines add_kicktable (ln :: rest) st = read_lines add_kicktable rest st'.
Proof. intros H. simpl. rewrite H. reflexivity. Qed.

Lemma read_line_comment (st : Reader.state K) (fields : list token) (ws short : bool) :
  read_line add_kicktable st (TextLine "###" fields ws short) = Goes_on st.
Proof. reflexivity. Qed.

Lemma read_line_blank (st : Reader.state K) :
  read_line add_kicktable st (TextLine "" [] false true) = Goes_on st.
Proof. reflexivity. Qed.

Ltac split_storable H :=
  unfold storable in H;
  repeat match type of H with
         | (_ && _ = true) =>
             let H1 := fresh "Hs" in
             apply andb_true_iff in H as [H H1]
         end.

(** The lines of a storable element, read by the reader in front of a new
    element with its flags down, rebuild the element. *)
Lemma read_element (st : Reader.state K) (i : nat) (e : Element.t K)
    (lines rest : list line) :
  storable e = true ->
  write_element i e = Some lines ->
  Reader.found_hmin st = false ->
  Reader.found_vmin st = false ->
  String.eqb (Element.fam_name (Reader.e st)) "" = false
  \/ Reader.e st = Element_new "" d_zero ->
  read_lines add_kicktable (lines ++ rest) st
  = read_lines add_kicktable rest
      (Reader.mk (committed st) (element_read_back e) false false).
Proof.
  intros Hs Hw Hfh Hfv Hst. split_storable Hs.
  unfold write_element in Hw.
  destruct (pm_dict_at (Element.pass_method e)) as [name|] eqn:Hname; [|discriminate].
  injection Hw as <-.
  cbn [app]. rewrite <- !app_assoc.
  rewrite (read_lines_cons _ _ _ _ (read_line_comment st _ _ _)).
  rewrite (read_lines_cons _ _ _ _ (read_line_fam_name add_kicktable st _ _ Hs Hst)).
  rewrite Hfh, Hfv.
  rewrite (read_lines_cons _ _ _ _ (read_line_length add_kicktable _ (Element.length e) ltac:(assumption))).
  rewrite (read_lines_cons _ _ _ _
             (read_line_pass_method add_kicktable _ (Element.pass_method e) name
                ltac:(unfold PassMethod.pm_kicktable_pass in *; lia) Hname)).
  rewrite read_nr_steps by (first [assumption | reflexivity]).
  rewrite read_polynom_a_group
    by (first [assumption | reflexivity | apply Z.leb_le; assumption]).
  rewrite (read_polynom_b_group add_kicktable _ (Element.polynom_a e))
    by (first [assumption | reflexivity | apply Z.leb_le; assumption]).
  rewrite read_aperture_h by (first [assumption | reflexivity]).
  rewrite read_aperture_v by (first [assumption | reflexivity]).
  rewrite read_nonzero_hkick by (first [assumption | reflexivity]).
  rewrite read_nonzero_vkick by (first [assumption | reflexivity]).
  rewrite read_nonzero_angle by (first [assumption | reflexivity]).
  rewrite read_nonzero_gap by (first [assumption | reflexivity]).
  rewrite read_nonzero_fint_in by (first [assumption | reflexivity]).
  rewrite read_nonzero_fint_out by (first [assumption | reflexivity]).
  rewrite read_nonzero_voltage by (first [assumption | reflexivity]).
  rewrite read_nonzero_frequency by (first [assumption | reflexivity]).
  rewrite read_nonzero_angle_in by (first [assumption | reflexivity]).
  rewrite read_nonzero_angle_out by (first [assumption | reflexivity]).
  rewrite read_t_in by (first [assumption | reflexivity]).
  rewrite read_t_out by (first [assumption | reflexivity]).
  rewrite read_r_in by (first [assumption | reflexivity]).
  rewrite read_r_out by (first [assumption | reflexivity]).
  cbn [app]. rewrite (read_lines_cons _ _ _ _ (read_line_blank _)).
  reflexivity.
Qed.

End OneElement.

(** ** The element read back equals the element written *)

Lemma d_ne_refl_finite (x : double) : isfinite x = true -> d_ne x x = false.
Proof. intros H. unfold d_ne. fold (d_eq x x). rewrite d_eq_refl_finite by exact H. reflexivity. Qed.

Lemma d_ne_read_back (x : double) : isfinite x = true -> d_ne x (read_back x) = false.
Proof.
  intros H. unfold read_back. destruct (d_ne x d_zero) eqn:Hx.
  - apply d_ne_refl_finite, H.
  - exact Hx.
Qed.

Lemma vector_ne_read_back (p : list double) :
  forallb isfinite p = true -> vector_ne p (map read_back p) = false.
Proof.
  intros H. unfold vector_ne. apply negb_false_iff.
  induction p as [|x p IH]; [reflexivity|].
  simpl in H. apply andb_true_iff in H as [Hx Hp]. simpl.
  rewrite IH by exact Hp.
  pose proof (d_ne_read_back x Hx) as Hne. unfold d_ne in Hne.
  apply negb_false_iff in Hne. unfold d_eq. rewrite Hne. reflexivity.
Qed.

Lemma arrays_differ_false (a b c d : list double) :
  Forall2 same_double a b -> Forall2 same_double c d ->
  arrays_differ a b c d = false.
Proof.
  intros Hab. revert c d. induction Hab as [|x y a b Hxy Hab IH]; intros c d Hcd.
  - reflexivity.
  - destruct Hcd as [|z w c d Hzw Hcd]; [reflexivity|].
    simpl. unfold same_double in Hxy, Hzw. rewrite Hxy, Hzw. apply IH, Hcd.
Qed.

Lemma same_double_refl (l : list double) :
  forallb isfinite l = true -> Forall2 same_double l l.
Proof.
  induction l as [|x l IH]; intros H; [constructor|].
  simpl in H. apply andb_true_iff in H as [Hx Hl].
  constructor; [apply d_ne_refl_finite, Hx | apply IH, Hl].
Qed.

Lemma same_double_combine (l1 l2 : list double) :
  List.length l1 = List.length l2 ->
  existsb (fun xy => d_ne (fst xy) (snd xy)) (combine l1 l2) = false ->
  Forall2 same_double l1 l2.
Proof.
  revert l2. induction l1 as [|x l1 IH]; intros [|y l2] Hlen H;
    try discriminate; [constructor|].
  simpl in H. apply orb_false_iff in H as [Hxy H].
  constructor; [exact Hxy | apply IH; [simpl in Hlen; lia | exact H]].
Qed.

Lemma same_double_zeros (l : list double) :
  existsb (fun x => d_ne x d_zero) l = false ->
  Forall2 same_double l (replicate (List.length l) d_zero).
Proof.
  induction l as [|x l IH]; intros H; [constructor|].
  simpl in H. apply orb_false_iff in H as [Hx H].
  constructor; [exact Hx | apply IH, H].
Qed.

Lemma vec6_read_back (t : vec6) :
  finite_vec6 t = true ->
  Forall2 same_double (vec6_list t)
          (vec6_list (if has_t_vector t then t else vec6_zero)).
Proof.
  intros Hfin. destruct (has_t_vector t) eqn:Hhas.
  - apply same_double_refl, Hfin.
  - apply (same_double_zeros (vec6_list t)), Hhas.
Qed.

Lemma mat66_read_back (r : mat66) :
  finite_mat66 r = true ->
  Forall2 same_double (mat66_list r)
          (mat66_list (if has_r_matrix r then r else mat66_id)).
Proof.
  intros Hfin. destruct (has_r_matrix r) eqn:Hhas.
  - apply same_double_refl, Hfin.
  - apply same_double_combine; [reflexivity | exact Hhas].
Qed.

Lemma d_ne_zero_of_eq (x : double) : d_eq x d_zero = true -> d_ne x d_zero = false.
Proof. intros H. unfold d_ne. fold (d_eq x d_zero). rewrite H. reflexivity. Qed.

Section ReadBack.
Context {K : Type}.
Variable kicktable_ne : K -> K -> bool.

Ltac split_storable H :=
  unfold storable in H;
  repeat match type of H with
         | (_ && _ = true) =>
             let H1 := fresh "Hs" in
             apply andb_true_iff in H as [H H1]
         end.

(** A storable element and the element read back from its lines are equal
    under [Element::operator==]. *)
Lemma element_read_back_eq (e : Element.t K) :
  storable e = true ->
  Element_operator_eq kicktable_ne false e (element_read_back e) = true.
Proof.
  intros Hs. split_storable Hs.
  unfold Element_operator_eq, element_read_back.
  cbn [Element.fam_name Element.pass_method Element.length Element.nr_steps
       Element.hmin Element.hmax Element.vmin Element.vmax Element.hkick
       Element.vkick Element.angle Element.angle_in Element.angle_out Element.gap
       Element.fint_in Element.fint_out Element.thin_KL Element.thin_SL
       Element.frequency Element.voltage Element.polynom_a Element.polynom_b
       Element.kicktable Element.t_in Element.t_out Element.r_in Element.r_out].
  rewrite String.eqb_refl, !Z.eqb_refl.
  rewrite !d_ne_refl_finite by assumption.
  cbn [negb].
  match goal with
  | H : is_drift_or_identity e || _ = true |- _ =>
      unfold is_drift_or_identity in H;
      destruct ((Element.pass_method e =? PassMethod.pm_drift_pass)
                || (Element.pass_method e =? PassMethod.pm_identity_pass));
      [reflexivity | cbn [orb] in H; rename H into Hrest]
  end.
  repeat match type of Hrest with
         | (_ && _ = true) =>
             let H1 := fresh "Hr" in
             apply andb_true_iff in Hrest as [Hrest H1]
         end.
  rewrite !d_ne_read_back by assumption.
  rewrite !d_ne_zero_of_eq by assumption.
  match goal with
  | H : (List.length (Element.polynom_a e) =? _)%nat = true |- _ =>
      apply Nat.eqb_eq in H; rewrite <- H at 1
  end.
  match goal with
  | H : (List.length (Element.polynom_b e) =? _)%nat = true |- _ =>
      apply Nat.eqb_eq in H; rewrite <- H
  end.
  rewrite <- (length_map read_back (Element.polynom_a e)) at 1.
  rewrite <- (length_map read_back (Element.polynom_b e)).
  rewrite !resize_all.
  rewrite !vector_ne_read_back by assumption.
  rewrite !arrays_differ_false
    by (first [apply vec6_read_back | apply mat66_read_back]; assumption).
  destruct (Element.kicktable e); [discriminate | reflexivity].
Qed.

Lemma lattice_read_back_eq (lattice : list (Element.t K)) :
  forallb storable lattice = true ->
  lattice_eq kicktable_ne lattice (map element_read_back lattice) = true.
Proof.
  induction lattice as [|e lattice IH]; intros H; [reflexivity|].
  cbn [forallb] in H. apply andb_true_iff in H as [He Hl].
  cbn [lattice_eq map]. rewrite element_read_back_eq by exact He. apply IH, Hl.
Qed.

End ReadBack.

(** ** The lattice and the header *)

Lemma storable_word_name {K : Type} (e : Element.t K) :
  storable e = true -> word_name (Element.fam_name e) = true.
Proof.
  unfold storable. rewrite !andb_true_iff. tauto.
Qed.

Lemma storable_pass_method {K : Type} (e : Element.t K) :
  storable e = true -> 0 <= Element.pass_method e < PassMethod.pm_kicktable_pass.
Proof.
  unfold storable. rewrite !andb_true_iff. intros H.
  assert ((0 <=? Element.pass_method e) = true
          /\ (Element.pass_method e <? PassMethod.pm_kicktable_pass) = true)
    as [Hlo Hhi] by tauto.
  split; [apply Z.leb_le | apply Z.ltb_lt]; assumption.
Qed.

Lemma write_element_storable {K : Type} (i : nat) (e : Element.t K) :
  storable e = true -> exists lines, write_element i e = Some lines.
Proof.
  intros Hs. apply storable_pass_method in Hs.
  unfold PassMethod.pm_kicktable_pass in Hs. unfold write_element.
  assert (Hcases : Element.pass_method e = 0 \/ Element.pass_method e = 1
                   \/ Element.pass_method e = 2 \/ Element.pass_method e = 3
                   \/ Element.pass_method e = 4 \/ Element.pass_method e = 5
                   \/ Element.pass_method e = 6 \/ Element.pass_method e = 7) by lia.
  repeat (destruct Hcases as [-> | Hcases]); try rewrite Hcases;
    eexists; reflexivity.
Qed.

Lemma word_name_not_empty (s : string) : word_name s = true -> String.eqb s "" = false.
Proof.
  unfold word_name. intros H. apply andb_true_iff in H as [H _].
  apply negb_true_iff, H.
Qed.

Section Lattice.
Context {K : Type}.
Variable add_kicktable :
  string -> list K -> option K -> Status.type * list K * option K.

Lemma with_lattice_nil_r (a : Accelerator.t K) :
  with_lattice (Accelerator.lattice a ++ []) a = a.
Proof. rewrite app_nil_r. destruct a; reflexivity. Qed.

Lemma committed_named (a : Accelerator.t K) (e : Element.t K) (fh fv : bool) :
  String.eqb (Element.fam_name e) "" = false ->
  committed (Reader.mk a e fh fv) = with_lattice (Accelerator.lattice a ++ [e]) a.
Proof. intros H. unfold committed. cbn [Reader.e Reader.accelerator]. rewrite H. reflexivity. Qed.

(** The lines of a storable lattice rebuild it, element by element. *)
Lemma read_elements (lattice : list (Element.t K)) :
  forall (i : nat) (st : Reader.state K) (rest : list line),
    forallb storable lattice = true ->
    Reader.found_hmin st = false ->
    Reader.found_vmin st = false ->
    String.eqb (Element.fam_name (Reader.e st)) "" = false
    \/ Reader.e st = Element_new "" d_zero ->
    exists lines st',
      write_elements i lattice = Some lines
      /\ read_lines add_kicktable (lines ++ rest) st
         = read_lines add_kicktable rest st'
      /\ committed st'
         = with_lattice (Accelerator.lattice (committed st)
                         ++ map element_read_back lattice) (committed st).
Proof.
  induction lattice as [|e lattice IH]; intros i st rest Hall Hfh Hfv Hst.
  - exists [], st. repeat split. symmetry. apply with_lattice_nil_r.
  - cbn [forallb] in Hall. apply andb_true_iff in Hall as [He Hl].
    destruct (write_element_storable i e He) as [l Hl1].
    destruct (IH (S i)
                (Reader.mk (committed st) (element_read_back e) false false)
                rest Hl eq_refl eq_refl) as (ls & st' & Hw & Hr & Hc).
    { left. cbn [Reader.e element_read_back Element.fam_name].
      apply word_name_not_empty, storable_word_name, He. }
    exists (l ++ ls), st'. split; [|split].
    + cbn [write_elements]. rewrite Hl1, Hw. reflexivity.
    + rewrite <- app_assoc.
      rewrite (read_element add_kicktable st i e l (ls ++ rest) He Hl1 Hfh Hfv Hst).
      exact Hr.
    + rewrite Hc, committed_named
        by (cbn [element_read_back Element.fam_name];
            apply word_name_not_empty, storable_word_name, He).
      unfold with_lattice.
      cbn [map Accelerator.lattice Accelerator.energy Accelerator.harmonic_number
           Accelerator.cavity_on Accelerator.radiation_on Accelerator.vchamber_on
           Accelerator.kicktables].
      rewrite <- app_assoc. reflexivity.
Qed.

Lemma read_boolean_string_written (b : bool) (rest : list token) (ws : bool) :
  read_boolean_string (Stream (TWord (get_boolean_string b) :: rest) ws false false) = b.
Proof. destruct b; reflexivity. Qed.

(** The header of the writer sets the energy, the harmonic number and the
    three switches. *)
Lemma read_header (a a0 : Accelerator.t K) (rest : list line) :
  isfinite (Accelerator.energy a) = true ->
  in_int_range (Accelerator.harmonic_number a) = true ->
  read_lines add_kicktable (write_header a ++ rest) (reader_start a0)
  = read_lines add_kicktable rest
      (Reader.mk
         (Accelerator.mk [] (Accelerator.energy a) (Accelerator.harmonic_number a)
            (Accelerator.cavity_on a) (Accelerator.radiation_on a)
            (Accelerator.vchamber_on a) (Accelerator.kicktables a0))
         (Element_new "" d_zero) false false).
Proof.
  intros He Hh. unfold in_int_range in Hh. apply andb_true_iff in Hh as [Hlo Hhi].
  apply Z.leb_le in Hlo, Hhi.
  unfold write_header. rewrite (double_token_finite _ He).
  cbn [app read_lines].
  unfold read_line at 1. cbn -[read_lines read_line INT_MIN INT_MAX Z.ltb].
  unfold read_line at 1. cbn -[read_lines read_line INT_MIN INT_MAX Z.ltb].
  replace (Accelerator.harmonic_number a <? INT_MIN) with false
    by (symmetry; apply Z.ltb_ge; lia).
  replace (INT_MAX <? Accelerator.harmonic_number a) with false
    by (symmetry; apply Z.ltb_ge; lia).
  destruct (Accelerator.cavity_on a), (Accelerator.radiation_on a),
    (Accelerator.vchamber_on a); reflexivity.
Qed.

End Lattice.

(** ** What the writer emits *)







(** ** The round trip *)




(** * Further properties of the tracker *)

(** ** When [track_linepass] is defined *)

Section LinePassDefined.
Context {K : Type}.
Variable pm : passmethods K.
Variable accelerator : Accelerator.t K.
Variable trajectory : bool.

Local Abbreviation N := (List.length (Accelerator.lattice accelerator)).

(** From an offset inside the lattice, and with room in [pos] for the
    entrances still to be stored, the loop never leaves the vectors. *)
Lemma linepass_loop_defined (n i : nat) (st : Line.state) :
  (Line.element_offset st < N)%nat ->
  (trajectory = true -> (i + n <= List.length (Line.pos st))%nat) ->
  linepass_loop pm accelerator trajectory n i st <> Undefined.
Proof.
  revert i st. induction n as [|n IH]; intros i st Hoff Hlen; [discriminate|].
  destruct (lookup_lt_is_Some_2 _ _ Hoff) as [element Hel].
  assert (Hstore : exists pos1,
             (if trajectory then vector_store (Line.pos st) i (Line.orig_pos st)
              else Some (Line.pos st)) = Some pos1
             /\ List.length pos1 = List.length (Line.pos st)).
  { destruct trajectory.
    - eexists. split; [apply vector_store_Some; specialize (Hlen eq_refl); lia|].
      apply length_insert.
    - eexists. split; reflexivity. }
  destruct Hstore as (pos1 & Hstore & Hlen1).
  destruct (track_elementpass pm element (Line.orig_pos st) accelerator)
    as [status p] eqn:Hpass.
  simpl.
  rewrite (linepass_body_eq pm accelerator trajectory i st element pos1 status p
             Hel Hstore Hpass).
  destruct (lost_x accelerator element p); [discriminate|].
  destruct (lost_y accelerator element p); [discriminate|].
  destruct (negb (Status.eqb status Status.success)); [discriminate|].
  apply IH; cbn [Line.element_offset Line.pos].
  - apply Nat.mod_upper_bound. lia.
  - intros Ht. specialize (Hlen Ht). lia.
Qed.

End LinePassDefined.

(** X1.  [track_linepass] leaves the defined behaviour of C++ exactly when
    the lattice is not empty and [element_offset] lies outside it (the
    element [line[element_offset]] is then read outside the vector); in
    every other case it returns, with or without [trajectory] and whatever
    [pos] holds. *)
Theorem linepass_defined {K : Type} (pm : passmethods K)
    (accelerator : Accelerator.t K) (trajectory : bool) (st : Line.state) :
  track_linepass pm accelerator trajectory st = None
  <-> (List.length (Accelerator.lattice accelerator) <> 0
       /\ List.length (Accelerator.lattice accelerator) <= Line.element_offset st)%nat.
Proof.
  unfold track_linepass. split.
  - intros Hnone.
    destruct (List.length (Accelerator.lattice accelerator)) as [|n] eqn:HN;
      [discriminate Hnone|].
    split; [discriminate|].
    destruct (Nat.le_gt_cases (S n) (Line.element_offset st)) as [Hle | Hlt];
      [exact Hle | exfalso].
    pose proof (linepass_loop_defined pm accelerator trajectory (S n) 0
                  (linepass_start accelerator trajectory st)) as Hdef.
    destruct (linepass_loop pm accelerator trajectory (S n) 0
                (linepass_start accelerator trajectory st));
      try discriminate Hnone.
    apply Hdef; [|intros Ht|reflexivity].
    + unfold linepass_start. cbn [Line.element_offset]. lia.
    + unfold linepass_start. cbn [Line.pos]. rewrite Ht, length_app, length_replicate.
      lia.
  - intros [HN Hle].
    destruct (List.length (Accelerator.lattice accelerator)) as [|n] eqn:HN';
      [contradiction|].
    cbn [linepass_loop]. unfold linepass_body, linepass_start.
    cbn [Line.element_offset].
    rewrite (lookup_ge_None_2 (Accelerator.lattice accelerator) (Line.element_offset st))
      by lia.
    reflexivity.
Qed.

(** ** Walks without [trajectory] *)

Section CleanWalk.
Context {K : Type}.
Local Open Scope nat_scope.
Variable pm : passmethods K.
Variable accelerator : Accelerator.t K.
Variable x0 : Pos.t.
Variable offset : nat.

Local Abbreviation N := (List.length (Accelerator.lattice accelerator)).
Local Abbreviation coords := (coordinates pm accelerator x0 offset).
Local Abbreviation clean := (clean_at pm accelerator x0 offset).
Local Abbreviation verdict := (walk_verdict pm accelerator x0 offset).
Local Abbreviation plane := (walk_plane pm accelerator x0 offset).
Local Abbreviation lost :=
  (fun k => lost_x_at pm accelerator x0 offset k || lost_y_at pm accelerator x0 offset k).

(** The state of [track_linepass] in front of the [j]-th element of the
    walk. *)
Local Abbreviation at_element :=
  (fun (j : nat) (pos : list Pos.t) (lp : Plane.type) =>
     Line.mk (coords j) pos ((offset + j) mod N)%nat lp).

Lemma element_at_nonempty (j : nat) :
  (N <> 0)%nat -> exists element, element_at accelerator offset j = Some element.
Proof.
  intros HN. unfold element_at. apply lookup_lt_is_Some_2, Nat.mod_upper_bound, HN.
Qed.

Lemma linepass_body_step (i j : nat) (pos : list Pos.t) (lp : Plane.type) :
  (N <> 0)%nat ->
  linepass_body pm accelerator false i (at_element j pos lp)
  = if clean j then Next (at_element (S j) pos lp)
    else Return (verdict j)
           (Line.mk (coords (S j)) (if lost j then pos ++ [nan_pos] else pos)
                    ((offset + j) mod N)%nat (plane j lp)).
Proof.
  intros HN. destruct (element_at_nonempty j HN) as [element Hel].
  rewrite (linepass_body_eq pm accelerator false i (at_element j pos lp) element pos
             (pass_status pm accelerator x0 offset j) (coords (S j))).
  - unfold clean_at, walk_verdict, walk_plane, lost_x_at, lost_y_at. rewrite Hel.
    cbn [Line.element_offset Line.lost_plane].
    replace (((offset + j) mod N + 1) mod N)%nat with ((offset + S j) mod N)%nat
      by (rewrite Nat.Div0.add_mod_idemp_l; f_equal; lia).
    destruct (lost_x accelerator element (coords (S j)));
      [rewrite andb_false_r; reflexivity|].
    destruct (lost_y accelerator element (coords (S j)));
      [rewrite andb_false_r; reflexivity|].
    destruct (Status.eqb (pass_status pm accelerator x0 offset j) Status.success);
      reflexivity.
  - exact Hel.
  - reflexivity.
  - cbn [Line.orig_pos coordinates]. unfold pass_status. rewrite Hel.
    destruct (track_elementpass pm element (coords j) accelerator); reflexivity.
Qed.

(** A stretch of [n] clean elements, from the [j]-th of the walk on. *)
Lemma linepass_loop_clean (n i j : nat) (pos : list Pos.t) (lp : Plane.type) :
  (N <> 0)%nat ->
  (forall k, (j <= k < j + n)%nat -> clean k = true) ->
  linepass_loop pm accelerator false n i (at_element j pos lp)
  = Next (at_element (j + n) pos lp).
Proof.
  intros HN. revert i j. induction n as [|n IH]; intros i j Hclean.
  - rewrite Nat.add_0_r. reflexivity.
  - cbn [linepass_loop]. rewrite (linepass_body_step i j pos lp HN).
    rewrite (Hclean j) by lia.
    rewrite IH by (intros k Hk; apply Hclean; lia).
    replace (S j + n)%nat with (j + S n)%nat by lia. reflexivity.
Qed.

(** A stretch of [n] clean elements in front of one that stops the walk. *)
Lemma linepass_loop_stops (n m i j : nat) (pos : list Pos.t) (lp : Plane.type) :
  (N <> 0)%nat ->
  (forall k, (j <= k < j + n)%nat -> clean k = true) ->
  clean (j + n) = false ->
  linepass_loop pm accelerator false (n + S m) i (at_element j pos lp)
  = Return (verdict (j + n))
      (Line.mk (coords (S (j + n)))
               (if lost (j + n) then pos ++ [nan_pos] else pos)
               ((offset + (j + n)) mod N)%nat (plane (j + n) lp)).
Proof.
  intros HN Hclean Hstop.
  rewrite (linepass_loop_app pm accelerator false).
  rewrite (linepass_loop_clean n i j pos lp HN Hclean).
  cbn [linepass_loop]. rewrite (linepass_body_step (i + n) (j + n) pos lp HN), Hstop.
  reflexivity.
Qed.

Lemma offset_after_turns (t i : nat) :
  (offset < N \/ N = 0)%nat ->
  ((offset + (t * N + i)) mod N = (offset + i) mod N)%nat.
Proof.
  intros [Hlt | H0].
  - replace (offset + (t * N + i))%nat with (offset + i + t * N)%nat by lia.
    apply Nat.Div0.mod_add.
  - rewrite H0, Nat.mul_0_r. reflexivity.
Qed.

Lemma offset_at_turn (t : nat) :
  (offset < N)%nat -> ((offset + t * N) mod N = offset)%nat.
Proof.
  intros Hlt. rewrite Nat.Div0.mod_add. apply Nat.mod_small, Hlt.
Qed.

(** Turn number [t] of a walk around the ring, when it is clean. *)
Lemma track_linepass_turn (t : nat) (pos : list Pos.t) (lp : Plane.type) :
  (offset < N \/ N = 0)%nat ->
  (forall k, (t * N <= k < S t * N)%nat -> clean k = true) ->
  track_linepass pm accelerator false (Line.mk (coords (t * N)) pos offset lp)
  = Some (Status.success,
          Line.mk (coords (S t * N)) (pos ++ [coords (S t * N)]) offset Plane.no_plane).
Proof.
  intros Hoff Hclean. unfold track_linepass, linepass_start.
  cbn [Line.orig_pos Line.pos Line.element_offset Line.lost_plane].
  destruct Hoff as [Hlt | H0].
  - assert (Hst : Line.mk (coords (t * N)) pos offset lp
                  = Line.mk (coords (t * N)) pos ((offset + t * N) mod N) lp)
      by (rewrite (offset_at_turn t Hlt); reflexivity).
    rewrite Hst.
    rewrite (linepass_loop_clean N 0 (t * N) pos lp) by (first [lia | intros k Hk; apply Hclean; lia]).
    cbn [Line.orig_pos Line.pos Line.element_offset].
    replace (t * N + N)%nat with (S t * N)%nat by lia.
    rewrite (offset_at_turn (S t) Hlt). reflexivity.
  - rewrite H0, !Nat.mul_0_r. reflexivity.
Qed.

(** Turn number [t], when the walk is stopped behind its [i]-th element. *)
Lemma track_linepass_turn_stops (t i : nat) (pos : list Pos.t) (lp : Plane.type) :
  (offset < N)%nat ->
  (i < N)%nat ->
  (forall k, (t * N <= k < t * N + i)%nat -> clean k = true) ->
  clean (t * N + i) = false ->
  track_linepass pm accelerator false (Line.mk (coords (t * N)) pos offset lp)
  = Some (verdict (t * N + i),
          Line.mk (coords (S (t * N + i)))
                  (if lost (t * N + i) then pos ++ [nan_pos] else pos)
                  ((offset + i) mod N)%nat (plane (t * N + i) lp)).
Proof.
  intros Hlt Hi Hclean Hstop. unfold track_linepass, linepass_start.
  cbn [Line.orig_pos Line.pos Line.element_offset Line.lost_plane].
  assert (Hst : Line.mk (coords (t * N)) pos offset lp
                = Line.mk (coords (t * N)) pos ((offset + t * N) mod N) lp)
    by (rewrite (offset_at_turn t Hlt); reflexivity).
  rewrite Hst.
  replace N with (i + S (N - S i))%nat at 1 by lia.
  rewrite (linepass_loop_stops i (N - S i) 0 (t * N) pos lp) by (first [lia | assumption]).
  rewrite (offset_after_turns t i) by (left; exact Hlt).
  reflexivity.
Qed.

End CleanWalk.

(** X2.  Without [trajectory], on a walk that meets no failure and no loss,
    from an offset inside the lattice (or on an empty lattice),
    [track_linepass] returns [success], leaves the records of the caller in
    [pos] and appends behind them the coordinates at the end of the line,
    which it also leaves in [orig_pos]; [element_offset] has gone round the
    lattice and is back at its value on entry, and [lost_plane] is
    [no_plane] whatever it was. *)
Theorem linepass_clean_pass {K : Type} (pm : passmethods K)
    (accelerator : Accelerator.t K) (x0 : Pos.t) (pos : list Pos.t)
    (offset : nat) (lp : Plane.type) :
  let N := List.length (Accelerator.lattice accelerator) in
  let coords := coordinates pm accelerator x0 offset in
  (offset < N \/ N = 0)%nat ->
  (forall k, (k < N)%nat -> clean_at pm accelerator x0 offset k = true) ->
  track_linepass pm accelerator false (Line.mk x0 pos offset lp)
  = Some (Status.success,
          Line.mk (coords N) (pos ++ [coords N]) offset Plane.no_plane).
Proof.
  intros N coords Hoff Hclean.
  pose proof (track_linepass_turn pm accelerator x0 offset 0 pos lp Hoff) as Hturn.
  cbn [Nat.mul Nat.add] in Hturn. rewrite Nat.add_0_r in Hturn.
  apply Hturn. intros k Hk. apply Hclean. lia.
Qed.

Lemma linepass_clean_pass_witness :
  track_linepass example_passmethods
    (example_accelerator [example_marker "a"; example_marker "b"] true) false
    (Line.mk (example_pos 0 0) [example_pos 5 5] 1%nat Plane.y)
  = Some (Status.success,
          Line.mk (example_pos 0 0) [example_pos 5 5; example_pos 0 0] 1%nat
                  Plane.no_plane).
Proof.
  apply (linepass_clean_pass example_passmethods
           (example_accelerator [example_marker "a"; example_marker "b"] true)
           (example_pos 0 0) [example_pos 5 5] 1%nat Plane.y).
  - left. simpl. lia.
  - intros k Hk. simpl in Hk. destruct k as [|[|k]]; [reflexivity | reflexivity | lia].
Defined.

(** ** Turns around the ring *)

Section Ring.
Context {K : Type}.
Local Open Scope nat_scope.
Variable pm : passmethods K.
Variable accelerator : Accelerator.t K.
Variable trajectory : bool.
Variable x0 : Pos.t.
Variable offset : nat.

Local Abbreviation N := (List.length (Accelerator.lattice accelerator)).
Local Abbreviation coords := (coordinates pm accelerator x0 offset).
Local Abbreviation records := (turn_records pm accelerator x0 offset).

Lemma turn_records_S (t : nat) :
  records (S t) = records t ++ [coords (S t * N)].
Proof. unfold turn_records. rewrite seq_S, map_app. reflexivity. Qed.

(** The state of [track_ringpass] after [t] clean turns. *)
Local Abbreviation after_turns :=
  (fun (t : nat) (pos : list Pos.t) (lp : Plane.type) =>
     Ring.mk (coords (t * N)) (if trajectory then pos ++ records t else pos) t offset
             (if (t =? 0)%nat then lp else Plane.no_plane) (records t)).

Lemma ringpass_loop_clean (t : nat) (pos : list Pos.t) (lp : Plane.type) :
  (offset < N \/ N = 0)%nat ->
  (forall k, (k < t * N)%nat -> clean_at pm accelerator x0 offset k = true) ->
  ringpass_loop pm accelerator trajectory t (Ring.mk x0 pos 0%nat offset lp [])
  = Next (after_turns t pos lp).
Proof.
  intros Hoff. induction t as [|t IH]; intros Hclean.
  - cbn [ringpass_loop Nat.mul coordinates Nat.eqb]. unfold turn_records.
    cbn [seq map]. rewrite app_nil_r. destruct trajectory; reflexivity.
  - replace (S t) with (t + 1)%nat at 1 by lia.
    rewrite ringpass_loop_app, IH by (intros k Hk; apply Hclean; lia).
    cbn [ringpass_loop]. unfold ringpass_body.
    cbn [Ring.orig_pos Ring.final_pos Ring.element_offset Ring.lost_plane Ring.pos
         Ring.lost_turn].
    rewrite (track_linepass_turn pm accelerator x0 offset t)
      by (first [exact Hoff | intros k Hk; apply Hclean; lia]).
    cbn [Status.eqb negb Line.orig_pos Line.pos Line.element_offset Line.lost_plane
         Nat.eqb].
    rewrite turn_records_S. destruct trajectory; rewrite <- ?app_assoc; reflexivity.
Qed.

End Ring.

(** X3.  When the first [nr_turns] turns of the walk meet no failure and no
    loss, [track_ringpass] returns [success] with [lost_turn = nr_turns],
    [orig_pos] at the coordinates behind the last turn and [element_offset]
    at its value on entry.  With [trajectory] it has appended to [pos] one
    record per turn, the coordinates at the end of that turn; without, the
    coordinates behind the last turn only.  Its local vector [final_pos]
    has received one record per turn. *)
Theorem ringpass_clean_turns {K : Type} (pm : passmethods K)
    (accelerator : Accelerator.t K) (trajectory : bool) (x0 : Pos.t)
    (pos : list Pos.t) (nr_turns offset : nat) (lp : Plane.type) :
  let N := List.length (Accelerator.lattice accelerator) in
  let coords := coordinates pm accelerator x0 offset in
  (offset < N \/ N = 0)%nat ->
  (forall k, (k < nr_turns * N)%nat -> clean_at pm accelerator x0 offset k = true) ->
  track_ringpass pm accelerator trajectory x0 pos nr_turns offset lp
  = Some (Status.success,
          Ring.mk (coords (nr_turns * N)%nat)
                  (pos ++ (if trajectory
                           then turn_records pm accelerator x0 offset nr_turns
                           else [coords (nr_turns * N)%nat]))
                  nr_turns offset
                  (if (nr_turns =? 0)%nat then lp else Plane.no_plane)
                  (turn_records pm accelerator x0 offset nr_turns)).
Proof.
  intros N coords Hoff Hclean. unfold track_ringpass.
  rewrite (ringpass_loop_clean pm accelerator trajectory x0 offset nr_turns pos lp
             Hoff Hclean).
  destruct trajectory; reflexivity.
Qed.

Lemma ringpass_clean_turns_witness :
  track_ringpass example_passmethods
    (example_accelerator [example_marker "a"; example_marker "b"] true) true
    (example_pos 0 0) [example_pos 5 5] 3 1 Plane.x
  = Some (Status.success,
          Ring.mk (example_pos 0 0)
                  [example_pos 5 5; example_pos 0 0; example_pos 0 0; example_pos 0 0]
                  3%nat 1%nat Plane.no_plane
                  [example_pos 0 0; example_pos 0 0; example_pos 0 0]).
Proof.
  apply (ringpass_clean_turns example_passmethods
           (example_accelerator [example_marker "a"; example_marker "b"] true) true
           (example_pos 0 0) [example_pos 5 5] 3%nat 1%nat Plane.x).
  - left. simpl. lia.
  - intros k Hk. simpl in Hk.
    do 6 (destruct k as [|k]; [reflexivity|]). lia.
Defined.

(** X4.  When the walk is clean for [t] whole turns and [i] more elements,
    and the next element is not passed cleanly (its pass method fails, or
    the particle is lost behind it), [track_ringpass], asked for more than
    [t] turns, returns the status of [track_linepass] there with
    [lost_turn = t] and [element_offset] on that element.  To [pos] it has
    appended the records of the [t] whole turns with [trajectory], and
    nothing at all without: no record tells where the particle was lost. *)
Theorem ringpass_stops {K : Type} (pm : passmethods K)
    (accelerator : Accelerator.t K) (trajectory : bool) (x0 : Pos.t)
    (pos : list Pos.t) (nr_turns offset : nat) (lp : Plane.type) (t i : nat) :
  let N := List.length (Accelerator.lattice accelerator) in
  let coords := coordinates pm accelerator x0 offset in
  let j := (t * N + i)%nat in
  (offset < N)%nat ->
  (t < nr_turns)%nat ->
  (i < N)%nat ->
  (forall k, (k < j)%nat -> clean_at pm accelerator x0 offset k = true) ->
  clean_at pm accelerator x0 offset j = false ->
  exists st,
    track_ringpass pm accelerator trajectory x0 pos nr_turns offset lp
    = Some (walk_verdict pm accelerator x0 offset j, st)
    /\ walk_verdict pm accelerator x0 offset j <> Status.success
    /\ Ring.lost_turn st = t
    /\ Ring.element_offset st = ((offset + i) mod N)%nat
    /\ Ring.orig_pos st = coords (S j)
    /\ Ring.lost_plane st
       = walk_plane pm accelerator x0 offset j
           (if (t =? 0)%nat then lp else Plane.no_plane)
    /\ Ring.pos st
       = (if trajectory then pos ++ turn_records pm accelerator x0 offset t else pos).
Proof.
  intros N coords j Hoff Ht Hi Hclean Hstop.
  assert (Hfail : walk_verdict pm accelerator x0 offset j <> Status.success).
  { unfold walk_verdict. unfold clean_at in Hstop.
    destruct (Status.eqb (pass_status pm accelerator x0 offset j) Status.success) eqn:Hs.
    - destruct (lost_x_at pm accelerator x0 offset j); [discriminate|].
      destruct (lost_y_at pm accelerator x0 offset j); [discriminate|].
      discriminate Hstop.
    - apply Status_eqb_neq in Hs.
      destruct (lost_x_at pm accelerator x0 offset j || lost_y_at pm accelerator x0 offset j);
        exact Hs. }
  unfold track_ringpass.
  replace nr_turns with (t + S (nr_turns - S t))%nat by lia.
  rewrite ringpass_loop_app.
  rewrite (ringpass_loop_clean pm accelerator trajectory x0 offset t pos lp)
    by (first [left; exact Hoff | intros k Hk; apply Hclean; unfold j; lia]).
  cbn [ringpass_loop].
  assert (Hline :
    track_linepass pm accelerator false
      (Line.mk (coords (t * N)%nat) (turn_records pm accelerator x0 offset t) offset
               (if (t =? 0)%nat then lp else Plane.no_plane))
    = Some (walk_verdict pm accelerator x0 offset j,
            Line.mk (coords (S j))
              (if lost_x_at pm accelerator x0 offset j || lost_y_at pm accelerator x0 offset j
               then turn_records pm accelerator x0 offset t ++ [nan_pos]
               else turn_records pm accelerator x0 offset t)
              ((offset + i) mod N)%nat
              (walk_plane pm accelerator x0 offset j
                 (if (t =? 0)%nat then lp else Plane.no_plane)))).
  { apply (track_linepass_turn_stops pm accelerator x0 offset t i); try assumption.
    intros k Hk. apply Hclean. unfold j. lia. }
  match goal with
  | |- context [ringpass_body _ _ _ ?st] =>
      rewrite (ringpass_body_failure pm accelerator trajectory st _ _ Hline Hfail)
  end.
  eexists. split; [reflexivity|]. split; [exact Hfail|].
  cbn [Ring.lost_turn Ring.element_offset Ring.orig_pos Ring.lost_plane Ring.pos
       Line.element_offset Line.orig_pos Line.lost_plane].
  repeat split.
Qed.

Lemma ringpass_stops_witness :
  exists st,
    track_ringpass example_passmethods
      (example_accelerator [example_marker "a"; example_marker "b"] true) false
      (example_pos 2 0) [] 3 0 Plane.no_plane
    = Some (Status.particle_lost, st)
    /\ Ring.lost_turn st = 0%nat
    /\ Ring.pos st = [].
Proof.
  destruct (ringpass_stops example_passmethods
              (example_accelerator [example_marker "a"; example_marker "b"] true) false
              (example_pos 2 0) [] 3%nat 0%nat Plane.no_plane 0%nat 0%nat)
    as (st & Hrun & _ & Hturn & _ & _ & _ & Hpos).
  - simpl. lia.
  - lia.
  - simpl. lia.
  - intros k Hk. simpl in Hk. lia.
  - reflexivity.
  - exists st. split; [exact Hrun|]. split; assumption.
Defined.

(** ** The layout of [pos] with [trajectory] *)

Section Layout.
Context {K : Type}.
Local Open Scope nat_scope.
Variable pm : passmethods K.
Variable accelerator : Accelerator.t K.
Variable x0 : Pos.t.
Variable offset : nat.
Variable pos0 : list Pos.t.

Local Abbreviation N := (List.length (Accelerator.lattice accelerator)).
Local Abbreviation coords := (coordinates pm accelerator x0 offset).

(** [pos] in front of iteration [i]: the entrances stored so far, and
    behind them what is left of the records of the caller followed by the
    NaN-filled records. *)
Local Abbreviation layout :=
  (fun i : nat => map coords (seq 0 i) ++ drop i (pos0 ++ replicate N nan_pos)).

Lemma layout_store (i : nat) :
  i < N -> vector_store (layout i) i (coords i) = Some (layout (S i)).
Proof.
  intros Hi.
  assert (Hlen : List.length (map coords (seq 0 i)) = i)
    by (rewrite length_map, length_seq; reflexivity).
  assert (Hin : i < List.length (pos0 ++ replicate N nan_pos))
    by (rewrite length_app, length_replicate; lia).
  destruct (lookup_lt_is_Some_2 _ _ Hin) as [y Hy].
  rewrite vector_store_Some
    by (rewrite length_app, Hlen, length_drop; lia).
  f_equal. rewrite insert_app_r_alt by lia.
  rewrite Hlen, Nat.sub_diag, (drop_S _ y i Hy). cbn [insert list_insert].
  rewrite seq_S, map_app, <- app_assoc. reflexivity.
Qed.

Lemma linepass_loop_layout (n i : nat) (lp : Plane.type) :
  i + n <= N ->
  (forall k, i <= k < i + n -> clean_at pm accelerator x0 offset k = true) ->
  linepass_loop pm accelerator true n i
    (Line.mk (coords i) (layout i) ((offset + i) mod N) lp)
  = Next (Line.mk (coords (i + n)) (layout (i + n)) ((offset + (i + n)) mod N) lp).
Proof.
  revert i. induction n as [|n IH]; intros i Hle Hclean.
  - rewrite Nat.add_0_r. reflexivity.
  - destruct (element_at_nonempty accelerator offset i ltac:(lia)) as [element Hel].
    destruct (clean_at_true pm accelerator x0 offset i) as (Hs & Hx & Hy);
      [apply Hclean; lia|].
    rewrite (linepass_loop_next pm accelerator true n i _
               (Line.mk (coords (S i)) (layout (S i)) ((offset + S i) mod N) lp)).
    + rewrite IH by (first [lia | intros k Hk; apply Hclean; lia]).
      replace (S i + n) with (i + S n) by lia. reflexivity.
    + rewrite (linepass_body_eq pm accelerator true i _ element (layout (S i))
                 (pass_status pm accelerator x0 offset i) (coords (S i))).
      * unfold lost_x_at, lost_y_at in Hx, Hy. rewrite Hel in Hx, Hy.
        rewrite Hx, Hy, Hs. cbn [Status.eqb negb Line.element_offset Line.lost_plane].
        replace (((offset + i) mod N + 1) mod N) with ((offset + S i) mod N)
          by (rewrite Nat.Div0.add_mod_idemp_l; f_equal; lia).
        reflexivity.
      * exact Hel.
      * cbn [Line.pos Line.orig_pos]. apply layout_store. lia.
      * cbn [Line.orig_pos coordinates]. unfold pass_status. rewrite Hel.
        destruct (track_elementpass pm element (coords i) accelerator); reflexivity.
Qed.

Lemma track_linepass_layout (lp : Plane.type) :
  offset < N \/ N = 0 ->
  (forall k, k < N -> clean_at pm accelerator x0 offset k = true) ->
  track_linepass pm accelerator true (Line.mk x0 pos0 offset lp)
  = Some (Status.success,
          Line.mk (coords N) (layout N ++ [coords N]) offset Plane.no_plane).
Proof.
  intros Hoff Hclean. unfold track_linepass, linepass_start.
  cbn [Line.orig_pos Line.pos Line.element_offset Line.lost_plane].
  assert (Hst : Line.mk x0 (pos0 ++ replicate N nan_pos) offset lp
                = Line.mk (coords 0) (layout 0) ((offset + 0) mod N) lp).
  { replace ((offset + 0) mod N) with offset; [reflexivity|].
    rewrite Nat.add_0_r. destruct Hoff as [Hlt | H0].
    - symmetry. apply Nat.mod_small, Hlt.
    - rewrite H0. reflexivity. }
  rewrite Hst.
  rewrite (linepass_loop_layout N 0 lp) by (first [lia | intros k Hk; apply Hclean; lia]).
  cbn [Nat.add Line.orig_pos Line.pos Line.element_offset].
  destruct Hoff as [Hlt | H0].
  - replace (offset + N) with (offset + 1 * N) by lia.
    rewrite Nat.Div0.mod_add, (Nat.mod_small _ _ Hlt). reflexivity.
  - replace ((offset + N) mod N) with offset; [reflexivity|].
    rewrite H0, Nat.add_0_r. reflexivity.
Qed.

End Layout.

(** X22.  With [trajectory], on a clean walk over a lattice of [N] elements,
    [track_linepass] returns in [pos] the [N] entrances, then the records
    of [pos ++ N NaN-filled records] from index [N] on, then the final
    coordinates.  When the caller had stored [N] records or more, its
    first [N] records are overwritten by the entrances, its other records
    are kept, and [N] NaN-filled records stay in front of the final
    coordinates. *)
Theorem linepass_trajectory_layout {K : Type} (pm : passmethods K)
    (accelerator : Accelerator.t K) (x0 : Pos.t) (pos0 : list Pos.t)
    (offset : nat) (lp : Plane.type) :
  let N := List.length (Accelerator.lattice accelerator) in
  let coords := coordinates pm accelerator x0 offset in
  (offset < N \/ N = 0)%nat ->
  (forall k, (k < N)%nat -> clean_at pm accelerator x0 offset k = true) ->
  track_linepass pm accelerator true (Line.mk x0 pos0 offset lp)
  = Some (Status.success,
          Line.mk (coords N)
            (map coords (seq 0 N) ++ drop N (pos0 ++ replicate N nan_pos) ++ [coords N])
            offset Plane.no_plane)
  /\ ((N <= List.length pos0)%nat ->
      track_linepass pm accelerator true (Line.mk x0 pos0 offset lp)
      = Some (Status.success,
              Line.mk (coords N)
                (map coords (seq 0 N) ++ drop N pos0 ++ replicate N nan_pos ++ [coords N])
                offset Plane.no_plane)).
Proof.
  intros N coords Hoff Hclean.
  pose proof (track_linepass_layout pm accelerator x0 offset pos0 lp Hoff Hclean) as Hrun.
  split.
  - rewrite Hrun, <- app_assoc. reflexivity.
  - intros Hlen. rewrite Hrun, (drop_app_le _ _ _ Hlen), <- !app_assoc. reflexivity.
Qed.

Lemma linepass_trajectory_layout_witness :
  track_linepass example_passmethods
    (example_accelerator [example_marker "a"; example_marker "b"] true) true
    (Line.mk (example_pos 0 0) [example_pos 5 5; example_pos 6 6; example_pos 7 7]
             1%nat Plane.no_plane)
  = Some (Status.success,
          Line.mk (example_pos 0 0)
            [example_pos 0 0; example_pos 0 0; example_pos 7 7; nan_pos; nan_pos;
             example_pos 0 0]
            1%nat Plane.no_plane).
Proof.
  destruct (linepass_trajectory_layout example_passmethods
              (example_accelerator [example_marker "a"; example_marker "b"] true)
              (example_pos 0 0) [example_pos 5 5; example_pos 6 6; example_pos 7 7]
              1%nat Plane.no_plane) as [_ Hrun].
  - left. simpl. lia.
  - intros k Hk. simpl in Hk. destruct k as [|[|k]]; [reflexivity | reflexivity | lia].
  - apply Hrun. simpl. lia.
Defined.

(** * Further properties of the elements *)

(** ** The comparison of doubles *)

(** [x == y] on doubles: both are zeros, or both are the same infinity, or
    both are the same finite number; a NaN equals nothing. *)
Lemma d_eq_true (x y : double) :
  d_eq x y = true <->
  match x, y with
  | S754_zero _, S754_zero _ => True
  | S754_infinity s1, S754_infinity s2 => s1 = s2
  | S754_finite s1 m1 e1, S754_finite s2 m2 e2 => s1 = s2 /\ m1 = m2 /\ e1 = e2
  | _, _ => False
  end.
Proof.
  unfold d_eq, SFeqb, SFcompare.
  destruct x as [s1|s1| |s1 m1 e1], y as [s2|s2| |s2 m2 e2];
    try solve [repeat match goal with s : bool |- _ => destruct s end;
               simpl; intuition discriminate].
  change (PosDef.Pos.compare_cont Eq m1 m2) with (Pos.compare m1 m2).
  destruct s1, s2; try solve [simpl; intuition discriminate];
    destruct (Z.compare_spec e1 e2) as [He | He | He];
    destruct (Pos.compare_spec m1 m2) as [Hm | Hm | Hm]; simpl;
    split; try discriminate; try (intros (_ & H1 & H2); lia); intros; subst; auto.
Qed.

Lemma d_eq_sym (x y : double) : d_eq x y = d_eq y x.
Proof.
  destruct (d_eq x y) eqn:Hxy, (d_eq y x) eqn:Hyx; try reflexivity.
  - apply d_eq_true in Hxy. apply not_true_iff_false in Hyx. exfalso. apply Hyx.
    apply d_eq_true. destruct x, y; intuition congruence.
  - apply d_eq_true in Hyx. apply not_true_iff_false in Hxy. exfalso. apply Hxy.
    apply d_eq_true. destruct x, y; intuition congruence.
Qed.

Lemma d_eq_trans (x y z : double) :
  d_eq x y = true -> d_eq y z = true -> d_eq x z = true.
Proof.
  rewrite !d_eq_true. destruct x, y, z; intuition congruence.
Qed.

Lemma d_ne_sym (x y : double) : d_ne x y = d_ne y x.
Proof. rewrite !d_ne_negb, d_eq_sym. reflexivity. Qed.

Lemma d_ne_trans (x y z : double) :
  d_ne x y = false -> d_ne y z = false -> d_ne x z = false.
Proof.
  rewrite !d_ne_negb, !negb_false_iff. apply d_eq_trans.
Qed.

Lemma vector_eq_sym (a b : list double) : vector_eq a b = vector_eq b a.
Proof.
  revert b. induction a as [|x a IH]; intros [|y b]; simpl; try reflexivity.
  rewrite d_eq_sym, IH. reflexivity.
Qed.

Lemma vector_eq_trans (a b c : list double) :
  vector_eq a b = true -> vector_eq b c = true -> vector_eq a c = true.
Proof.
  revert b c. induction a as [|x a IH]; intros [|y b] [|z c]; simpl;
    try discriminate; try reflexivity.
  rewrite !andb_true_iff. intros [Hxy Hab] [Hyz Hbc]. split.
  - exact (d_eq_trans x y z Hxy Hyz).
  - exact (IH b c Hab Hbc).
Qed.

Lemma vector_ne_sym (a b : list double) : vector_ne a b = vector_ne b a.
Proof. unfold vector_ne. rewrite vector_eq_sym. reflexivity. Qed.

Lemma vector_ne_trans (a b c : list double) :
  vector_ne a b = false -> vector_ne b c = false -> vector_ne a c = false.
Proof.
  unfold vector_ne. rewrite !negb_false_iff. apply vector_eq_trans.
Qed.

Lemma arrays_differ_sym (a b c d : list double) :
  arrays_differ a b c d = arrays_differ b a d c.
Proof.
  revert b c d. induction a as [|x a IH]; intros [|y b] [|z c] [|w d]; simpl;
    try reflexivity.
  rewrite (d_ne_sym y x), (d_ne_sym w z), IH. reflexivity.
Qed.

Lemma arrays_differ_trans (a b e c d f : list double) :
  List.length a = List.length b -> List.length b = List.length e ->
  List.length c = List.length d -> List.length d = List.length f ->
  arrays_differ a b c d = false -> arrays_differ b e d f = false ->
  arrays_differ a e c f = false.
Proof.
  revert b e c d f.
  induction a as [|x a IH]; intros [|y b] [|z e] [|u c] [|v d] [|w f]; simpl;
    try discriminate; try reflexivity.
  intros Hab Hbe Hcd Hdf.
  destruct (d_ne x y) eqn:Hxy; [discriminate|].
  destruct (d_ne u v) eqn:Huv; [discriminate|].
  destruct (d_ne y z) eqn:Hyz; [discriminate|].
  destruct (d_ne v w) eqn:Hvw; [discriminate|].
  rewrite (d_ne_trans x y z Hxy Hyz), (d_ne_trans u v w Huv Hvw).
  apply IH; lia.
Qed.

Lemma length_vec6_list (v : vec6) : List.length (vec6_list v) = 6%nat.
Proof. reflexivity. Qed.

Lemma length_mat66_list (m : mat66) : List.length (mat66_list m) = 36%nat.
Proof. reflexivity. Qed.

(** ** [Element::operator==] is symmetric and transitive *)

(** X5.  [a == b] and [b == a] give the same answer, provided the
    comparison of kicktables is symmetric: [Element::operator==] compares
    the fields of the two elements pairwise, and its shortcut for drifts and
    markers looks at the pass method of the left element only after the two
    pass methods have been found equal. *)
Theorem Element_eq_symmetric {K : Type} (kicktable_ne : K -> K -> bool)
    (same_object : bool) (a b : Element.t K) :
  (forall k1 k2, kicktable_ne k1 k2 = kicktable_ne k2 k1) ->
  Element_operator_eq kicktable_ne same_object a b
  = Element_operator_eq kicktable_ne same_object b a.
Proof.
  intros Hk. unfold Element_operator_eq. destruct same_object; [reflexivity|].
  rewrite (String.eqb_sym (Element.fam_name b) (Element.fam_name a)).
  rewrite (Z.eqb_sym (Element.pass_method b) (Element.pass_method a)).
  rewrite (Z.eqb_sym (Element.nr_steps b) (Element.nr_steps a)).
  rewrite (d_ne_sym (Element.length b) (Element.length a)),
    (d_ne_sym (Element.hmin b) (Element.hmin a)),
    (d_ne_sym (Element.hmax b) (Element.hmax a)),
    (d_ne_sym (Element.vmin b) (Element.vmin a)),
    (d_ne_sym (Element.vmax b) (Element.vmax a)),
    (d_ne_sym (Element.hkick b) (Element.hkick a)),
    (d_ne_sym (Element.vkick b) (Element.vkick a)),
    (d_ne_sym (Element.angle b) (Element.angle a)),
    (d_ne_sym (Element.angle_in b) (Element.angle_in a)),
    (d_ne_sym (Element.angle_out b) (Element.angle_out a)),
    (d_ne_sym (Element.gap b) (Element.gap a)),
    (d_ne_sym (Element.fint_in b) (Element.fint_in a)),
    (d_ne_sym (Element.fint_out b) (Element.fint_out a)),
    (d_ne_sym (Element.thin_KL b) (Element.thin_KL a)),
    (d_ne_sym (Element.thin_SL b) (Element.thin_SL a)),
    (d_ne_sym (Element.frequency b) (Element.frequency a)),
    (d_ne_sym (Element.voltage b) (Element.voltage a)).
  rewrite (vector_ne_sym (Element.polynom_a b) (Element.polynom_a a)),
    (vector_ne_sym (Element.polynom_b b) (Element.polynom_b a)).
  rewrite (arrays_differ_sym (vec6_list (Element.t_in b))),
    (arrays_differ_sym (mat66_list (Element.r_in b))).
  destruct (Element.pass_method a =? Element.pass_method b) eqn:Hpm.
  - apply Z.eqb_eq in Hpm. rewrite <- Hpm.
    destruct (Element.kicktable a) as [k1|], (Element.kicktable b) as [k2|];
      rewrite ?(Hk k2 k1); reflexivity.
  - destruct (negb (Element.fam_name a =? Element.fam_name b)%string); reflexivity.
Qed.

Lemma Element_eq_symmetric_witness :
  Element_operator_eq (fun _ _ : unit => false) false
    example_quadrupole (Element_drift "d1" (double_of_Z 2))
  = Element_operator_eq (fun _ _ : unit => false) false
      (Element_drift "d1" (double_of_Z 2)) example_quadrupole.
Proof.
  apply (Element_eq_symmetric (fun _ _ : unit => false) false
           example_quadrupole (Element_drift "d1" (double_of_Z 2))).
  reflexivity.
Defined.

(** One test of [operator==] passed: the condition of an
    [if (c) return false] is false. *)
Ltac passed H E :=
  match type of H with
  | (if ?c then false else _) = true =>
      assert (E : c = false)
        by (let E' := fresh in
            destruct c eqn:E';
            [first [discriminate H | rewrite E' in H; discriminate H] | reflexivity]);
      rewrite E in H
  end.

Ltac passes tac :=
  match goal with
  | |- (if ?c then false else _) = true =>
      replace c with false by (symmetry; tac)
  end.

(** X6.  On distinct objects, [a == b] and [b == c] entail [a == c],
    provided the equality of kicktables is transitive. *)
Theorem Element_eq_transitive {K : Type} (kicktable_ne : K -> K -> bool)
    (a b c : Element.t K) :
  (forall k1 k2 k3,
     kicktable_ne k1 k2 = false -> kicktable_ne k2 k3 = false ->
     kicktable_ne k1 k3 = false) ->
  Element_operator_eq kicktable_ne false a b = true ->
  Element_operator_eq kicktable_ne false b c = true ->
  Element_operator_eq kicktable_ne false a c = true.
Proof.
  intros Hk Hab Hbc. unfold Element_operator_eq in *. cbv iota in Hab, Hbc |- *.
  passed Hab Ename. passed Hbc Ename'.
  apply negb_false_iff, String.eqb_eq in Ename, Ename'.
  passes ltac:(apply negb_false_iff, String.eqb_eq; congruence).
  passed Hab Epm. passed Hbc Epm'.
  apply negb_false_iff, Z.eqb_eq in Epm, Epm'.
  passes ltac:(apply negb_false_iff, Z.eqb_eq; congruence).
  do 5 (let E1 := fresh "E" in let E2 := fresh "E" in
        passed Hab E1; passed Hbc E2;
        passes ltac:(exact (d_ne_trans _ _ _ E1 E2))).
  passed Hab Esteps. passed Hbc Esteps'.
  apply negb_false_iff, Z.eqb_eq in Esteps, Esteps'.
  passes ltac:(apply negb_false_iff, Z.eqb_eq; congruence).
  rewrite <- Epm in Hbc.
  destruct ((Element.pass_method a =? PassMethod.pm_drift_pass)
            || (Element.pass_method a =? PassMethod.pm_identity_pass));
    [reflexivity|].
  do 12 (let E1 := fresh "E" in let E2 := fresh "E" in
         passed Hab E1; passed Hbc E2;
         passes ltac:(exact (d_ne_trans _ _ _ E1 E2))).
  do 2 (let E1 := fresh "E" in let E2 := fresh "E" in
        passed Hab E1; passed Hbc E2;
        passes ltac:(exact (vector_ne_trans _ _ _ E1 E2))).
  do 2 (let E1 := fresh "E" in let E2 := fresh "E" in
        passed Hab E1; passed Hbc E2;
        passes ltac:(refine (arrays_differ_trans _ _ _ _ _ _ _ _ _ _ E1 E2);
                     first [apply length_vec6_list | apply length_mat66_list
                           | reflexivity])).
  destruct (Element.kicktable a) as [k1|], (Element.kicktable b) as [k2|],
    (Element.kicktable c) as [k3|]; try discriminate; try reflexivity.
  destruct (kicktable_ne k1 k2) eqn:Ek12; [discriminate|].
  destruct (kicktable_ne k2 k3) eqn:Ek23; [discriminate|].
  rewrite (Hk k1 k2 k3 Ek12 Ek23). reflexivity.
Qed.

Lemma Element_eq_transitive_witness :
  Element_operator_eq (fun _ _ : unit => false) false
    example_quadrupole (Element.with_hkick (double_of_Z 3) example_quadrupole) = true.
Proof.
  apply (Element_eq_transitive (fun _ _ : unit => false)
           example_quadrupole
           (Element.with_polynom_a [S754_zero true; d_zero; d_zero] example_quadrupole)
           (Element.with_hkick (double_of_Z 3) example_quadrupole)).
  - reflexivity.
  - reflexivity.
  - reflexivity.
Defined.

(** ** The typed constructors stay inside their polynomials *)


(** ** Pass methods and their names *)

Lemma with_pass_method_id {K : Type} (e : Element.t K) (tag : Z) :
  Element.pass_method e = tag -> Element.with_pass_method tag e = e.
Proof. intros <-. destruct e; reflexivity. Qed.

(** X8.  [Element::set_pass_method], given a name of [pm_dict], stores the
    tag under which [Element::get_pass_method] finds that name again; and
    the name [get_pass_method] gives for an element, set again by
    [set_pass_method], leaves the element as it is. *)
Theorem pass_method_name_round_trip {K : Type} (e : Element.t K) (name : string) :
  (In name pm_dict ->
   Element_get_pass_method (Element_set_pass_method name e) = Some name)
  /\ (Element_get_pass_method e = Some name -> Element_set_pass_method name e = e).
Proof.
  split.
  - intros Hin. simpl in Hin.
    repeat (destruct Hin as [<- | Hin]; [reflexivity|]). contradiction.
  - unfold Element_get_pass_method, pm_dict_at.
    destruct (Z.ltb_spec (Element.pass_method e) 0) as [Hneg | Hpos];
      [discriminate|].
    destruct (Z.to_nat (Element.pass_method e)) as [|i] eqn:Hi;
      [|repeat (destruct i as [|i];
                [|try (intros Hget; discriminate Hget)])];
      intros [= <-]; unfold Element_set_pass_method; simpl;
      apply with_pass_method_id; lia.
Qed.

Lemma pass_method_name_round_trip_witness :
  Element_get_pass_method
    (Element_set_pass_method "cavity_pass" (Element_marker (K := unit) "m"))
  = Some "cavity_pass"
  /\ Element_set_pass_method "identity_pass" (Element_marker (K := unit) "m")
     = Element_marker "m".
Proof.
  split.
  - apply (pass_method_name_round_trip (Element_marker (K := unit) "m") "cavity_pass").
    simpl. tauto.
  - apply (pass_method_name_round_trip (Element_marker (K := unit) "m") "identity_pass").
    reflexivity.
Defined.

(** ** Printing a polynomial *)







(** * Further properties of the reader of flat files *)

Section ReaderLines.
Context {K : Type}.
Variable add_kicktable :
  string -> list K -> option K -> Status.type * list K * option K.

(** ** Lines that begin with no key *)

Lemma read_line_unknown_key (st : Reader.state K) (ln : line) :
  unknown_key (cmd ln) = true ->
  read_line add_kicktable st ln
  = if size_lt_2 ln then Goes_on st else Stops Status.flat_file_error st.
Proof.
  intros H. unfold unknown_key in H.
  apply andb_true_iff in H as [H Hkeys]. apply andb_true_iff in H as [Hc Hh].
  apply negb_true_iff in Hc, Hh, Hkeys.
  cbn [existsb element_keys] in Hkeys.
  repeat (let E := fresh "E" in apply orb_false_iff in Hkeys as [E Hkeys]).
  unfold read_line. rewrite Hc, Hh.
  repeat match goal with
         | E : String.eqb (cmd ln) _ = false |- _ => rewrite E; clear E
         end.
  reflexivity.
Qed.

Lemma read_line_passed_over (st : Reader.state K) (ln : line) :
  passed_over ln = true -> read_line add_kicktable st ln = Goes_on st.
Proof.
  unfold passed_over. intros H. apply orb_true_iff in H as [Hc | H].
  - unfold read_line. rewrite Hc. reflexivity.
  - apply andb_true_iff in H as [Hkey Hshort].
    rewrite (read_line_unknown_key st ln Hkey), Hshort. reflexivity.
Qed.

Lemma read_lines_passed_over (lines : list line) (st : Reader.state K) :
  read_lines add_kicktable (List.filter (fun ln => negb (passed_over ln)) lines) st
  = read_lines add_kicktable lines st.
Proof.
  revert st. induction lines as [|ln lines IH]; intros st; [reflexivity|].
  cbn [List.filter]. destruct (passed_over ln) eqn:Hp; cbn [negb read_lines].
  - rewrite (read_line_passed_over st ln Hp). apply IH.
  - destruct (read_line add_kicktable st ln); try reflexivity. apply IH.
Qed.

(** ** The lattice grows by named elements only *)





(** ** Polynomial lines *)

Lemma is_nil_app_cons {A : Type} (l : list A) (x : A) (l' : list A) :
  is_nil (l ++ x :: l') = false.
Proof. destruct l; reflexivity. Qed.

Lemma is_nil_pair_tokens (pairs : list (Z * double)) (o : Z) (m : double) :
  is_nil (flat_map pair_tokens (pairs ++ [(o, m)])) = false.
Proof. rewrite flat_map_app. apply is_nil_app_cons. Qed.

(** The pairs of a line that ends with its last number: the last pair is
    read, but the end of the stream is met while it is read, and the loop
    leaves before it keeps the pair. *)
Lemma read_pairs_unfinished (pairs : list (Z * double)) (o : Z) (m : double) :
  forall (fuel : nat) (order : list Z) (multipole : list double) (size : Z),
    (List.length pairs < fuel)%nat ->
    Forall (fun ix => 0 <= fst ix <= UINT_MAX /\ isfinite (snd ix) = true)
           (pairs ++ [(o, m)]) ->
    read_pairs fuel (Stream (flat_map pair_tokens (pairs ++ [(o, m)])) false false false)
      order multipole size
    = Some (order ++ map fst pairs, multipole ++ map snd pairs,
            fold_left grow_size pairs size).
Proof.
  induction pairs as [|[i x] pairs IH]; intros fuel order multipole size Hfuel Hall.
  - destruct fuel as [|fuel]; [simpl in Hfuel; lia|].
    inversion Hall as [|? ? [[Ho0 Ho1] Hm] _]; subst. simpl in Ho0, Ho1, Hm.
    cbn [app flat_map pair_tokens fst snd read_pairs eofbit].
    rewrite (double_token_finite m Hm).
    unfold extract_uint, extract_double, sentry, advance. cbn.
    replace (o <? 0) with false by (symmetry; apply Z.ltb_ge; lia).
    replace (UINT_MAX <? o) with false by (symmetry; apply Z.ltb_ge; lia).
    cbn. rewrite !app_nil_r. reflexivity.
  - destruct fuel as [|fuel]; [simpl in Hfuel; lia|].
    inversion Hall as [|? ? [[Hi0 Hi1] Hx] Hrest]; subst. simpl in Hi0, Hi1, Hx.
    cbn [app flat_map pair_tokens fst snd read_pairs eofbit].
    rewrite (double_token_finite x Hx).
    unfold extract_uint, extract_double, sentry, advance. cbn.
    replace (i <? 0) with false by (symmetry; apply Z.ltb_ge; lia).
    replace (UINT_MAX <? i) with false by (symmetry; apply Z.ltb_ge; lia).
    cbn.
    rewrite is_nil_pair_tokens. cbn [andb].
    rewrite IH by (simpl in Hfuel; first [lia | assumption]).
    rewrite <- !app_assoc. reflexivity.
Qed.

Lemma read_polynom_line_unfinished (pairs : list (Z * double)) (o : Z) (m : double)
    (p : list double) :
  Forall (fun ix => 0 <= fst ix <= UINT_MAX /\ isfinite (snd ix) = true)
         (pairs ++ [(o, m)]) ->
  read_polynom_line
    (Stream (flat_map pair_tokens (pairs ++ [(o, m)])) false false false) p
  = read_polynom_line (Stream (flat_map pair_tokens pairs) true false false) p.
Proof.
  intros Hall. unfold read_polynom_line. cbn [toks].
  rewrite read_pairs_unfinished
    by (first [rewrite length_pair_tokens, length_app; simpl; lia | exact Hall]).
  rewrite read_pairs_written; [reflexivity | rewrite length_pair_tokens; lia |].
  apply Forall_app in Hall as [Hall _]. exact Hall.
Qed.

End ReaderLines.

(** X10.  A line whose first word is not a key of the reader, does not begin
    with [#] or [%] and which has two characters or more (a line of two
    blanks is one) ends the reading: [read_flat_file] returns
    [flat_file_error] there, the lines behind it are not read, and the
    accelerator keeps the elements committed so far, without the element
    under construction. *)
Theorem unknown_key_stops {K : Type}
    (add_kicktable : string -> list K -> option K -> Status.type * list K * option K)
    (accelerator : Accelerator.t K) (before after : list line) (ln : line)
    (st : Reader.state K) :
  read_lines add_kicktable before (reader_start accelerator) = Goes_on st ->
  unknown_key (cmd ln) = true ->
  size_lt_2 ln = false ->
  read_flat_file add_kicktable (Some (before ++ ln :: after)) accelerator
  = Stops Status.flat_file_error (Reader.accelerator st).
Proof.
  intros Hbefore Hkey Hlong. unfold read_flat_file, read_flat_file_trackcpp.
  rewrite read_lines_app, Hbefore. cbn [read_lines].
  rewrite (read_line_unknown_key add_kicktable st ln Hkey), Hlong. reflexivity.
Qed.

Lemma unknown_key_stops_witness :
  read_flat_file no_kicktable
    (Some ([TextLine "fam_name" [TWord "q"] false false;
            TextLine "length" [TReal d_one] false false]
           ++ TextLine "" [] true false
           :: [TextLine "fam_name" [TWord "r"] false false]))
    (example_accelerator [example_marker "m"] false)
  = Stops Status.flat_file_error (with_lattice [] (example_accelerator [] false)).
Proof.
  apply (unknown_key_stops no_kicktable (example_accelerator [example_marker "m"] false)
           [TextLine "fam_name" [TWord "q"] false false;
            TextLine "length" [TReal d_one] false false]
           [TextLine "fam_name" [TWord "r"] false false]
           (TextLine "" [] true false)
           (Reader.mk (with_lattice [] (example_accelerator [] false))
              (Element.with_length d_one
                 (Element.with_fam_name "q" (Element_new "" d_zero))) false false));
    reflexivity.
Defined.

(** X11.  Comments (lines whose first word begins with [#]) and lines of
    fewer than two characters that begin with no key have no effect: with or
    without them a file reads the same, wherever they stand. *)
Theorem passed_over_lines {K : Type}
    (add_kicktable : string -> list K -> option K -> Status.type * list K * option K)
    (lines : list line) (accelerator : Accelerator.t K) :
  read_flat_file add_kicktable
    (Some (List.filter (fun ln => negb (passed_over ln)) lines)) accelerator
  = read_flat_file add_kicktable (Some lines) accelerator.
Proof.
  unfold read_flat_file, read_flat_file_trackcpp.
  rewrite read_lines_passed_over. reflexivity.
Qed.



(** X13.  A polynomial line that ends with its last number, no blank behind
    it, is read as the same line without its last pair [order value]: the
    end of the stream is met while the value is read, and the loop of the
    reader tests it before it keeps the pair.  ([write_flat_file] puts a
    blank behind every number of such a line.) *)
Theorem polynom_line_last_pair {K : Type}
    (add_kicktable : string -> list K -> option K -> Status.type * list K * option K)
    (st : Reader.state K) (key : string) (pairs : list (Z * double))
    (o : Z) (m : double) (short : bool) :
  key = "polynom_a" \/ key = "polynom_b" ->
  Forall (fun ix => 0 <= fst ix <= UINT_MAX /\ isfinite (snd ix) = true)
         (pairs ++ [(o, m)]) ->
  read_line add_kicktable st
    (TextLine key (flat_map pair_tokens (pairs ++ [(o, m)])) false short)
  = read_line add_kicktable st
      (TextLine key (flat_map pair_tokens pairs) true short).
Proof.
  intros Hkey Hall.
  assert (Hopen :
    forall k, String.eqb k "" = false ->
      open_stream (TextLine k (flat_map pair_tokens (pairs ++ [(o, m)])) false short)
      = Stream (flat_map pair_tokens (pairs ++ [(o, m)])) false false false
      /\ open_stream (TextLine k (flat_map pair_tokens pairs) true short)
         = Stream (flat_map pair_tokens pairs) true false false).
  { intros k Hk. unfold open_stream. cbn [cmd args tail_ws]. rewrite Hk.
    rewrite is_nil_pair_tokens, andb_false_r. split; reflexivity. }
  destruct Hkey as [-> | ->];
    [destruct (Hopen "polynom_a" eq_refl) as [Hl Hr]
    |destruct (Hopen "polynom_b" eq_refl) as [Hl Hr]];
    unfold read_line; cbn [cmd first_char_is String.eqb Ascii.eqb Bool.eqb];
    rewrite Hl, Hr, (read_polynom_line_unfinished pairs o m _ Hall); reflexivity.
Qed.

Lemma polynom_line_last_pair_witness :
  read_line no_kicktable (reader_start (example_accelerator [] false))
    (TextLine "polynom_b"
       (flat_map pair_tokens ([(1, double_of_Z 2)] ++ [(2, double_of_Z 3)])) false false)
  = Goes_on
      (with_e (Element.with_polynom_b [d_zero; double_of_Z 2; d_zero])
         (reader_start (example_accelerator [] false))).
Proof.
  rewrite (polynom_line_last_pair no_kicktable
             (reader_start (example_accelerator [] false)) "polynom_b"
             [(1, double_of_Z 2)] 2 (double_of_Z 3) false).
  - reflexivity.
  - right. reflexivity.
  - repeat constructor; simpl; unfold UINT_MAX; lia.
Defined.

(** X14.  At a line [pass_method name] whose name is one of [pm_dict] other
    than the kicktable pass, the reader gives the element the pass method
    that [Element::set_pass_method] gives it for the same name. *)
Theorem reader_sets_pass_method {K : Type}
    (add_kicktable : string -> list K -> option K -> Status.type * list K * option K)
    (st : Reader.state K) (name : string) (rest : list token) (ws short : bool) :
  In name pm_dict ->
  name <> "kicktable_pass" ->
  read_line add_kicktable st (TextLine "pass_method" (TWord name :: rest) ws short)
  = Goes_on (with_e (Element_set_pass_method name) st).
Proof.
  intros Hin Hkick. simpl in Hin.
  repeat (destruct Hin as [<- | Hin]; [try reflexivity; contradiction|]).
  contradiction.
Qed.

Lemma reader_sets_pass_method_witness :
  read_line no_kicktable (reader_start (example_accelerator [] false))
    (TextLine "pass_method" [TWord "cavity_pass"] false false)
  = Goes_on (with_e (Element_set_pass_method "cavity_pass")
               (reader_start (example_accelerator [] false))).
Proof.
  apply (reader_sets_pass_method no_kicktable
           (reader_start (example_accelerator [] false)) "cavity_pass" [] false false).
  - simpl. tauto.
  - discriminate.
Defined.

(** * Further properties of the writer of flat files *)

(** ** When the writer is defined *)

Lemma pm_dict_at_None (i : Z) :
  pm_dict_at i = None <-> (i < 0 \/ PassMethod.pm_nr_pms <= i).
Proof.
  unfold pm_dict_at, PassMethod.pm_nr_pms.
  destruct (Z.ltb_spec i 0) as [Hneg | Hpos]; [split; auto|].
  rewrite lookup_ge_None. change (List.length pm_dict) with 9%nat. lia.
Qed.

Lemma write_element_None {K : Type} (i : nat) (e : Element.t K) :
  write_element i e = None <-> pm_dict_at (Element.pass_method e) = None.
Proof.
  unfold write_element. destruct (pm_dict_at (Element.pass_method e));
    split; intros H; first [discriminate H | reflexivity].
Qed.

Lemma write_elements_None {K : Type} (lattice : list (Element.t K)) (i : nat) :
  write_elements i lattice = None
  <-> Exists (fun e => pm_dict_at (Element.pass_method e) = None) lattice.
Proof.
  revert i. induction lattice as [|e lattice IH]; intros i; cbn [write_elements].
  - split; [discriminate | intros H; inversion H].
  - rewrite Exists_cons, <- (IH (S i)), <- (write_element_None i e).
    destruct (write_element i e), (write_elements (S i) lattice); split;
      intros H; try discriminate H; auto; destruct H as [H | H]; discriminate H.
Qed.

(** X15.  Once the file is open, [write_flat_file] either returns [success]
    or leaves the defined behaviour of C++, and it does the latter exactly
    when some element of the lattice has a [pass_method] outside the table
    [pm_dict], whose name it looks up without a test. *)
Theorem write_flat_file_defined {K : Type} (accelerator : Accelerator.t K) :
  (write_flat_file true accelerator = None
   <-> Exists (fun e => Element.pass_method e < 0
                        \/ PassMethod.pm_nr_pms <= Element.pass_method e)
              (Accelerator.lattice accelerator))
  /\ (forall status lines,
        write_flat_file true accelerator = Some (status, lines) ->
        status = Status.success).
Proof.
  unfold write_flat_file. cbn [negb]. split.
  - assert (Hiff : Exists (fun e => pm_dict_at (Element.pass_method e) = None)
                           (Accelerator.lattice accelerator)
                    <-> Exists (fun e => Element.pass_method e < 0
                                         \/ PassMethod.pm_nr_pms <= Element.pass_method e)
                               (Accelerator.lattice accelerator)).
    { rewrite !List.Exists_exists.
      split; intros (e & Hin & He); exists e; (split; [exact Hin|]);
        apply pm_dict_at_None, He. }
    rewrite <- Hiff, <- (write_elements_None (Accelerator.lattice accelerator) 0).
    destruct (write_elements 0 (Accelerator.lattice accelerator));
      split; intros H; first [discriminate H | reflexivity].
  - intros status lines.
    destruct (write_elements 0 (Accelerator.lattice accelerator)); [|discriminate].
    intros [= <- _]. reflexivity.
Qed.

(** ** A file written, read and written again *)

Lemma polynom_pairs_zeros (m : nat) (k : Z) :
  polynom_pairs k (replicate m d_zero) = [].
Proof. revert k. induction m as [|m IH]; intros k; [reflexivity|]. simpl. apply IH. Qed.

Lemma polynom_pairs_read_back (p : list double) (m : nat) (k : Z) :
  (polynom_order p <= m)%nat ->
  polynom_pairs k (resize m d_zero (map read_back p)) = polynom_pairs k p.
Proof.
  revert m k. induction p as [|x p IH]; intros m k Hm.
  - simpl map. rewrite resize_nil. apply polynom_pairs_zeros.
  - destruct m as [|m].
    + assert (Ho : polynom_order (x :: p) = 0%nat) by lia.
      rewrite (polynom_pairs_order_0 k (x :: p) Ho). reflexivity.
    + assert (Hm' : (polynom_order p <= m)%nat).
      { simpl in Hm. destruct (polynom_order p); lia. }
      simpl map. simpl resize. cbn [polynom_pairs]. unfold read_back at 1 2.
      destruct (d_ne x d_zero) eqn:Hx.
      * rewrite Hx, IH by exact Hm'. reflexivity.
      * change (d_ne d_zero d_zero) with false. cbv iota. apply IH, Hm'.
Qed.

Lemma has_polynom_pairs (p : list double) (k : Z) :
  has_polynom p = negb (is_nil (polynom_pairs k p)).
Proof.
  revert k. induction p as [|x p IH]; intros k; [reflexivity|].
  unfold has_polynom. cbn [existsb polynom_pairs]. fold (has_polynom p).
  destruct (d_ne x d_zero); [reflexivity|]. apply IH.
Qed.

Lemma has_polynom_read_back (p : list double) (m : nat) :
  (polynom_order p <= m)%nat ->
  has_polynom (resize m d_zero (map read_back p)) = has_polynom p.
Proof.
  intros Hm. rewrite (has_polynom_pairs _ 0), (has_polynom_pairs p 0).
  rewrite polynom_pairs_read_back by exact Hm. reflexivity.
Qed.

Lemma write_polynom_read_back (label : string) (p : list double) (m : nat) :
  (polynom_order p <= m)%nat ->
  write_polynom label (resize m d_zero (map read_back p)) = write_polynom label p.
Proof.
  intros Hm. unfold write_polynom. rewrite polynom_pairs_read_back by exact Hm.
  reflexivity.
Qed.

Lemma write_nonzero_read_back (key : string) (x : double) :
  write_nonzero key (read_back x) = write_nonzero key x.
Proof.
  unfold write_nonzero, read_back. destruct (d_ne x d_zero) eqn:Hx.
  - rewrite Hx. reflexivity.
  - reflexivity.
Qed.

(** The element read back from the lines of an element is written as the
    same lines. *)
Lemma write_element_read_back {K : Type} (i : nat) (e : Element.t K) :
  write_element i (element_read_back e) = write_element i e.
Proof.
  unfold write_element, element_read_back.
  cbn [Element.fam_name Element.pass_method Element.length Element.nr_steps
       Element.hmin Element.hmax Element.vmin Element.vmax Element.hkick
       Element.vkick Element.angle Element.angle_in Element.angle_out Element.gap
       Element.fint_in Element.fint_out Element.thin_KL Element.thin_SL
       Element.frequency Element.voltage Element.polynom_a Element.polynom_b
       Element.kicktable Element.t_in Element.t_out Element.r_in Element.r_out].
  destruct (pm_dict_at (Element.pass_method e)) as [name|]; [|reflexivity].
  rewrite !write_nonzero_read_back.
  rewrite !has_polynom_read_back, !write_polynom_read_back
    by (unfold polynom_length; lia).
  destruct (has_t_vector (Element.t_in e)) eqn:Hti;
    destruct (has_t_vector (Element.t_out e)) eqn:Hto;
    destruct (has_r_matrix (Element.r_in e)) eqn:Hri;
    destruct (has_r_matrix (Element.r_out e)) eqn:Hro;
    rewrite ?Hti, ?Hto, ?Hri, ?Hro;
    change (has_t_vector vec6_zero) with false;
    change (has_r_matrix mat66_id) with false; reflexivity.
Qed.

Lemma write_elements_read_back {K : Type} (lattice : list (Element.t K)) (i : nat) :
  write_elements i (map element_read_back lattice) = write_elements i lattice.
Proof.
  revert i. induction lattice as [|e lattice IH]; intros i; [reflexivity|].
  cbn [map write_elements]. rewrite write_element_read_back, IH. reflexivity.
Qed.

(** What [read_flat_file] makes of the file of a storable accelerator. *)
Lemma read_written {K : Type}
    (add_kicktable : string -> list K -> option K -> Status.type * list K * option K)
    (a a0 : Accelerator.t K) :
  storable_accelerator a = true ->
  exists lines,
    write_flat_file true a = Some (Status.success, lines)
    /\ read_flat_file add_kicktable (Some lines) a0
       = Stops Status.success
           (Accelerator.mk (map element_read_back (Accelerator.lattice a))
              (Accelerator.energy a) (Accelerator.harmonic_number a)
              (Accelerator.cavity_on a) (Accelerator.radiation_on a)
              (Accelerator.vchamber_on a) (Accelerator.kicktables a0)).
Proof.
  intros Hs. unfold storable_accelerator in Hs.
  apply andb_true_iff in Hs as [Hs Hl]. apply andb_true_iff in Hs as [He Hh].
  destruct (read_elements add_kicktable (Accelerator.lattice a) 0
              (Reader.mk
                 (Accelerator.mk [] (Accelerator.energy a) (Accelerator.harmonic_number a)
                    (Accelerator.cavity_on a) (Accelerator.radiation_on a)
                    (Accelerator.vchamber_on a) (Accelerator.kicktables a0))
                 (Element_new "" d_zero) false false)
              [] Hl eq_refl eq_refl (or_intror eq_refl))
    as (ls & st' & Hw & Hr & Hc).
  exists (write_header a ++ ls). split.
  - unfold write_flat_file. cbn [negb]. rewrite Hw. reflexivity.
  - unfold read_flat_file, read_flat_file_trackcpp.
    rewrite (read_header add_kicktable a a0 ls He Hh).
    rewrite app_nil_r in Hr. rewrite Hr. cbn [read_lines].
    unfold committed in Hc at 1. rewrite Hc. reflexivity.
Qed.

(** X16.  The file of a storable accelerator, read and written again, is
    the same file, line by line: the reader loses nothing that the writer
    emits, although the accelerator it builds need not be the one that was
    written (zeros lose their sign, polynomials their length). *)
Theorem write_read_write {K : Type}
    (add_kicktable : string -> list K -> option K -> Status.type * list K * option K)
    (a a0 : Accelerator.t K) :
  storable_accelerator a = true ->
  exists lines a1,
    write_flat_file true a = Some (Status.success, lines)
    /\ read_flat_file add_kicktable (Some lines) a0 = Stops Status.success a1
    /\ write_flat_file true a1 = Some (Status.success, lines).
Proof.
  intros Hs. destruct (read_written add_kicktable a a0 Hs) as (lines & Hw & Hr).
  exists lines. eexists. split; [exact Hw|]. split; [exact Hr|].
  unfold write_flat_file in *. cbn [negb Accelerator.lattice] in *.
  rewrite write_elements_read_back.
  destruct (write_elements 0 (Accelerator.lattice a)); [|discriminate].
  injection Hw as <-. reflexivity.
Qed.

Lemma write_read_write_witness :
  exists lines a1,
    write_flat_file true example_ring = Some (Status.success, lines)
    /\ read_flat_file no_kicktable (Some lines) (example_accelerator [] false)
       = Stops Status.success a1
    /\ write_flat_file true a1 = Some (Status.success, lines).
Proof.
  apply (write_read_write no_kicktable example_ring (example_accelerator [] false)).
  reflexivity.
Defined.

(** ** Polynomials brought to one length *)

(** X21.  [synchronize_polynomials] changes no coefficient: it appends zeros
    to the shorter of the two polynomials, up to the length of the longer,
    and leaves the longer one and every other field of the element alone;
    applied again it changes nothing. *)
Theorem synchronize_polynomials_pads {K : Type} (e : Element.t K) :
  exists n m : nat,
    Element.polynom_a (synchronize_polynomials e)
    = Element.polynom_a e ++ replicate n d_zero
    /\ Element.polynom_b (synchronize_polynomials e)
       = Element.polynom_b e ++ replicate m d_zero
    /\ (n = 0 \/ m = 0)%nat
    /\ List.length (Element.polynom_a (synchronize_polynomials e))
       = List.length (Element.polynom_b (synchronize_polynomials e))
    /\ synchronize_polynomials e
       = Element.with_polynom_b (Element.polynom_b (synchronize_polynomials e))
           (Element.with_polynom_a (Element.polynom_a (synchronize_polynomials e)) e)
    /\ synchronize_polynomials (synchronize_polynomials e) = synchronize_polynomials e.
Proof.
  unfold synchronize_polynomials.
  cbn [Element.polynom_a Element.polynom_b Element.with_polynom_a
       Element.with_polynom_b].
  rewrite !length_resize.
  set (la := List.length (Element.polynom_a e)).
  set (lb := List.length (Element.polynom_b e)).
  set (size := if (lb <? la)%nat then la else lb).
  assert (Hsize : (la <= size /\ lb <= size /\ (size = la \/ size = lb))%nat).
  { unfold size. destruct (Nat.ltb_spec lb la); lia. }
  exists (size - la)%nat, (size - lb)%nat.
  rewrite Nat.ltb_irrefl.
  rewrite !(resize_ge (Element.polynom_a e)), !(resize_ge (Element.polynom_b e))
    by (fold la; fold lb; lia).
  fold la. fold lb.
  repeat split; try lia.
  rewrite !resize_all_alt
    by (rewrite length_app, length_replicate; fold la; fold lb; lia).
  reflexivity.
Qed.

(** ** Coefficients that are not finite *)








Section NotFinite.
Context {K : Type}.
Variable add_kicktable :
  string -> list K -> option K -> Status.type * list K * option K.




End NotFinite.





(** ** Lattices of constructed elements *)

Lemma constructed_storable {K : Type} (e : Element.t K) :
  constructed e -> storable e = true.
Proof.
  intros H. destruct H;
    repeat match goal with
           | H : Element_quadrupole _ _ _ _ = Some _ |- _ => injection H as <-
           | H : Element_sextupole _ _ _ _ = Some _ |- _ => injection H as <-
           | H : Element_rbend _ _ _ _ _ _ _ _ _ _ _ _ _ = Some _ |- _ => injection H as <-
           end;
    unfold storable;
    cbn [Element_marker Element_bpm Element_drift Element_hcorrector
         Element_vcorrector Element_corrector Element_rfcavity
         initialize_marker initialize_drift initialize_corrector initialize_rfcavity
         Element_new default_polynom replicate
         Element.with_pass_method Element.with_hkick Element.with_vkick
         Element.with_frequency Element.with_voltage Element.with_polynom_b
         Element.with_polynom_a Element.with_nr_steps Element.with_angle
         Element.with_angle_in Element.with_angle_out Element.with_gap
         Element.with_fint_in Element.with_fint_out
         Element.fam_name Element.pass_method Element.length Element.nr_steps
         Element.hmin Element.hmax Element.vmin Element.vmax Element.hkick
         Element.vkick Element.angle Element.angle_in Element.angle_out Element.gap
         Element.fint_in Element.fint_out Element.thin_KL Element.thin_SL
         Element.frequency Element.voltage Element.polynom_a Element.polynom_b
         Element.kicktable Element.t_in Element.t_out Element.r_in Element.r_out
         insert list_insert forallb];
    repeat match goal with
           | H : _ = true |- _ => rewrite H; clear H
           end;
    unfold polynom_length, is_drift_or_identity;
    cbn [polynom_order Element.pass_method Element.with_nr_steps
         Element.with_polynom_b Element.with_polynom_a Element.with_pass_method
         Element.with_angle Element.with_angle_in Element.with_angle_out
         Element.with_gap Element.with_fint_in Element.with_fint_out Element_new];
    repeat match goal with
           | |- context [d_ne ?x d_zero] => is_var x; destruct (d_ne x d_zero)
           end;
    reflexivity.
Qed.

(** X18.  An accelerator whose lattice is made of elements as the typed
    constructors return them (from one-word names, finite numbers and step
    counts that fit an [int]; the bending magnet with its default
    polynomials), and whose energy is finite, is written by
    [write_flat_file] and read back by [read_flat_file] as an accelerator
    equal to it, element by element under [Element::operator==]. *)
Theorem constructed_lattice_round_trip {K : Type} (kicktable_ne : K -> K -> bool)
    (add_kicktable : string -> list K -> option K -> Status.type * list K * option K)
    (a a0 : Accelerator.t K) :
  Forall constructed (Accelerator.lattice a) ->
  isfinite (Accelerator.energy a) = true ->
  in_int_range (Accelerator.harmonic_number a) = true ->
  exists lines a',
    write_flat_file true a = Some (Status.success, lines)
    /\ read_flat_file add_kicktable (Some lines) a0 = Stops Status.success a'
    /\ accelerator_eq kicktable_ne a a' = true.
Proof.
  intros Hall He Hh.
  assert (Hl : forallb storable (Accelerator.lattice a) = true).
  { apply forallb_forall. intros e Hin. apply constructed_storable.
    rewrite List.Forall_forall in Hall. apply Hall, Hin. }
  assert (Hs : storable_accelerator a = true).
  { unfold storable_accelerator. rewrite He, Hh, Hl. reflexivity. }
  destruct (read_written add_kicktable a a0 Hs) as (lines & Hw & Hr).
  exists lines. eexists. split; [exact Hw|]. split; [exact Hr|].
  unfold accelerator_eq.
  cbn [Accelerator.lattice Accelerator.energy Accelerator.harmonic_number
       Accelerator.cavity_on Accelerator.radiation_on Accelerator.vchamber_on].
  rewrite d_eq_refl_finite by exact He.
  rewrite Z.eqb_refl, !Bool.eqb_reflx.
  rewrite lattice_read_back_eq by exact Hl. reflexivity.
Qed.

Lemma constructed_lattice_round_trip_witness :
  exists lines a',
    write_flat_file true example_constructed_ring = Some (Status.success, lines)
    /\ read_flat_file no_kicktable (Some lines) (example_accelerator [] false)
       = Stops Status.success a'
    /\ accelerator_eq (fun _ _ => false) example_constructed_ring a' = true.
Proof.
  apply (constructed_lattice_round_trip (fun _ _ : unit => false) no_kicktable
           example_constructed_ring (example_accelerator [] false)).
  - repeat constructor.
  - reflexivity.
  - reflexivity.
Defined.

(** * The polynomials of a Tracy flat file *)





